(** * WhatsAppBot-AI: the conversational decision engine

    A shallow embedding of the flow state machine ([flow-engine.js]) and of
    the two response matching engines ([brain.js], [advanced-brain.js]),
    with the properties the specification states about them; of the three
    statements of the persistence gateway the engines learn through
    ([database.js]); and of the gate a message passes before it reaches the
    flow engine ([security/encryption.js]), with further properties read
    off the code (X1 to X30).

    Conventions of the embedding.
    - A JavaScript string is a [string]: the sequence of its UTF-8 bytes
      (a lone surrogate is written as the three bytes of its code point).
      Lengths and cuts ([.length], [.substring]) count UTF-16 code units, as
      JavaScript does. Character classes ([\s], [\d], [\w]) are the ASCII
      ones; case mapping and accent folding cover ASCII and Latin-1
      (U+0000 to U+00FF), the letters of the Portuguese texts.
    - A JavaScript number is a rational [Q] (plus [NaN] and the infinities
      where the code can produce them); binary rounding is not modelled.
    - A [Map] is a [gmap]; a plain object used as a dictionary is a list of
      own properties in insertion order, looked up through [Js.get], which
      also sees the members every object inherits from [Object.prototype].
    - Code that mutates the engine is written in a state-and-exception
      monad; a [throw] keeps the mutations made before it, as in the source. *)

From Stdlib Require Import String Ascii List ZArith QArith Bool Lia Permutation Sorted DecimalString.
From stdpp Require Import base option gmap strings list.
Import ListNotations.

Local Open Scope string_scope.
Local Open Scope Z_scope.

(** ** JavaScript strings and objects *)

Module Js.

(** [WhiteSpace] and [LineTerminator] code points below 128. *)
Definition is_space (c : ascii) : bool :=
  let n := nat_of_ascii c in
  ((9 <=? n)%nat && (n <=? 13)%nat) || (n =? 32)%nat.

Definition is_digit (c : ascii) : bool :=
  let n := nat_of_ascii c in (48 <=? n)%nat && (n <=? 57)%nat.

Definition is_upper (c : ascii) : bool :=
  let n := nat_of_ascii c in (65 <=? n)%nat && (n <=? 90)%nat.

Definition is_lower (c : ascii) : bool :=
  let n := nat_of_ascii c in (97 <=? n)%nat && (n <=? 122)%nat.

(** [\w] is [[A-Za-z0-9_]]. *)
Definition is_word (c : ascii) : bool :=
  is_upper c || is_lower c || is_digit c || (nat_of_ascii c =? 95)%nat.

Fixpoint trimStart (s : string) : string :=
  match s with
  | String c s' => if is_space c then trimStart s' else s
  | EmptyString => EmptyString
  end.

Fixpoint rev_string (acc s : string) : string :=
  match s with
  | String c s' => rev_string (String c acc) s'
  | EmptyString => acc
  end.

Definition trimEnd (s : string) : string :=
  rev_string "" (trimStart (rev_string "" s)).

(** [String.prototype.trim]. *)
Definition trim (s : string) : string := trimEnd (trimStart s).

(** Lower-casing of one byte, given the byte before it: ASCII capitals, and
    the second byte of the two-byte capitals U+00C0..U+00DE (lead byte 195,
    second byte 128..158 except 151, the multiplication sign). *)
Definition lower_byte (prev : option ascii) (c : ascii) : ascii :=
  let n := nat_of_ascii c in
  if is_upper c then ascii_of_nat (n + 32)
  else match prev with
       | Some p =>
           if (nat_of_ascii p =? 195)%nat && (128 <=? n)%nat && (n <=? 158)%nat
              && negb (n =? 151)%nat
           then ascii_of_nat (n + 32) else c
       | None => c
       end.

Fixpoint lower_from (prev : option ascii) (s : string) : string :=
  match s with
  | String c s' => String (lower_byte prev c) (lower_from (Some c) s')
  | EmptyString => EmptyString
  end.

(** [String.prototype.toLowerCase]. *)
Definition toLowerCase (s : string) : string := lower_from None s.

Fixpoint startsWith (p s : string) : bool :=
  match p, s with
  | EmptyString, _ => true
  | String a p', String b s' => if Ascii.eqb a b then startsWith p' s' else false
  | String _ _, EmptyString => false
  end.

(** [s.includes(p)]: [p] occurs in [s] as a contiguous run. *)
Fixpoint includes (s p : string) : bool :=
  startsWith p s ||
  match s with
  | String _ s' => includes s' p
  | EmptyString => false
  end.

(** [s.replace(/\D/g, '')]. *)
Fixpoint digitsOnly (s : string) : string :=
  match s with
  | String c s' => if is_digit c then String c (digitsOnly s') else digitsOnly s'
  | EmptyString => EmptyString
  end.

(** The UTF-16 code units a byte of the encoding stands for: none for a
    continuation byte (128..191), which belongs to the character its lead
    byte opened; two for the lead byte of a four-byte sequence, whose
    character is a surrogate pair; one for any other byte. *)
Definition codeUnits (c : ascii) : nat :=
  let n := nat_of_ascii c in
  if (128 <=? n)%nat && (n <=? 191)%nat then 0%nat
  else if (240 <=? n)%nat then 2%nat
  else 1%nat.

Fixpoint utf16Length (s : string) : nat :=
  match s with
  | EmptyString => 0%nat
  | String c s' => (codeUnits c + utf16Length s')%nat
  end.

(** [s.length]: the number of UTF-16 code units of the string. *)
Definition len (s : string) : Z := Z.of_nat (utf16Length s).

(** A non-empty string is truthy. *)
Definition nonEmpty (s : string) : bool :=
  match s with EmptyString => false | _ => true end.

(** The property names every plain object inherits from [Object.prototype]. *)
Definition prototypeMembers : list string :=
  [ "constructor"; "__defineGetter__"; "__defineSetter__"; "hasOwnProperty";
    "__lookupGetter__"; "__lookupSetter__"; "isPrototypeOf";
    "propertyIsEnumerable"; "toString"; "valueOf"; "__proto__";
    "toLocaleString" ].

Definition inherited (k : string) : bool :=
  existsb (String.eqb k) prototypeMembers.

(** A plain object used as a dictionary: its own properties, oldest first. *)
Definition Obj (V : Type) : Type := list (string * V).

Fixpoint own {V} (o : Obj V) (k : string) : option V :=
  match o with
  | (k', v) :: o' => if String.eqb k k' then Some v else own o' k
  | [] => None
  end.

(** The result of reading [o[k]]. *)
Inductive Lookup (V : Type) : Type :=
| Own (v : V)        (* an own property *)
| Inherited          (* a function or object found on the prototype *)
| Undefined.         (* no such property *)
Arguments Own {V} v.
Arguments Inherited {V}.
Arguments Undefined {V}.

Definition get {V} (o : Obj V) (k : string) : Lookup V :=
  match own o k with
  | Some v => Own v
  | None => if inherited k then Inherited else Undefined
  end.

(** [o[k] = v] on an own property, keeping the insertion position of [k]. *)
Fixpoint set {V} (o : Obj V) (k : string) (v : V) : Obj V :=
  match o with
  | (k', v') :: o' =>
      if String.eqb k k' then (k', v) :: o' else (k', v') :: set o' k v
  | [] => [(k, v)]
  end.

(** [delete o[k]]. *)
Definition remove {V} (o : Obj V) (k : string) : Obj V :=
  List.filter (fun kv => negb (String.eqb k (fst kv))) o.

(** The value of a string of decimal digits. *)
Definition decimal (s : string) : N :=
  fold_left (fun acc c => (10 * acc + (N_of_ascii c - 48))%N) (list_ascii_of_string s) 0%N.

(** An array index: a canonical numeral (no sign, no leading zero) below
    2^32 - 1. Such keys are enumerated first, in ascending order. *)
Definition arrayIndex (k : string) : option N :=
  match k with
  | EmptyString => None
  | String c k' =>
      if forallb is_digit (list_ascii_of_string k)
         && (negb (Ascii.eqb c "0") || negb (nonEmpty k'))
         && (String.length k <=? 10)%nat
         && (decimal k <? 4294967295)%N
      then Some (decimal k) else None
  end.

(** Insertion of an indexed property among indexed properties sorted by
    ascending index. *)
Fixpoint insertIndexed {V} (i : N) (v : V) (l : list (N * V)) : list (N * V) :=
  match l with
  | [] => [(i, v)]
  | (j, w) :: l' => if (i <? j)%N then (i, v) :: l else (j, w) :: insertIndexed i v l'
  end.

Fixpoint indexed {V} (o : Obj V) : list (N * V) :=
  match o with
  | [] => []
  | (k, v) :: o' =>
      match arrayIndex k with
      | Some i => insertIndexed i v (indexed o')
      | None => indexed o'
      end
  end.

Fixpoint named {V} (o : Obj V) : list V :=
  match o with
  | [] => []
  | (k, v) :: o' =>
      match arrayIndex k with
      | Some _ => named o'
      | None => v :: named o'
      end
  end.

(** [Object.values(o)]: array indices in ascending order, then the other
    keys in insertion order. *)
Definition values {V} (o : Obj V) : list V := map snd (indexed o) ++ named o.

End Js.


(** *** Facts about objects used as dictionaries *)

Module JsFacts.

Lemma own_set_eq {V} (o : Js.Obj V) k v : Js.own (Js.set o k v) k = Some v.
Proof.
  induction o as [|[k' v'] o IH]; simpl.
  - rewrite String.eqb_refl. reflexivity.
  - destruct (String.eqb k k') eqn:E; simpl; rewrite E; [reflexivity | exact IH].
Qed.

Lemma own_set_ne {V} (o : Js.Obj V) k k' v :
  k <> k' -> Js.own (Js.set o k v) k' = Js.own o k'.
Proof.
  intros Hne. induction o as [|[k0 v0] o IH]; simpl.
  - destruct (String.eqb_spec k' k); [congruence | reflexivity].
  - destruct (String.eqb_spec k k0) as [->|H0]; simpl.
    + destruct (String.eqb_spec k' k0); [congruence | reflexivity].
    + destruct (String.eqb_spec k' k0); [reflexivity | exact IH].
Qed.

Lemma own_In {V} (o : Js.Obj V) k v : Js.own o k = Some v -> In (k, v) o.
Proof.
  induction o as [|[k' v'] o IH]; simpl; [discriminate|].
  destruct (String.eqb_spec k k') as [->|Hne].
  - intros [= ->]. left. reflexivity.
  - intros H. right. apply IH. exact H.
Qed.

Lemma In_own {V} (o : Js.Obj V) k v :
  List.NoDup (map fst o) -> In (k, v) o -> Js.own o k = Some v.
Proof.
  induction o as [|[k' v'] o IH]; simpl; [contradiction|].
  intros Hnd [[= -> ->] | Hin].
  - rewrite String.eqb_refl. reflexivity.
  - inversion Hnd as [|? ? Hnotin Hnd']. subst.
    destruct (String.eqb_spec k k') as [->|Hne].
    + exfalso. apply Hnotin. apply (in_map fst) in Hin. exact Hin.
    + apply IH; assumption.
Qed.

Lemma In_set {V} (o : Js.Obj V) k v k' v' :
  In (k', v') (Js.set o k v) -> (k' = k /\ v' = v) \/ In (k', v') o.
Proof.
  induction o as [|[k0 v0] o IH]; simpl.
  - intros [[= <- <-] | []]. left. auto.
  - destruct (String.eqb_spec k k0) as [->|Hne]; simpl.
    + intros [[= <- <-] | Hin]; [left; auto | right; auto].
    + intros [Heq | Hin]; [right; auto|].
      destruct (IH Hin) as [H | H]; [left; exact H | right; auto].
Qed.

Lemma keys_set {V} (o : Js.Obj V) k v :
  map fst (Js.set o k v)
  = match Js.own o k with
    | Some _ => map fst o
    | None => (map fst o ++ [k])%list
    end.
Proof.
  induction o as [|[k0 v0] o IH]; simpl; [reflexivity|].
  destruct (String.eqb_spec k k0) as [->|Hne]; simpl; [reflexivity|].
  rewrite IH. destruct (Js.own o k); reflexivity.
Qed.

Lemma own_None_keys {V} (o : Js.Obj V) k : Js.own o k = None -> ~ In k (map fst o).
Proof.
  induction o as [|[k0 v0] o IH]; simpl; [tauto|].
  destruct (String.eqb_spec k k0) as [->|Hne]; [discriminate|].
  intros H [Heq | Hin]; [congruence | exact (IH H Hin)].
Qed.

Lemma NoDup_keys_set {V} (o : Js.Obj V) k v :
  List.NoDup (map fst o) -> List.NoDup (map fst (Js.set o k v)).
Proof.
  intros Hnd. rewrite keys_set. destruct (Js.own o k) eqn:Hown; [exact Hnd|].
  apply List.NoDup_app; [exact Hnd | constructor; [intros [] | constructor] |].
  intros x Hx [<- | []]. exact (own_None_keys _ _ Hown Hx).
Qed.

Lemma insertIndexed_perm {V} (i : N) (v : V) l :
  Permutation (Js.insertIndexed i v l) ((i, v) :: l).
Proof.
  induction l as [|[j w] l IH]; simpl; [reflexivity|].
  destruct (i <? j)%N; [reflexivity|].
  rewrite IH. apply perm_swap.
Qed.

(** [Object.values] lists each own value once. *)
Lemma values_perm {V} (o : Js.Obj V) : Permutation (Js.values o) (map snd o).
Proof.
  unfold Js.values. induction o as [|[k v] o IH]; simpl; [reflexivity|].
  destruct (Js.arrayIndex k).
  - rewrite insertIndexed_perm. simpl. constructor. exact IH.
  - rewrite <- Permutation_middle. constructor. exact IH.
Qed.

Lemma own_remove_eq {V} (o : Js.Obj V) k : Js.own (Js.remove o k) k = None.
Proof.
  unfold Js.remove. induction o as [|[k' v'] o IH]; simpl; [reflexivity|].
  destruct (String.eqb k k') eqn:E; simpl; [exact IH | rewrite E; exact IH].
Qed.

Lemma append_cons c (s t : string) : String c s ++ t = String c (s ++ t).
Proof. reflexivity. Qed.

Lemma append_nil_l (s : string) : "" ++ s = s.
Proof. reflexivity. Qed.

Lemma append_nil_r (s : string) : s ++ "" = s.
Proof. induction s as [|c s IH]; [reflexivity|]. rewrite append_cons, IH. reflexivity. Qed.

Lemma append_assoc (s1 s2 s3 : string) : (s1 ++ s2) ++ s3 = s1 ++ (s2 ++ s3).
Proof.
  induction s1 as [|c s1 IH]; [reflexivity|]. rewrite !append_cons, IH. reflexivity.
Qed.

End JsFacts.
(** ** Regular expressions

    The patterns of the source are matched by Brzozowski derivatives. *)

Module Regex.

Inductive re : Type :=
| Void                          (* matches nothing *)
| Eps                           (* the empty string *)
| Chr (f : ascii -> bool)       (* one unit of a class *)
| Cat (a b : re)
| Alt (a b : re)
| Star (a : re).

Fixpoint nullable (r : re) : bool :=
  match r with
  | Void | Chr _ => false
  | Eps | Star _ => true
  | Cat a b => nullable a && nullable b
  | Alt a b => nullable a || nullable b
  end.

Definition cat (a b : re) : re :=
  match a, b with
  | Void, _ | _, Void => Void
  | Eps, _ => b
  | _, Eps => a
  | _, _ => Cat a b
  end.

Definition alt (a b : re) : re :=
  match a, b with
  | Void, _ => b
  | _, Void => a
  | _, _ => Alt a b
  end.

Fixpoint deriv (c : ascii) (r : re) : re :=
  match r with
  | Void | Eps => Void
  | Chr f => if f c then Eps else Void
  | Cat a b =>
      if nullable a then alt (cat (deriv c a) b) (deriv c b)
      else cat (deriv c a) b
  | Alt a b => alt (deriv c a) (deriv c b)
  | Star a => cat (deriv c a) (Star a)
  end.

(** The whole of [s] matches [r]: the pattern [^r$]. *)
Fixpoint matches (r : re) (s : string) : bool :=
  match s with
  | EmptyString => nullable r
  | String c s' => matches (deriv c r) s'
  end.

Definition any : re := Chr (fun _ => true).
Definition plus (r : re) : re := Cat r (Star r).
Definition opt (r : re) : re := Alt Eps r.

(** [r{n}] and [r{lo,hi}]. *)
Fixpoint rep (n : nat) (r : re) : re :=
  match n with O => Eps | S n' => Cat r (rep n' r) end.

Fixpoint upto (n : nat) (r : re) : re :=
  match n with O => Eps | S n' => opt (Cat r (upto n' r)) end.

Definition range (lo hi : nat) (r : re) : re := Cat (rep lo r) (upto (hi - lo) r).

Fixpoint anyOf (rs : list re) : re :=
  match rs with
  | [] => Void
  | [r] => r
  | r :: rs' => Alt r (anyOf rs')
  end.

(** A literal, unit by unit. *)
Fixpoint lit (s : string) : re :=
  match s with
  | EmptyString => Eps
  | String c s' => Cat (Chr (Ascii.eqb c)) (lit s')
  end.

(** A literal under the [i] flag: a unit matches when it is the pattern's
    unit up to case. *)
Fixpoint lit_ci_from (prev : option ascii) (s : string) : re :=
  match s with
  | EmptyString => Eps
  | String p s' =>
      Cat (Chr (fun c => Ascii.eqb (Js.lower_byte prev c) (Js.lower_byte prev p)))
          (lit_ci_from (Some p) s')
  end.

Definition lit_ci (s : string) : re := lit_ci_from None s.

(** The alternation [(w1|w2|...)] under the [i] flag. *)
Definition words_ci (ws : list string) : re := anyOf (map lit_ci ws).

(** How a pattern is anchored in the source. *)
Inductive anchor : Type := Search | AtStart | AtEnd | Whole.

Record RegExp : Type := { anchored : anchor; body : re }.

(** [pattern.test(s)]. *)
Definition test (p : RegExp) (s : string) : bool :=
  match anchored p with
  | Whole => matches (body p) s
  | AtStart => matches (Cat (body p) (Star any)) s
  | AtEnd => matches (Cat (Star any) (body p)) s
  | Search => matches (Cat (Star any) (Cat (body p) (Star any))) s
  end.

End Regex.


(** ** Effects

    A computation over a mutable state [S] either returns or throws; in both
    cases the state carries the mutations made so far. *)

(** What a call does: it returns a value or throws. *)
Inductive Outcome (A : Type) : Type :=
| Returns (a : A)
| Throws (e : string).
Arguments Returns {A} a.
Arguments Throws {A} e.

Definition M (S A : Type) : Type := S -> Outcome A * S.

Definition ret {S A} (a : A) : M S A := fun E => (Returns a, E).

Definition throw {S A} (e : string) : M S A := fun E => (Throws e, E).

Definition bind {S A B} (m : M S A) (k : A -> M S B) : M S B :=
  fun E =>
    match m E with
    | (Returns a, E') => k a E'
    | (Throws e, E') => (Throws e, E')
    end.

Notation "'do' x <- m ; k" := (bind m (fun x => k))
  (at level 10, x name, m at level 100, k at level 200).
Notation "'do_' m ; k" := (bind m (fun _ => k))
  (at level 10, m at level 100, k at level 200).

Lemma bind_ret {S A B} (a : A) (k : A -> M S B) (E : S) : bind (ret a) k E = k a E.
Proof. reflexivity. Qed.

Lemma bind_throw {S A B} (e : string) (k : A -> M S B) (E : S) :
  bind (throw e) k E = (Throws e, E).
Proof. reflexivity. Qed.

(** [try { m } catch (error) { h }]. *)
Definition try_catch {S A} (m : M S A) (h : string -> M S A) : M S A :=
  fun E =>
    match m E with
    | (Returns a, E') => (Returns a, E')
    | (Throws e, E') => h e E'
    end.

(** Reading a property of [undefined] throws a [TypeError]. *)
Definition typeError {S A} (what : string) : M S A :=
  throw ("TypeError: Cannot read properties of undefined (reading '" ++ what ++ "')").

Definition required {S A} (o : option A) (what : string) : M S A :=
  match o with
  | Some a => ret a
  | None => typeError what
  end.

(** ** The flow state machine ([flow-engine.js]) *)

Module FlowEngine.

(** *** Data model *)

Inductive JsNumber : Type :=
| NaN
| Infinity (negative : bool)
| Finite (q : Q).

(** The values a user context or the data of a flow holds. *)
Inductive Value : Type :=
| VString (s : string)
| VNumber (n : JsNumber).

Definition truthy (v : Value) : bool :=
  match v with
  | VString s => Js.nonEmpty s
  | VNumber NaN => false
  | VNumber (Infinity _) => true
  | VNumber (Finite q) => negb (Qeq_bool q 0)
  end.

(** An optional string property is truthy when present and non-empty. *)
Definition present (o : option string) : bool :=
  match o with Some s => Js.nonEmpty s | None => false end.

Definition UserContext : Type := Js.Obj Value.

(** An entry of [step.options]. *)
Record MenuOption : Type := {
  opt_id : string;
  opt_label : string;
  opt_action : option string;
  opt_target : option string;
  opt_next : option string
}.

(** A step of a flow, as the configuration file declares it. A property the
    file leaves out is [None]. *)
Record Step : Type := {
  step_id : string;
  step_type : string;
  step_message : option string;
  step_options : option (list MenuOption);
  step_max_retries : option Z;
  step_retry_message : option string;
  step_field : option string;
  step_validation : option string;
  step_save_to : option string;
  step_next : option string;
  step_delay : option Z;
  step_fallback : option string;
  step_confidence_threshold : option Q;
  step_action : option string;
  step_department_id : option string;
  step_context_message : option string;
  step_notify_human : bool;
  step_priority : option string;
  step_success_message : option string;
  step_condition : option string;
  step_if_true : option string;
  step_if_false : option string
}.

Record Flow : Type := { steps : list Step }.

Record Department : Type := {
  dept_id : string;
  dept_transfer_message : option string
}.

Record Config : Type := {
  mode : string;
  atendimento_flowId : string;          (* modes.atendimento.flowId *)
  triagem_flowId : string;              (* modes.triagem.flowId *)
  flows : Js.Obj Flow;
  ai_enabled : bool;                    (* ai.enabled *)
  departments : list Department;
  transfer_after_limit : bool;          (* fallback.transfer_after_limit *)
  transfer_message : option string      (* fallback.transfer_message *)
}.

Record HistoryEntry : Type := {
  h_stepId : string;
  h_type : string;
  h_input : string;
  h_timestamp : Z
}.

(** The state the engine keeps for one phone number. *)
Record UserState : Type := {
  phone : string;
  currentFlow : string;
  currentStep : nat;
  stepId : string;
  data : Js.Obj Value;
  context : UserContext;
  retryCount : Z;
  history : list HistoryEntry;
  startedAt : Z;
  waitingInput : bool;
  expectedInput : option string;
  menuOptions : option (list MenuOption);
  validationType : option string;
  quickReplyOptions : option (list MenuOption);
  previousFlow : option string
}.

(** The object a handler returns. *)
Record Result : Type := {
  r_message : option string;
  r_action : option string;
  r_error : bool;
  r_waitingInput : bool;
  r_continue : bool;
  r_restart : bool;
  r_delay : Z;
  r_transferComplete : bool;
  r_departmentId : option string;
  r_priority : option string;
  r_confidence : option Q;
  r_fromAI : bool;
  r_flowChanged : bool
}.

Definition noResult : Result :=
  {| r_message := None; r_action := None; r_error := false;
     r_waitingInput := false; r_continue := false; r_restart := false;
     r_delay := 0; r_transferComplete := false; r_departmentId := None;
     r_priority := None; r_confidence := None; r_fromAI := false;
     r_flowChanged := false |}.

(** The properties of an object literal [{ message: ..., action: ..., ... }]. *)
Inductive Prop_ : Type :=
| Message (m : option string)
| Action (a : string)
| Error
| WaitingInput
| Continue (b : bool)
| Restart
| Delay (d : Z)
| TransferComplete
| DepartmentId (d : option string)
| Priority (p : string)
| Confidence (q : Q)
| FromAI
| FlowChanged.

Definition withProp (r : Result) (p : Prop_) : Result :=
  let 'Build_Result m a e w c rs d t di pr cf fa fc := r in
  match p with
  | Message m' => Build_Result m' a e w c rs d t di pr cf fa fc
  | Action a' => Build_Result m (Some a') e w c rs d t di pr cf fa fc
  | Error => Build_Result m a true w c rs d t di pr cf fa fc
  | WaitingInput => Build_Result m a e true c rs d t di pr cf fa fc
  | Continue b => Build_Result m a e w b rs d t di pr cf fa fc
  | Restart => Build_Result m a e w c true d t di pr cf fa fc
  | Delay d' => Build_Result m a e w c rs d' t di pr cf fa fc
  | TransferComplete => Build_Result m a e w c rs d true di pr cf fa fc
  | DepartmentId di' => Build_Result m a e w c rs d t di' pr cf fa fc
  | Priority p' => Build_Result m a e w c rs d t di (Some p') cf fa fc
  | Confidence q => Build_Result m a e w c rs d t di pr (Some q) fa fc
  | FromAI => Build_Result m a e w c rs d t di pr cf true fc
  | FlowChanged => Build_Result m a e w c rs d t di pr cf fa true
  end.

Definition result (ps : list Prop_) : Result := fold_left withProp ps noResult.

(** A write sent to the persistence gateway. *)
Inductive DbWrite : Type :=
| SaveUserContext (phone : string) (fields : UserContext).

(** The engine: [this.userStates], the clock it reads and the writes it has
    sent. [callerContext] is the [userContext] object of the call in
    progress, which a capture step updates in place. *)
Record Engine : Type := {
  userStates : gmap string UserState;
  callerContext : UserContext;
  ticks : nat;
  dbWrites : list DbWrite
}.


(** *** The engine as a state *)

Definition withUserStates (f : gmap string UserState -> gmap string UserState) : M Engine unit :=
  fun E =>
    (Returns tt,
     {| userStates := f (userStates E); callerContext := callerContext E;
        ticks := ticks E; dbWrites := dbWrites E |}).

Definition getCallerContext : M Engine UserContext := fun E => (Returns (callerContext E), E).

Definition setCallerContext (c : UserContext) : M Engine unit :=
  fun E =>
    (Returns tt,
     {| userStates := userStates E; callerContext := c;
        ticks := ticks E; dbWrites := dbWrites E |}).

Definition dbWrite (w : DbWrite) : M Engine unit :=
  fun E =>
    (Returns tt,
     {| userStates := userStates E; callerContext := callerContext E;
        ticks := ticks E; dbWrites := dbWrites E ++ [w] |}).

(** *** Updates of a [UserState] object *)

Definition set_waitingInput (b : bool) (s : UserState) : UserState :=
  let 'Build_UserState p cf cs si d c r h sa _ e mo v q pf := s in
  Build_UserState p cf cs si d c r h sa b e mo v q pf.

Definition set_expectedInput (e : option string) (s : UserState) : UserState :=
  let 'Build_UserState p cf cs si d c r h sa w _ mo v q pf := s in
  Build_UserState p cf cs si d c r h sa w e mo v q pf.

Definition set_menuOptions (mo : option (list MenuOption)) (s : UserState) : UserState :=
  let 'Build_UserState p cf cs si d c r h sa w e _ v q pf := s in
  Build_UserState p cf cs si d c r h sa w e mo v q pf.

Definition set_validationType (v : option string) (s : UserState) : UserState :=
  let 'Build_UserState p cf cs si d c r h sa w e mo _ q pf := s in
  Build_UserState p cf cs si d c r h sa w e mo v q pf.

Definition set_quickReplyOptions (q : option (list MenuOption)) (s : UserState) : UserState :=
  let 'Build_UserState p cf cs si d c r h sa w e mo v _ pf := s in
  Build_UserState p cf cs si d c r h sa w e mo v q pf.

Definition set_retryCount (r : Z) (s : UserState) : UserState :=
  let 'Build_UserState p cf cs si d c _ h sa w e mo v q pf := s in
  Build_UserState p cf cs si d c r h sa w e mo v q pf.

Definition set_data (k : string) (x : Value) (s : UserState) : UserState :=
  let 'Build_UserState p cf cs si d c r h sa w e mo v q pf := s in
  Build_UserState p cf cs si (Js.set d k x) c r h sa w e mo v q pf.

Definition set_position (i : nat) (id : string) (s : UserState) : UserState :=
  let 'Build_UserState p cf _ _ d c r h sa w e mo v q pf := s in
  Build_UserState p cf i id d c r h sa w e mo v q pf.

Definition set_previousFlow (pf : option string) (s : UserState) : UserState :=
  let 'Build_UserState p cf cs si d c r h sa w e mo v q _ := s in
  Build_UserState p cf cs si d c r h sa w e mo v q pf.

Definition push_history (x : HistoryEntry) (s : UserState) : UserState :=
  let 'Build_UserState p cf cs si d c r h sa w e mo v q pf := s in
  Build_UserState p cf cs si d c r (h ++ [x]) sa w e mo v q pf.

(** *** Validators *)

Definition nl : string := String (ascii_of_nat 10) EmptyString.

(** What a validator hands back. The source reads only the [valid],
    [value] and [error] properties of it. *)
Inductive Validation : Type :=
| Accept (value : Value)      (* { valid: true, value } *)
| Reject (error : string)     (* { valid: false, error } *)
| Other.                      (* a value with no [valid] property *)

Definition valid (v : Validation) : bool :=
  match v with Accept _ => true | _ => false end.

Definition digitVal (c : ascii) : Z := Z.of_nat (nat_of_ascii c) - 48.

Definition digitsOf (s : string) : list Z := map digitVal (list_ascii_of_string s).

(** [/^(\d)\1{n}$/]: one digit, then the same one [n] more times. *)
Definition sameDigit (n : nat) (s : string) : bool :=
  match s with
  | String c s' =>
      Js.is_digit c && (String.length s' =? n)%nat
      && forallb (Ascii.eqb c) (list_ascii_of_string s')
  | EmptyString => false
  end.

(** The loop [sum += digit(i) * (w - i)]. *)
Fixpoint weighted (ds : list Z) (w : Z) : Z :=
  match ds with
  | [] => 0
  | d :: ds' => d * w + weighted ds' (w - 1)
  end.

Definition cpfDigit (sum : Z) : Z :=
  let digit := 11 - sum mod 11 in
  if digit >=? 10 then 0 else digit.

Definition validateCPF (cpf : string) : bool :=
  if negb (String.length cpf =? 11)%nat || sameDigit 10 cpf then false
  else
    let ds := digitsOf cpf in
    if negb (cpfDigit (weighted (firstn 9 ds) 10) =? nth 9 ds 0) then false
    else if negb (cpfDigit (weighted (firstn 10 ds) 11) =? nth 10 ds 0) then false
    else true.

(** The loop [sum += digit * pos--; if (pos < 2) pos = 9]. *)
Fixpoint cnpjSum (ds : list Z) (pos : Z) : Z :=
  match ds with
  | [] => 0
  | d :: ds' => d * pos + cnpjSum ds' (if pos - 1 <? 2 then 9 else pos - 1)
  end.

Definition cnpjDigit (sum : Z) : Z :=
  if sum mod 11 <? 2 then 0 else 11 - sum mod 11.

Definition validateCNPJ (cnpj : string) : bool :=
  if negb (String.length cnpj =? 14)%nat || sameDigit 13 cnpj then false
  else
    let ds := digitsOf cnpj in
    if negb (cnpjDigit (cnpjSum (firstn 12 ds) 5) =? nth 12 ds 0) then false
    else if negb (cnpjDigit (cnpjSum (firstn 13 ds) 6) =? nth 13 ds 0) then false
    else true.

(** [/^[^\s@]+@[^\s@]+\.[^\s@]+$/] *)
Definition emailRegex : Regex.RegExp :=
  let atom := Regex.Chr (fun c => negb (Js.is_space c || Ascii.eqb c "@")) in
  {| Regex.anchored := Regex.Whole;
     Regex.body :=
       Regex.Cat (Regex.plus atom)
         (Regex.Cat (Regex.lit "@")
            (Regex.Cat (Regex.plus atom)
               (Regex.Cat (Regex.lit ".") (Regex.plus atom)))) |}.

(** [/^[\d\s\(\)\-\+]{10,15}$/] *)
Definition phoneRegex : Regex.RegExp :=
  let unit := Regex.Chr (fun c =>
    Js.is_digit c || Js.is_space c
    || existsb (Ascii.eqb c) ["("; ")"; "-"; "+"]%char) in
  {| Regex.anchored := Regex.Whole; Regex.body := Regex.range 10 15 unit |}.

Section Validators.

(** The global [parseFloat]. *)
Variable parseFloat : string -> JsNumber.

Definition v_text (value : string) : Validation :=
  if negb (Js.nonEmpty value) || (Js.len (Js.trim value) <? 2)
  then Reject "Por favor, digite um texto válido."
  else Accept (VString (Js.trim value)).

Definition v_email (value : string) : Validation :=
  if negb (Regex.test emailRegex value)
  then Reject "E-mail inválido. Exemplo: seu@email.com"
  else Accept (VString (Js.trim (Js.toLowerCase value))).

Definition v_phone (value : string) : Validation :=
  let cleaned := Js.digitsOnly value in
  if negb (Regex.test phoneRegex value) || (Js.len cleaned <? 10)
  then Reject "Telefone inválido. Digite DDD + número."
  else Accept (VString cleaned).

Definition v_cpf (value : string) : Validation :=
  let cpf := Js.digitsOnly value in
  if negb (Js.len cpf =? 11) || negb (validateCPF cpf)
  then Reject "CPF inválido."
  else Accept (VString cpf).

Definition v_cnpj (value : string) : Validation :=
  let cnpj := Js.digitsOnly value in
  if negb (Js.len cnpj =? 14) || negb (validateCNPJ cnpj)
  then Reject "CNPJ inválido."
  else Accept (VString cnpj).

Definition v_cpf_cnpj (value : string) : Validation :=
  let doc := Js.digitsOnly value in
  if Js.len doc =? 11 then v_cpf value
  else if Js.len doc =? 14 then v_cnpj value
  else Reject "CPF/CNPJ inválido.".

Definition v_number (value : string) : Validation :=
  match parseFloat value with
  | NaN => Reject "Digite apenas números."
  | num => Accept (VNumber num)
  end.

Definition v_option (value : string) : Validation :=
  Accept (VString (Js.trim value)).

(** [setupValidators()]: the object [this.validators]. *)
Definition setupValidators : Js.Obj (string -> Validation) :=
  [ ("text", v_text); ("email", v_email); ("phone", v_phone);
    ("cpf", v_cpf); ("cnpj", v_cnpj); ("cpf_cnpj", v_cpf_cnpj);
    ("number", v_number); ("option", v_option) ].

(** Calling, as a plain function of one string, the member of
    [Object.prototype] that a validator name resolves to. [constructor],
    [toString] and [isPrototypeOf] hand back a value that is no validation
    result; the others need a receiver, or are not callable, and throw. *)
Definition callInherited (name : string) : M Engine Validation :=
  if existsb (String.eqb name) ["constructor"; "toString"; "isPrototypeOf"]
  then ret Other
  else throw ("TypeError: " ++ name).

(** [validateInput(value, validationType)]. A step without a [validation]
    property reads the key ["undefined"]. *)
Definition validateInput (value : string) (validationType : option string) : M Engine Validation :=
  let name := default "undefined" validationType in
  match Js.get setupValidators name with
  | Js.Undefined => ret (Accept (VString value))   (* logger.warn *)
  | Js.Own validator => ret (validator value)
  | Js.Inherited => callInherited name
  end.

End Validators.

(** *** State of the users, navigation and text utilities *)

Section Engine.

(** [Date.now()] at its n-th reading. *)
Variable clock : nat -> Z.

(** The globals [parseFloat] and [String] (on numbers). *)
Variable parseFloat : string -> JsNumber.
Variable numberToString : JsNumber -> string.

(** [AIBrain.processMessage(message, userContext)]: the reply of the
    matching engine and its confidence. *)
Variable aiProcessMessage : string -> UserContext -> string * Q.

(** [this.config]. *)
Variable config : Config.

Definition Date_now : M Engine Z :=
  fun E =>
    (Returns (clock (ticks E)),
     {| userStates := userStates E; callerContext := callerContext E;
        ticks := S (ticks E); dbWrites := dbWrites E |}).

Definition getUserState (phone : string) : M Engine (option UserState) :=
  fun E => (Returns (userStates E !! phone), E).

(** An assignment to a property of the [userState] object of [phone]. The
    object is the one the map holds, so the map sees the assignment. *)
Definition assign (phone : string) (f : UserState -> UserState) : M Engine unit :=
  withUserStates (alter f phone).

(** [updateUserState(phone, updates)] with the stored object itself as
    [updates]: [Object.assign] of an object to itself, then the same entry
    set again. *)
Definition updateUserState (phone : string) : M Engine unit :=
  withUserStates (fun m => match m !! phone with Some st => <[phone := st]> m | None => m end).

Definition resetUserFlow (phone : string) : M Engine unit :=
  withUserStates (delete phone).

Definition initializeUserFlow (phone flowId : string) : M Engine (option UserState) :=
  match Js.get (flows config) flowId with
  | Js.Undefined => ret None                              (* logger.error *)
  | Js.Inherited => typeError "0"            (* flow.steps is undefined *)
  | Js.Own flow =>
      do first <- required (head (steps flow)) "id";
      do userContext <- getCallerContext;
      do now <- Date_now;
      let userState :=
        {| phone := phone; currentFlow := flowId; currentStep := 0%nat;
           stepId := step_id first; data := []; context := userContext;
           retryCount := 0; history := []; startedAt := now;
           waitingInput := false; expectedInput := None; menuOptions := None;
           validationType := None; quickReplyOptions := None;
           previousFlow := None |} in
      do_ withUserStates (insert phone userState);
      ret (Some userState)
  end.

(** [array.findIndex(s => s.id === id)]. *)
Fixpoint findIndex (id : string) (l : list Step) (i : nat) : option nat :=
  match l with
  | [] => None
  | s :: l' => if String.eqb (step_id s) id then Some i else findIndex id l' (S i)
  end.

Definition moveToNextStep (phone : string) (userState : UserState) (nextStepId : string) : M Engine bool :=
  do flow <- match Js.get (flows config) (currentFlow userState) with
             | Js.Own flow => ret flow
             | _ => typeError "findIndex"
             end;
  match findIndex nextStepId (steps flow) 0 with
  | None => ret false                                     (* logger.error *)
  | Some nextIndex =>
      do_ assign phone (set_position nextIndex nextStepId);
      do_ updateUserState phone;
      ret true
  end.

Definition gotoFlow (phone : string) (flowId : option string) : M Engine Result :=
  let key := default "undefined" flowId in
  match Js.get (flows config) key with
  | Js.Undefined => ret (result [Message (Some "Erro ao trocar fluxo."); Error])
  | _ =>
      do_ assign phone (fun st => set_previousFlow (Some (currentFlow st)) st);
      do_ resetUserFlow phone;
      do_ initializeUserFlow phone key;
      ret (result [Message (Some "🔄 Redirecionando..."); FlowChanged; Continue true])
  end.

Definition valueToString (v : Value) : string :=
  match v with
  | VString s => s
  | VNumber n => numberToString n
  end.

(** What [String] makes of a member of [Object.prototype]: the accessor
    [__proto__] gives the prototype object itself, every other member is a
    native function, which [constructor] names [Object]. *)
Definition memberText (key : string) : string :=
  if String.eqb key "__proto__" then "[object Object]"
  else "function " ++ (if String.eqb key "constructor" then "Object" else key)
       ++ "() { [native code] }".

(** [object[key]] when it is truthy, as the text [replace] inserts. An own
    property hides the inherited member of its name; an inherited member is
    a function or an object, which is truthy. *)
Definition readKey (object : Js.Obj Value) (key : string) : option string :=
  match Js.get object key with
  | Js.Own v => if truthy v then Some (valueToString v) else None
  | Js.Inherited => Some (memberText key)
  | Js.Undefined => None
  end.

(** The callback of [replaceVariables]: the user context first, then the
    data of the flow. *)
Definition resolveKey (userState : UserState) (userContext : UserContext) (key : string)
  : option string :=
  match readKey userContext key with
  | Some text => Some text
  | None => readKey (data userState) key
  end.

(** [text.replace(/\{(\w+)\}/g, callback)], scanning left to right;
    [pending] is the run of word units read since an open brace. *)
Fixpoint substitute (resolve : string -> option string) (pending : option string)
  (s : string) : string :=
  match s with
  | EmptyString =>
      match pending with Some key => "{" ++ key | None => "" end
  | String c s' =>
      match pending with
      | None =>
          if Ascii.eqb c "{" then substitute resolve (Some "") s'
          else String c (substitute resolve None s')
      | Some key =>
          if Js.is_word c then substitute resolve (Some (key ++ String c "")) s'
          else if Ascii.eqb c "}" && Js.nonEmpty key then
            default ("{" ++ key ++ "}") (resolve key) ++ substitute resolve None s'
          else if Ascii.eqb c "{" then "{" ++ key ++ substitute resolve (Some "") s'
          else "{" ++ key ++ String c (substitute resolve None s')
      end
  end.

Definition replaceVariables (text : option string) (userState : UserState) : M Engine string :=
  do text <- required text "replace";
  do userContext <- getCallerContext;
  ret (substitute (resolveKey userState userContext) None text).

Definition buildMenuMessage (step : Step) (userState : UserState) : M Engine string :=
  replaceVariables (step_message step) userState.

Definition findDepartment (deptId : option string) : option Department :=
  match deptId with
  | Some d => find (fun dept => String.eqb (dept_id dept) d) (departments config)
  | None => None
  end.

Definition getDepartmentTransferMessage (deptId : option string) : option string :=
  match findDepartment deptId with
  | Some dept => dept_transfer_message dept
  | None => Some "Transferindo..."
  end.

(** [s.split(sep)]. *)
Fixpoint split_from (sep : ascii) (cur s : string) : list string :=
  match s with
  | EmptyString => [cur]
  | String c s' =>
      if Ascii.eqb c sep then cur :: split_from sep "" s'
      else split_from sep (cur ++ String c "") s'
  end.

Definition split (sep : ascii) (s : string) : list string := split_from sep "" s.

(** [evaluateCondition(condition, userState, userContext)]; whatever is
    thrown inside is caught and gives [false]. *)
Definition evaluateCondition (condition : option string) (userState : UserState) : M Engine bool :=
  do userContext <- getCallerContext;
  match condition with
  | None => ret false
  | Some condition =>
      let parts := split " " condition in
      let path := split "." (nth 0 parts "") in
      let value := String.concat " " (skipn 2 parts) in
      let key := nth 1 path "undefined" in
      let target :=
        if String.eqb (nth 0 path "") "user_context" then Js.get userContext key
        else if String.eqb (nth 0 path "") "data" then Js.get (data userState) key
        else Js.Undefined in
      match nth_error parts 1 with
      | Some "exists" =>
          ret (match target with
               | Js.Own v => truthy v
               | Js.Inherited => true
               | Js.Undefined => false
               end)
      | Some "equals" =>
          ret (match target with Js.Own (VString s) => String.eqb s value | _ => false end)
      | Some "contains" =>
          (* a number, a function and an object have no [includes]: the
             call throws and the [catch] returns false *)
          ret (match target with
               | Js.Own (VString s) => Js.nonEmpty s && Js.includes s value
               | _ => false
               end)
      | _ => ret false
      end
  end.

(** *** Step handlers *)

Definition handleMaxRetriesExceeded (phone : string) : M Engine Result :=
  if transfer_after_limit config then
    ret (result [Message (transfer_message config); Action "transfer_human";
                 TransferComplete])
  else
    do_ resetUserFlow phone;
    ret (result [Message (Some "Vamos recomeçar do início."); Restart]).

Definition handleMessageStep (phone : string) (step : Step) (userState : UserState)
  : M Engine Result :=
  do message <- replaceVariables (step_message step) userState;
  do_ (if present (step_next step)
       then moveToNextStep phone userState (default "" (step_next step))
       else ret false);
  ret (result [Message (Some message); Delay (default 0 (step_delay step));
               Continue (present (step_next step))]).

(** [step.max_retries || 3] *)
Definition maxRetries (step : Step) : Z :=
  match step_max_retries step with
  | Some n => if n =? 0 then 3 else n
  | None => 3
  end.

Definition handleMenuStep (phone message : string) (step : Step) (userState : UserState)
  : M Engine Result :=
  if negb (waitingInput userState) then
    do menuMessage <- buildMenuMessage step userState;
    do_ assign phone (fun st =>
          set_menuOptions (step_options step)
            (set_expectedInput (Some "menu_option") (set_waitingInput true st)));
    do_ updateUserState phone;
    ret (result [Message (Some menuMessage); WaitingInput])
  else
    let sanitized := Js.trim message in
    do options <- required (step_options step) "find";
    match find (fun opt => String.eqb (opt_id opt) sanitized) options with
    | None =>
        do_ assign phone (fun st => set_retryCount (retryCount st + 1) st);
        if retryCount userState + 1 >=? maxRetries step then
          handleMaxRetriesExceeded phone
        else
          ret (result
                 [Message (Some (if present (step_retry_message step)
                                 then default "" (step_retry_message step)
                                 else "Opção inválida. Tente novamente."));
                  WaitingInput])
    | Some option =>
        do_ assign phone (fun st =>
              set_data "lastMenuChoice" (VString (opt_id option))
                (set_waitingInput false (set_retryCount 0 st)));
        do userContext <- getCallerContext;
        do_ dbWrite (SaveUserContext phone
              ((match Js.own userContext "name" with
                | Some name => [("name", name)]
                | None => []
                end ++ [("lastMenuChoice", VString (opt_id option))])%list));
        match opt_action option with
        | Some "goto" => gotoFlow phone (opt_target option)
        | Some "transfer_human" =>
            ret (result [Message (Some "🤝 Conectando você com um atendente humano...");
                         Action "transfer_human"; TransferComplete])
        | Some "transfer_department" =>
            ret (result [Message (getDepartmentTransferMessage (opt_target option));
                         Action "transfer_department";
                         DepartmentId (opt_target option); TransferComplete])
        | _ => ret (result [Message (Some "Erro no menu."); Error])
        end
    end.

(** The text after [❌] in the retry prompt of a capture step. *)
Definition errorText (v : Validation) : string :=
  match v with
  | Reject error => error
  | _ => "undefined"
  end.

Definition handleCaptureDataStep (phone message : string) (step : Step)
  (userState : UserState) : M Engine Result :=
  if negb (waitingInput userState) then
    do question <- replaceVariables (step_message step) userState;
    do_ assign phone (fun st =>
          set_validationType (step_validation step)
            (set_expectedInput (step_field step) (set_waitingInput true st)));
    do_ updateUserState phone;
    ret (result [Message (Some question); WaitingInput])
  else
    do validation <- validateInput parseFloat message (step_validation step);
    match validation with
    | Accept value =>
        do_ assign phone (set_data (default "undefined" (step_field step)) value);
        do_ (if present (step_save_to step) then
               let path := split "." (default "" (step_save_to step)) in
               if String.eqb (nth 0 path "") "user_context" then
                 do userContext <- getCallerContext;
                 let userContext := Js.set userContext (nth 1 path "undefined") value in
                 do_ setCallerContext userContext;
                 dbWrite (SaveUserContext phone userContext)
               else ret tt
             else ret tt);
        do_ assign phone (fun st => set_retryCount 0 (set_waitingInput false st));
        do_ (if present (step_next step)
             then moveToNextStep phone userState (default "" (step_next step))
             else ret false);
        ret (result [Message (Some "✅ Perfeito!"); Delay 500;
                     Continue (present (step_next step))])
    | _ =>
        do_ assign phone (fun st => set_retryCount (retryCount st + 1) st);
        if retryCount userState + 1 >=? 3 then
          handleMaxRetriesExceeded phone
        else
          ret (result
                 [Message (Some ("❌ " ++ errorText validation ++ nl ++ nl
                                 ++ default "undefined" (step_message step)));
                  WaitingInput])
    end.

(** The test of [handleQuickReplyStep] on one option. *)
Definition quickReplyMatch (sanitized : string) (opt : MenuOption) : bool :=
  String.eqb (Js.toLowerCase (opt_id opt)) sanitized
  || Js.includes (Js.toLowerCase (opt_label opt)) sanitized.

Definition handleQuickReplyStep (phone message : string) (step : Step)
  (userState : UserState) : M Engine Result :=
  if negb (waitingInput userState) then
    do msg <- replaceVariables (step_message step) userState;
    do opts <- required (step_options step) "map";
    let options := String.concat nl (map (fun opt => "• " ++ opt_label opt) opts) in
    do_ assign phone (fun st =>
          set_quickReplyOptions (step_options step) (set_waitingInput true st));
    do_ updateUserState phone;
    ret (result [Message (Some (msg ++ nl ++ nl ++ options)); WaitingInput])
  else
    let sanitized := Js.trim (Js.toLowerCase message) in
    do options <- required (step_options step) "find";
    match find (quickReplyMatch sanitized) options with
    | None =>
        ret (result [Message (Some "❌ Resposta inválida. Escolha uma das opções acima.");
                     WaitingInput])
    | Some option =>
        do_ assign phone (fun st =>
              set_data "quickReply" (VString (opt_id option)) (set_waitingInput false st));
        if present (opt_next option) then
          if String.eqb (default "" (opt_next option)) "main_flow" then
            do_ resetUserFlow phone;
            ret (result [Message (Some "🔄 Voltando ao menu principal..."); Restart])
          else
            do_ moveToNextStep phone userState (default "" (opt_next option));
            ret (result [Message (Some "✅ Entendido!"); Continue true])
        else
          ret (result [Message (Some "✅ Entendido!"); Continue false])
    end.

Definition handleAIResponseStep (phone message : string) (step : Step)
  (userState : UserState) : M Engine Result :=
  if negb (ai_enabled config) then
    if present (step_fallback step) then
      do_ moveToNextStep phone userState (default "" (step_fallback step));
      ret (result [Continue true])
    else ret (result [Message (Some "IA não disponível no momento.")])
  else
    do userContext <- getCallerContext;
    let aiResponse := aiProcessMessage message userContext in
    if match step_confidence_threshold step with
       | Some threshold => Qle_bool threshold (snd aiResponse)
       | None => false
       end
    then
      do_ assign phone (set_data "aiResponse" (VString (fst aiResponse)));
      ret (result [Message (Some (fst aiResponse)); Confidence (snd aiResponse); FromAI])
    else if present (step_fallback step) then
      do_ moveToNextStep phone userState (default "" (step_fallback step));
      ret (result [Message (Some "Deixa eu te conectar com alguém que pode te ajudar melhor!");
                   Continue true])
    else
      ret (result [Message (Some "Não tenho certeza sobre isso. Vou te transferir para um especialista!");
                   Action "transfer_human"]).

Definition handleActionStep (phone : string) (step : Step) (userState : UserState)
  : M Engine Result :=
  match step_action step with
  | Some "transfer_department" =>
      do text <- (if present (step_context_message step)
                  then ret (step_context_message step)
                  else do dept <- required (findDepartment (step_department_id step))
                                    "transfer_message";
                       ret (dept_transfer_message dept));
      do msg <- replaceVariables text userState;
      ret (result [Message (Some msg); Action "transfer_department";
                   DepartmentId (step_department_id step);
                   Priority (if present (step_priority step)
                             then default "" (step_priority step) else "normal");
                   TransferComplete])
  | Some "transfer_human" =>
      ret (result [Message (Some "🤝 Conectando você com um atendente...");
                   Action "transfer_human"; TransferComplete])
  | Some "generate_boleto" =>
      ret (result [Message (Some (if present (step_success_message step)
                                  then default "" (step_success_message step)
                                  else "Boleto gerado com sucesso!"));
                   Action "boleto_generated"; Continue (present (step_next step))])
  | Some "send_email" =>
      ret (result [Message (Some "E-mail enviado com sucesso!");
                   Continue (present (step_next step))])
  | _ =>                                                  (* logger.error *)
      ret (result [Message (Some "Ação não implementada."); Error])
  end.

Definition handleConditionStep (phone : string) (step : Step) (userState : UserState)
  : M Engine Result :=
  do condition <- evaluateCondition (step_condition step) userState;
  let target := if condition then step_if_true step else step_if_false step in
  if present target then
    do_ moveToNextStep phone userState (default "" target);
    ret (result [Continue true])
  else ret (result [Message (Some "Erro na condição.")]).

(** *** Processing a message *)

(** The [switch (step.type)] of [processStep]. *)
Definition dispatch (phone message : string) (step : Step) (userState : UserState)
  : M Engine Result :=
  match step_type step with
  | "message" => handleMessageStep phone step userState
  | "menu" => handleMenuStep phone message step userState
  | "capture_data" => handleCaptureDataStep phone message step userState
  | "quick_reply" => handleQuickReplyStep phone message step userState
  | "ai_response" => handleAIResponseStep phone message step userState
  | "action" => handleActionStep phone step userState
  | "condition" => handleConditionStep phone step userState
  | _ =>                                                  (* logger.error *)
      ret (result [Message (Some "Erro no fluxo."); Error])
  end.

Definition processStep (phone message : string) (userState : option UserState)
  : M Engine Result :=
  do userState <- required userState "currentFlow";
  do flow <- match Js.get (flows config) (currentFlow userState) with
             | Js.Own flow => ret flow
             | _ => typeError "steps"
             end;
  do step <- required (steps flow !! currentStep userState) "id";
  do now <- Date_now;
  do_ assign phone (push_history
        {| h_stepId := step_id step; h_type := step_type step;
           h_input := message; h_timestamp := now |});
  dispatch phone message step userState.

(** The flow a first message starts. *)
Definition entryFlowId : string :=
  if String.eqb (mode config) "atendimento"
  then atendimento_flowId config else triagem_flowId config.

(** [!userState || !userState.currentFlow] *)
Definition noActiveFlow (stored : option UserState) : bool :=
  match stored with
  | Some st => negb (Js.nonEmpty (currentFlow st))
  | None => true
  end.

(** The body of the [try] of [processMessage]. *)
Definition processMessage_try (phone message : string) : M Engine Result :=
  do stored <- getUserState phone;
  do userState <- (if noActiveFlow stored then initializeUserFlow phone entryFlowId
                   else ret stored);
  processStep phone message userState.

(** The result of the [catch] of [processMessage]. *)
Definition flowError : Result :=
  result [Message (Some "Desculpe, ocorreu um erro. Vou te conectar com um atendente.");
          Action "transfer_human"; Error].

Definition processMessage_M (phone message : string) : M Engine Result :=
  try_catch (processMessage_try phone message) (fun _ => ret flowError).

(** [processMessage(phone, message, userContext)] on the engine [E]: the
    result, and the engine after the call. *)
Definition withCaller (userContext : UserContext) (E : Engine) : Engine :=
  {| userStates := userStates E; callerContext := userContext;
     ticks := ticks E; dbWrites := dbWrites E |}.

Definition processMessage (phone message : string) (userContext : UserContext)
  (E : Engine) : Result * Engine :=
  match processMessage_M phone message (withCaller userContext E) with
  | (Returns r, E') => (r, E')
  | (Throws _, E') => (flowError, E')
  end.

(** *** Reaching a step *)

(** The engine a handler starts from: the caller's context is in place, the
    clock has been read once and the history of [phone] has one more entry. *)
Definition logged (phone message : string) (step : Step) (userContext : UserContext)
  (E : Engine) : Engine :=
  {| userStates :=
       alter (push_history
                {| h_stepId := step_id step; h_type := step_type step;
                   h_input := message; h_timestamp := clock (ticks E) |})
             phone (userStates E);
     callerContext := userContext;
     ticks := S (ticks E);
     dbWrites := dbWrites E |}.

(** [phone] has an active flow and its current step is [step]. *)
Definition atStep (E : Engine) (phone : string) (st : UserState) (step : Step) : Prop :=
  userStates E !! phone = Some st /\
  Js.nonEmpty (currentFlow st) = true /\
  exists flow,
    Js.get (flows config) (currentFlow st) = Js.Own flow /\
    steps flow !! currentStep st = Some step.

(** The outcome of [processMessage], read off the outcome of its body. *)
Definition settle (o : Outcome Result * Engine) : Result * Engine :=
  match o with
  | (Returns r, E') => (r, E')
  | (Throws _, E') => (flowError, E')
  end.

Lemma processMessage_atStep E phone message userContext st step :
  atStep E phone st step ->
  processMessage phone message userContext E
  = settle (dispatch phone message step st (logged phone message step userContext E)).
Proof.
  intros (Hst & Hflow & flow & Hget & Hstep).
  unfold processMessage, processMessage_M, try_catch, processMessage_try, bind,
    getUserState, withCaller. cbn [userStates].
  rewrite Hst. unfold noActiveFlow. rewrite Hflow. cbn [negb ret].
  unfold processStep, bind, required, ret. rewrite Hget. cbn [currentStep].
  rewrite Hstep. unfold Date_now, assign, withUserStates, logged, settle.
  cbn [userStates callerContext ticks dbWrites].
  destruct (dispatch _ _ _ _ _) as [[r|e] E']; reflexivity.
Qed.

Lemma logged_lookup E phone message userContext st step :
  userStates E !! phone = Some st ->
  userStates (logged phone message step userContext E) !! phone
  = Some (push_history
            {| h_stepId := step_id step; h_type := step_type step;
               h_input := message; h_timestamp := clock (ticks E) |} st).
Proof.
  intros H. unfold logged. cbn [userStates]. rewrite lookup_alter_eq, H. reflexivity.
Qed.

Lemma retryCount_push_history h st : retryCount (push_history h st) = retryCount st.
Proof. destruct st; reflexivity. Qed.

Lemma waitingInput_push_history h st : waitingInput (push_history h st) = waitingInput st.
Proof. destruct st; reflexivity. Qed.

Lemma retryCount_set_retryCount n st : retryCount (set_retryCount n st) = n.
Proof. destruct st; reflexivity. Qed.

Lemma waitingInput_set_retryCount n st : waitingInput (set_retryCount n st) = waitingInput st.
Proof. destruct st; reflexivity. Qed.

(** The state [initializeUserFlow] creates, and the engine it leaves. *)
Definition freshState (phone : string) (userContext : UserContext) (E : Engine)
  (first : Step) : UserState :=
  {| phone := phone; currentFlow := entryFlowId; currentStep := 0%nat;
     stepId := step_id first; data := []; context := userContext;
     retryCount := 0; history := []; startedAt := clock (ticks E);
     waitingInput := false; expectedInput := None; menuOptions := None;
     validationType := None; quickReplyOptions := None; previousFlow := None |}.

Definition started (phone : string) (userContext : UserContext) (E : Engine)
  (first : Step) : Engine :=
  {| userStates := <[phone := freshState phone userContext E first]> (userStates E);
     callerContext := userContext;
     ticks := S (ticks E);
     dbWrites := dbWrites E |}.

(** A message of [phone] is handled at [step], with [st] the state of the
    user and [E1] the engine when the step is looked up: either the user is
    inside a flow, or the message starts the entry flow at its first step. *)
Inductive Reaches (E : Engine) (phone : string) (userContext : UserContext)
  : UserState -> Step -> Engine -> Prop :=
| reach_stored st step :
    atStep E phone st step ->
    Reaches E phone userContext st step E
| reach_fresh flow first :
    noActiveFlow (userStates E !! phone) = true ->
    Js.get (flows config) entryFlowId = Js.Own flow ->
    head (steps flow) = Some first ->
    Reaches E phone userContext (freshState phone userContext E first) first
      (started phone userContext E first).

Lemma processMessage_fresh E phone message userContext flow first :
  noActiveFlow (userStates E !! phone) = true ->
  Js.get (flows config) entryFlowId = Js.Own flow ->
  head (steps flow) = Some first ->
  processMessage phone message userContext E
  = settle (dispatch phone message first (freshState phone userContext E first)
              (logged phone message first userContext
                 (started phone userContext E first))).
Proof.
  intros Hno Hget Hfirst.
  unfold processMessage, processMessage_M, try_catch, processMessage_try, bind,
    getUserState, withCaller. cbn [userStates].
  rewrite Hno. unfold initializeUserFlow. rewrite Hget.
  unfold bind, required. rewrite Hfirst.
  unfold ret, getCallerContext, Date_now, withUserStates.
  cbn [userStates callerContext ticks dbWrites].
  unfold processStep, bind, required, ret. cbn [currentFlow]. rewrite Hget.
  cbn [currentStep].
  assert (Hidx : steps flow !! 0%nat = Some first).
  { destruct (steps flow); [discriminate | exact Hfirst]. }
  rewrite Hidx. unfold Date_now, assign, withUserStates, logged, started, settle, freshState.
  cbn [userStates callerContext ticks dbWrites].
  destruct (dispatch _ _ _ _ _) as [[r|e] E']; reflexivity.
Qed.

Lemma processMessage_reaches E phone message userContext st step E1 :
  Reaches E phone userContext st step E1 ->
  processMessage phone message userContext E
  = settle (dispatch phone message step st (logged phone message step userContext E1)).
Proof.
  intros [st' step' Hat | flow first Hno Hget Hfirst].
  - apply processMessage_atStep; exact Hat.
  - eapply processMessage_fresh; eassumption.
Qed.

Lemma reaches_lookup E phone userContext st step E1 :
  Reaches E phone userContext st step E1 -> userStates E1 !! phone = Some st.
Proof.
  intros [st' step' (H & _) | flow first _ _ _].
  - exact H.
  - unfold started. cbn [userStates]. apply lookup_insert_eq.
Qed.

(** *** Unknown step types and action names *)

Definition knownStepTypes : list string :=
  [ "message"; "menu"; "capture_data"; "quick_reply"; "ai_response"; "action";
    "condition" ].

Definition knownActions : list string :=
  [ "transfer_department"; "transfer_human"; "generate_boleto"; "send_email" ].

(** [step] has a type outside the seven variants, or is an action step whose
    action name (if it has one) is outside the known set. *)
Definition unknownVariant (step : Step) : Prop :=
  ~ In (step_type step) knownStepTypes \/
  (step_type step = "action" /\
   forall a, step_action step = Some a -> ~ In a knownActions).

(** The [switch] statements on a string, as chains of comparisons. *)
Ltac string_cases :=
  repeat match goal with
         | |- context [match ?s with EmptyString => _ | String _ _ => _ end] =>
             destruct s; try reflexivity
         | |- context [match ?c with Ascii _ _ _ _ _ _ _ _ => _ end] => destruct c
         | |- context [if ?b then _ else _] => destruct b; try reflexivity
         end.

Lemma step_type_switch {A} (type : string) (x1 x2 x3 x4 x5 x6 x7 d : A) :
  match type with
  | "message" => x1
  | "menu" => x2
  | "capture_data" => x3
  | "quick_reply" => x4
  | "ai_response" => x5
  | "action" => x6
  | "condition" => x7
  | _ => d
  end
  = if String.eqb type "message" then x1
    else if String.eqb type "menu" then x2
    else if String.eqb type "capture_data" then x3
    else if String.eqb type "quick_reply" then x4
    else if String.eqb type "ai_response" then x5
    else if String.eqb type "action" then x6
    else if String.eqb type "condition" then x7
    else d.
Proof. string_cases. Qed.

Lemma step_action_switch {A} (action : option string) (x1 x2 x3 x4 d : A) :
  match action with
  | Some "transfer_department" => x1
  | Some "transfer_human" => x2
  | Some "generate_boleto" => x3
  | Some "send_email" => x4
  | _ => d
  end
  = match action with
    | Some a => if String.eqb a "transfer_department" then x1
                else if String.eqb a "transfer_human" then x2
                else if String.eqb a "generate_boleto" then x3
                else if String.eqb a "send_email" then x4
                else d
    | None => d
    end.
Proof. destruct action as [a|]; [|reflexivity]. string_cases. Qed.

Lemma dispatch_unknown_type phone message step st E :
  ~ In (step_type step) knownStepTypes ->
  dispatch phone message step st E
  = (Returns (result [Message (Some "Erro no fluxo."); Error]), E).
Proof.
  intros Hun. unfold dispatch. rewrite step_type_switch.
  repeat match goal with
         | |- context [String.eqb ?a ?b] =>
             destruct (String.eqb_spec a b) as [Heq|_];
             [exfalso; apply Hun; rewrite Heq; unfold knownStepTypes; simpl; tauto|]
         end.
  reflexivity.
Qed.

Lemma handleActionStep_unknown phone step st E :
  (forall a, step_action step = Some a -> ~ In a knownActions) ->
  handleActionStep phone step st E
  = (Returns (result [Message (Some "Ação não implementada."); Error]), E).
Proof.
  intros Hun. unfold handleActionStep. rewrite step_action_switch.
  destruct (step_action step) as [a|] eqn:Ha; [|reflexivity].
  specialize (Hun a eq_refl).
  repeat match goal with
         | |- context [String.eqb ?a ?b] =>
             destruct (String.eqb_spec a b) as [Heq|_];
             [exfalso; apply Hun; rewrite Heq; unfold knownActions; simpl; tauto|]
         end.
  reflexivity.
Qed.

(** C2 (as amended). A message handled at a step whose type is none of the
    seven variants, or at an action step whose action name is none of the
    four known ones, makes [processMessage] return a bare error: the error
    flag is set, the message is the fixed text of the [default] branch, and
    the result carries no action. Nothing is thrown, so the apology of the
    [catch] is not used, and the state of the user stays in the map. *)
Theorem unknown_variant_bare_error E phone message userContext st step E1 :
  Reaches E phone userContext st step E1 ->
  unknownVariant step ->
  let out := processMessage phone message userContext E in
  (fst out = result [Message (Some "Erro no fluxo."); Error] \/
   fst out = result [Message (Some "Ação não implementada."); Error]) /\
  r_error (fst out) = true /\
  r_action (fst out) = None /\
  snd out = logged phone message step userContext E1.
Proof.
  intros Hreach Hun. cbv zeta.
  rewrite (processMessage_reaches _ _ _ _ _ _ _ Hreach).
  destruct Hun as [Htype | [Htype Hact]].
  - rewrite dispatch_unknown_type by exact Htype. cbn [settle fst snd].
    repeat split; auto.
  - unfold dispatch. rewrite Htype.
    rewrite handleActionStep_unknown by exact Hact. cbn [settle fst snd].
    repeat split; auto.
Qed.

(** *** The retry limit *)

(** The reply [message] is rejected by the validated step [step]: no option
    of a menu has the trimmed reply as its id, or the validator of a capture
    step hands back a value whose [valid] is not true. *)
Definition rejected (step : Step) (message : string) : Prop :=
  (step_type step = "menu" /\
   exists options,
     step_options step = Some options /\
     find (fun opt => String.eqb (opt_id opt) (Js.trim message)) options = None) \/
  (step_type step = "capture_data" /\
   exists v,
     validateInput parseFloat message (step_validation step) = ret v /\
     valid v = false).

(** The bound the retry counter is compared with: [step.max_retries || 3] on
    a menu, the constant 3 on a capture step. *)
Definition retryLimit (step : Step) : Z :=
  if String.eqb (step_type step) "menu" then maxRetries step else 3.

Lemma handleMaxRetriesExceeded_eq phone E :
  handleMaxRetriesExceeded phone E
  = if transfer_after_limit config
    then (Returns (result [Message (transfer_message config);
                           Action "transfer_human"; TransferComplete]), E)
    else (Returns (result [Message (Some "Vamos recomeçar do início."); Restart]),
          {| userStates := delete phone (userStates E);
             callerContext := callerContext E; ticks := ticks E;
             dbWrites := dbWrites E |}).
Proof.
  unfold handleMaxRetriesExceeded. destruct (transfer_after_limit config); reflexivity.
Qed.

Lemma dispatch_rejected_at_limit phone message step st E :
  waitingInput st = true ->
  rejected step message ->
  retryLimit step <= retryCount st + 1 ->
  dispatch phone message step st E
  = handleMaxRetriesExceeded phone
      {| userStates := alter (fun s => set_retryCount (retryCount s + 1) s) phone
                         (userStates E);
         callerContext := callerContext E; ticks := ticks E;
         dbWrites := dbWrites E |}.
Proof.
  intros Hwait Hrej Hlim. unfold dispatch, retryLimit in *.
  destruct Hrej as [[Htype (options & Hopts & Hfind)] | [Htype (v & Hv & Hinvalid)]];
    rewrite Htype in *; cbn [String.eqb Ascii.eqb Bool.eqb] in Hlim.
  - unfold handleMenuStep. rewrite Hwait. cbn [negb].
    unfold bind, required, ret. rewrite Hopts, Hfind.
    unfold assign, withUserStates.
    apply Z.geb_le in Hlim. rewrite Hlim. reflexivity.
  - unfold handleCaptureDataStep. rewrite Hwait. cbn [negb].
    rewrite Hv. unfold bind at 1. unfold ret at 1.
    apply Z.geb_le in Hlim.
    destruct v as [value | error |]; [discriminate Hinvalid | |];
      unfold bind, assign, withUserStates; rewrite Hlim; reflexivity.
Qed.

(** C1 (as amended). On a menu or capture step that waits for input, a
    rejected reply that brings the retry counter to the limit (on a menu
    [max_retries], 3 when absent or zero; on a capture step always 3) makes
    [processMessage] do one of two things, by [fallback.transfer_after_limit].
    When it is set the result carries the transfer-to-human action and the
    state of the user stays in the map, still waiting for input, with the
    counter incremented. When it is not set the result is a restart without
    any action, and the state of the user is removed from the map. *)
Theorem max_retries_transfer_or_restart E phone message userContext st step :
  atStep E phone st step ->
  waitingInput st = true ->
  rejected step message ->
  retryLimit step <= retryCount st + 1 ->
  let out := processMessage phone message userContext E in
  if transfer_after_limit config then
    fst out = result [Message (transfer_message config); Action "transfer_human";
                      TransferComplete] /\
    exists st',
      userStates (snd out) !! phone = Some st' /\
      retryCount st' = retryCount st + 1 /\
      waitingInput st' = true
  else
    fst out = result [Message (Some "Vamos recomeçar do início."); Restart] /\
    r_action (fst out) = None /\
    userStates (snd out) !! phone = None.
Proof.
  intros Hat Hwait Hrej Hlim. cbv zeta.
  rewrite (processMessage_atStep _ _ _ _ _ _ Hat).
  rewrite (dispatch_rejected_at_limit _ _ _ _ _ Hwait Hrej Hlim).
  rewrite handleMaxRetriesExceeded_eq.
  destruct Hat as (Hst & _).
  destruct (transfer_after_limit config); cbn [settle fst snd userStates].
  - split; [reflexivity|].
    eexists. split.
    + rewrite lookup_alter_eq.
      rewrite (logged_lookup _ _ _ _ _ _ Hst). reflexivity.
    + rewrite retryCount_set_retryCount, waitingInput_set_retryCount,
        retryCount_push_history, waitingInput_push_history. auto.
  - split; [reflexivity|]. split; [reflexivity|]. apply lookup_delete_eq.
Qed.

(** *** Quick replies *)

(** The reply as [handleQuickReplyStep] compares it: lower-cased, then
    trimmed. *)
Definition normalizedReply (message : string) : string :=
  Js.trim (Js.toLowerCase message).

(** Some option has the normalized reply as its lower-cased id, or contains
    it in its lower-cased label. *)
Definition matchesOption (options : list MenuOption) (message : string) : Prop :=
  exists opt,
    In opt options /\
    (Js.toLowerCase (opt_id opt) = normalizedReply message \/
     Js.includes (Js.toLowerCase (opt_label opt)) (normalizedReply message) = true).

Lemma quickReplyMatch_spec sanitized opt :
  quickReplyMatch sanitized opt = true <->
  Js.toLowerCase (opt_id opt) = sanitized \/
  Js.includes (Js.toLowerCase (opt_label opt)) sanitized = true.
Proof.
  unfold quickReplyMatch. rewrite orb_true_iff, String.eqb_eq. reflexivity.
Qed.

Lemma find_quickReply_Some options message :
  matchesOption options message <->
  exists opt, find (quickReplyMatch (normalizedReply message)) options = Some opt.
Proof.
  split.
  - intros (opt & Hin & Hm).
    destruct (find _ options) as [o|] eqn:Hfind; [eauto|].
    apply (find_none _ _ Hfind) in Hin.
    apply quickReplyMatch_spec in Hm. congruence.
  - intros (opt & Hfind). apply find_some in Hfind as [Hin Hm].
    exists opt. split; [exact Hin | apply quickReplyMatch_spec; exact Hm].
Qed.

Lemma moveToNextStep_returns phone st flow next E :
  Js.get (flows config) (currentFlow st) = Js.Own flow ->
  exists b E', moveToNextStep phone st next E = (Returns b, E').
Proof.
  intros Hget. unfold moveToNextStep. rewrite Hget. unfold bind, ret.
  destruct (findIndex next (steps flow) 0); [|eauto].
  unfold assign, updateUserState, withUserStates. eauto.
Qed.

(** The re-prompt of a quick reply step. *)
Definition quickReplyPrompt : Result :=
  result [Message (Some "❌ Resposta inválida. Escolha uma das opções acima.");
          WaitingInput].

(** C7 (as amended). On a quick reply step that waits for input, the reply
    is accepted exactly when, lower-cased and then trimmed of surrounding
    white space, it is the lower-cased id of an option or occurs in the
    lower-cased label of an option. A reply that matches no option gets the
    re-prompt, which carries neither an action nor a restart, and the state
    of the user is left as it was but for the history entry: the retry
    counter is unchanged and the step still waits for input. *)
Theorem quick_reply_acceptance E phone message userContext st step options :
  atStep E phone st step ->
  step_type step = "quick_reply" ->
  waitingInput st = true ->
  step_options step = Some options ->
  let out := processMessage phone message userContext E in
  (r_waitingInput (fst out) = false <-> matchesOption options message) /\
  (~ matchesOption options message ->
   fst out = quickReplyPrompt /\
   r_action (fst out) = None /\ r_restart (fst out) = false /\
   exists st',
     userStates (snd out) !! phone = Some st' /\
     retryCount st' = retryCount st /\ waitingInput st' = true).
Proof.
  intros Hat Htype Hwait Hopts. cbv zeta.
  rewrite (processMessage_atStep _ _ _ _ _ _ Hat).
  destruct Hat as (Hst & Hflow & flow & Hget & Hstep).
  unfold dispatch. rewrite Htype.
  unfold handleQuickReplyStep. rewrite Hwait. cbn [negb].
  unfold required. rewrite Hopts, bind_ret.
  rewrite find_quickReply_Some. fold (normalizedReply message).
  destruct (find (quickReplyMatch (normalizedReply message)) options) as [opt|] eqn:Hfind.
  - split; [|intros Hno; exfalso; apply Hno; eauto].
    split; [eauto|intros _].
    unfold bind at 1. unfold assign, withUserStates.
    destruct (present (opt_next opt)); [|reflexivity].
    destruct (String.eqb _ "main_flow"); [reflexivity|].
    unfold bind.
    destruct (moveToNextStep_returns phone st flow (default "" (opt_next opt))
                {| userStates :=
                     alter (fun st0 => set_data "quickReply" (VString (opt_id opt))
                                         (set_waitingInput false st0)) phone
                       (userStates (logged phone message step userContext E));
                   callerContext := callerContext (logged phone message step userContext E);
                   ticks := ticks (logged phone message step userContext E);
                   dbWrites := dbWrites (logged phone message step userContext E) |}
                Hget) as (b & E' & Hmove).
    rewrite Hmove. reflexivity.
  - split.
    + split; [discriminate|]. intros (opt & Hopt). discriminate.
    + intros _. cbn [settle fst snd ret]. repeat split.
      eexists. split; [apply (logged_lookup _ _ _ _ _ _ Hst)|].
      rewrite retryCount_push_history, waitingInput_push_history. auto.
Qed.

(** *** Validator names *)

(** The eight names [setupValidators] defines. *)
Definition validatorNames : list string :=
  [ "text"; "email"; "phone"; "cpf"; "cnpj"; "cpf_cnpj"; "number"; "option" ].

Lemma own_setupValidators_None name :
  ~ In name validatorNames -> Js.own (setupValidators parseFloat) name = None.
Proof.
  intros Hnot. unfold setupValidators. cbn [Js.own].
  repeat match goal with
         | |- context [String.eqb name ?k] =>
             destruct (String.eqb_spec name k) as [->|_];
             [exfalso; apply Hnot; unfold validatorNames; simpl; tauto|]
         end.
  reflexivity.
Qed.

(** X30 (unknown validator names): a name that is neither a validator nor
    a member of [Object.prototype] makes [validateInput] accept the raw
    value. *)
Lemma validateInput_unresolved_name value name :
  ~ In name validatorNames ->
  Js.inherited name = false ->
  validateInput parseFloat value (Some name) = ret (Accept (VString value)).
Proof.
  intros Hnot Hinh. unfold validateInput, Js.get. cbn [default from_option id].
  rewrite (own_setupValidators_None _ Hnot), Hinh. reflexivity.
Qed.

Lemma validateInput_no_name value :
  validateInput parseFloat value None = ret (Accept (VString value)).
Proof. reflexivity. Qed.

(** C9, at the inputs where the code departs from it. [toString] is not one
    of the eight validators, yet [this.validators["toString"]] is the
    function every object inherits; [validateInput] calls it and returns
    what it returns, a value without a [valid] property, for any input. *)
Theorem validateInput_inherited_name value :
  ~ In "toString" validatorNames /\
  validateInput parseFloat value (Some "toString") = ret Other /\
  valid Other = false.
Proof.
  split; [|split; reflexivity].
  unfold validatorNames. simpl. intros H.
  repeat destruct H as [H|H]; try discriminate H. exact H.
Qed.

(** A name [Object.prototype] defines is never accepted like an unknown
    name: its member is called, and either hands back a value that is no
    validation result or throws. *)
Lemma validateInput_inherited value name E :
  ~ In name validatorNames ->
  Js.inherited name = true ->
  fst (validateInput parseFloat value (Some name) E) = Returns Other \/
  exists e, fst (validateInput parseFloat value (Some name) E) = Throws e.
Proof.
  intros Hnot Hinh. unfold validateInput, Js.get. cbn [default from_option id].
  rewrite (own_setupValidators_None _ Hnot), Hinh. unfold callInherited.
  destruct (existsb _ _); [left; reflexivity | right; eexists; reflexivity].
Qed.

(** *** What a call leaves alone *)

Lemma menu_action_cases {A} (a : option string) (x1 x2 x3 d : A) :
  match a with
  | Some "goto" => x1
  | Some "transfer_human" => x2
  | Some "transfer_department" => x3
  | _ => d
  end
  = match a with
    | Some s => if String.eqb s "goto" then x1
                else if String.eqb s "transfer_human" then x2
                else if String.eqb s "transfer_department" then x3
                else d
    | None => d
    end.
Proof. destruct a as [s|]; [|reflexivity]. string_cases. Qed.

Lemma operator_cases {A} (op : option string) (x1 x2 x3 d : A) :
  match op with
  | Some "exists" => x1
  | Some "equals" => x2
  | Some "contains" => x3
  | _ => d
  end
  = match op with
    | Some s => if String.eqb s "exists" then x1
                else if String.eqb s "equals" then x2
                else if String.eqb s "contains" then x3
                else d
    | None => d
    end.
Proof. destruct op as [s|]; [|reflexivity]. string_cases. Qed.

(** The step type is one of the seven variants, or none of them. *)
Lemma step_type_cases (type : string) :
  In type knownStepTypes \/ ~ In type knownStepTypes.
Proof.
  destruct (in_dec string_dec type knownStepTypes); [left | right]; assumption.
Qed.

(** The computation leaves the states of all users as they are. *)
Definition Frame {A} (m : M Engine A) : Prop :=
  forall E, userStates (snd (m E)) = userStates E.


Lemma frame_ret {A} (a : A) : Frame (ret a).
Proof. intros E. reflexivity. Qed.

Lemma frame_throw {A} e : Frame (@throw Engine A e).
Proof. intros E. reflexivity. Qed.

Lemma frame_typeError {A} what : Frame (@typeError Engine A what).
Proof. intros E. reflexivity. Qed.

Lemma frame_required {A} (o : option A) what : Frame (required o what).
Proof. destruct o; intros E; reflexivity. Qed.

Lemma frame_getCallerContext : Frame getCallerContext.
Proof. intros E. reflexivity. Qed.

Lemma frame_setCallerContext c : Frame (setCallerContext c).
Proof. intros E. reflexivity. Qed.

Lemma frame_dbWrite w : Frame (dbWrite w).
Proof. intros E. reflexivity. Qed.

Lemma frame_Date_now : Frame Date_now.
Proof. intros E. reflexivity. Qed.

Lemma frame_bind {A B} (m : M Engine A) (k : A -> M Engine B) :
  Frame m -> (forall a, Frame (k a)) -> Frame (bind m k).
Proof.
  intros Hm Hk E. unfold bind. specialize (Hm E).
  destruct (m E) as [[a|e] E']; cbn [snd] in *; [|exact Hm].
  rewrite (Hk a E'). exact Hm.
Qed.

Ltac frame :=
  repeat first
    [ apply frame_ret | apply frame_throw | apply frame_typeError
    | apply frame_required | apply frame_getCallerContext
    | apply frame_setCallerContext | apply frame_dbWrite | apply frame_Date_now
    | assumption
    | apply frame_bind; [|intros ?]
    | match goal with
      | |- Frame (if ?b then _ else _) => destruct b
      | |- Frame (match ?x with _ => _ end) => destruct x
      | |- Frame (let _ := _ in _) => cbv zeta
      end ].

Lemma frame_replaceVariables text st : Frame (replaceVariables text st).
Proof. unfold replaceVariables. frame. Qed.

Lemma frame_validateInput value validationType :
  Frame (validateInput parseFloat value validationType).
Proof. unfold validateInput, callInherited. frame. Qed.

Lemma frame_evaluateCondition condition st : Frame (evaluateCondition condition st).
Proof.
  unfold evaluateCondition. apply frame_bind; [frame|]. intros ctx.
  destruct condition; [|frame]. cbv zeta. rewrite operator_cases. frame.
Qed.

Lemma frame_handleActionStep phone step st : Frame (handleActionStep phone step st).
Proof.
  pose proof frame_replaceVariables as Hr.
  destruct (step_action step) as [a|] eqn:Ha.
  - destruct (in_dec string_dec a knownActions) as [Hin|Hout].
    + unfold handleActionStep. rewrite Ha.
      cbn [In knownActions] in Hin.
      destruct Hin as [<-|[<-|[<-|[<-|[]]]]]; frame; apply Hr.
    + intros E. rewrite handleActionStep_unknown; [reflexivity|].
      intros a' Ha'. congruence.
  - intros E. rewrite handleActionStep_unknown; [reflexivity|].
    intros a' Ha'. congruence.
Qed.

(** *** One conversation never touches another *)

(** The computation changes the state of no user but [phone]. *)
Definition OnlyAt (phone : string) {A} (m : M Engine A) : Prop :=
  forall E p, p <> phone -> userStates (snd (m E)) !! p = userStates E !! p.

Lemma onlyAt_frame phone {A} (m : M Engine A) : Frame m -> OnlyAt phone m.
Proof. intros Hm E p _. rewrite (Hm E). reflexivity. Qed.

Lemma onlyAt_ret phone {A} (a : A) : OnlyAt phone (ret a).
Proof. intros E p _. reflexivity. Qed.

Lemma onlyAt_throw phone {A} e : OnlyAt phone (@throw Engine A e).
Proof. intros E p _. reflexivity. Qed.

Lemma onlyAt_typeError phone {A} what : OnlyAt phone (@typeError Engine A what).
Proof. intros E p _. reflexivity. Qed.

Lemma onlyAt_required phone {A} (o : option A) what : OnlyAt phone (required o what).
Proof. destruct o; intros E p _; reflexivity. Qed.

Lemma onlyAt_bind phone {A B} (m : M Engine A) (k : A -> M Engine B) :
  OnlyAt phone m -> (forall a, OnlyAt phone (k a)) -> OnlyAt phone (bind m k).
Proof.
  intros Hm Hk E p Hp. unfold bind. specialize (Hm E p Hp).
  destruct (m E) as [[a|e] E']; cbn [snd] in *; [|exact Hm].
  rewrite (Hk a E' p Hp). exact Hm.
Qed.

Lemma onlyAt_try_catch phone {A} (m : M Engine A) (h : string -> M Engine A) :
  OnlyAt phone m -> (forall e, OnlyAt phone (h e)) -> OnlyAt phone (try_catch m h).
Proof.
  intros Hm Hh E p Hp. unfold try_catch. specialize (Hm E p Hp).
  destruct (m E) as [[a|e] E']; cbn [snd] in *; [exact Hm|].
  rewrite (Hh e E' p Hp). exact Hm.
Qed.

Lemma onlyAt_withUserStates phone f :
  (forall m p, p <> phone -> f m !! p = m !! p) -> OnlyAt phone (withUserStates f).
Proof. intros Hf E p Hp. apply Hf. exact Hp. Qed.

Lemma onlyAt_assign phone f : OnlyAt phone (assign phone f).
Proof.
  apply onlyAt_withUserStates. intros m p Hp. apply lookup_alter_ne. congruence.
Qed.

Lemma onlyAt_updateUserState phone : OnlyAt phone (updateUserState phone).
Proof.
  apply onlyAt_withUserStates. intros m p Hp.
  destruct (m !! phone); [apply lookup_insert_ne; congruence | reflexivity].
Qed.

Lemma onlyAt_resetUserFlow phone : OnlyAt phone (resetUserFlow phone).
Proof.
  apply onlyAt_withUserStates. intros m p Hp. apply lookup_delete_ne. congruence.
Qed.

Lemma onlyAt_insert phone st : OnlyAt phone (withUserStates (insert phone st)).
Proof.
  apply onlyAt_withUserStates. intros m p Hp. apply lookup_insert_ne. congruence.
Qed.

Lemma onlyAt_getCallerContext phone : OnlyAt phone getCallerContext.
Proof. intros E p _. reflexivity. Qed.

Lemma onlyAt_setCallerContext phone c : OnlyAt phone (setCallerContext c).
Proof. intros E p _. reflexivity. Qed.

Lemma onlyAt_dbWrite phone w : OnlyAt phone (dbWrite w).
Proof. intros E p _. reflexivity. Qed.

Lemma onlyAt_Date_now phone : OnlyAt phone Date_now.
Proof. intros E p _. reflexivity. Qed.

Lemma onlyAt_getUserState phone q : OnlyAt phone (getUserState q).
Proof. intros E p _. reflexivity. Qed.

(** The structural steps of a proof of [OnlyAt]. *)
Ltac only_at :=
  repeat first
    [ apply onlyAt_ret | apply onlyAt_throw | apply onlyAt_typeError
    | apply onlyAt_required | apply onlyAt_assign | apply onlyAt_updateUserState
    | apply onlyAt_resetUserFlow | apply onlyAt_insert
    | apply onlyAt_getCallerContext | apply onlyAt_setCallerContext
    | apply onlyAt_dbWrite | apply onlyAt_Date_now | apply onlyAt_getUserState
    | assumption
    | apply onlyAt_bind; [|intros ?]
    | apply onlyAt_try_catch; [|intros ?]
    | match goal with
      | |- OnlyAt _ (if ?b then _ else _) => destruct b
      | |- OnlyAt _ (match ?x with _ => _ end) => destruct x
      | |- OnlyAt _ (let _ := _ in _) => cbv zeta
      end ].

Lemma onlyAt_initializeUserFlow phone flowId : OnlyAt phone (initializeUserFlow phone flowId).
Proof. unfold initializeUserFlow. only_at. Qed.

Lemma onlyAt_moveToNextStep phone st next : OnlyAt phone (moveToNextStep phone st next).
Proof. unfold moveToNextStep. only_at. Qed.

Lemma onlyAt_gotoFlow phone flowId : OnlyAt phone (gotoFlow phone flowId).
Proof.
  pose proof (onlyAt_initializeUserFlow phone) as Hinit.
  unfold gotoFlow. destruct (Js.get _ _); only_at; apply Hinit.
Qed.

Lemma onlyAt_replaceVariables phone text st : OnlyAt phone (replaceVariables text st).
Proof. apply onlyAt_frame, frame_replaceVariables. Qed.

Lemma onlyAt_evaluateCondition phone condition st :
  OnlyAt phone (evaluateCondition condition st).
Proof. apply onlyAt_frame, frame_evaluateCondition. Qed.

Lemma onlyAt_handleMaxRetriesExceeded phone : OnlyAt phone (handleMaxRetriesExceeded phone).
Proof. unfold handleMaxRetriesExceeded. only_at. Qed.

Lemma onlyAt_validateInput phone value validationType :
  OnlyAt phone (validateInput parseFloat value validationType).
Proof. apply onlyAt_frame, frame_validateInput. Qed.

Lemma onlyAt_handleMessageStep phone step st : OnlyAt phone (handleMessageStep phone step st).
Proof.
  pose proof (onlyAt_replaceVariables phone) as Hr.
  pose proof (onlyAt_moveToNextStep phone) as Hm.
  unfold handleMessageStep. only_at; first [apply Hr | apply Hm].
Qed.

Lemma onlyAt_handleMenuStep phone message step st :
  OnlyAt phone (handleMenuStep phone message step st).
Proof.
  pose proof (onlyAt_replaceVariables phone) as Hr.
  pose proof (onlyAt_gotoFlow phone) as Hg.
  pose proof (onlyAt_handleMaxRetriesExceeded phone) as Hx.
  unfold handleMenuStep, buildMenuMessage.
  destruct (negb (waitingInput st)).
  - only_at; apply Hr.
  - cbv zeta. apply onlyAt_bind; [only_at|]. intros options.
    destruct (find _ options) as [option|].
    + do 3 (apply onlyAt_bind; [only_at|]; intros ?).
      rewrite menu_action_cases. only_at; apply Hg.
    + only_at; apply Hx.
Qed.

Lemma onlyAt_handleCaptureDataStep phone message step st :
  OnlyAt phone (handleCaptureDataStep phone message step st).
Proof.
  pose proof (onlyAt_replaceVariables phone) as Hr.
  pose proof (onlyAt_moveToNextStep phone) as Hm.
  pose proof (onlyAt_handleMaxRetriesExceeded phone) as Hx.
  pose proof (onlyAt_validateInput phone) as Hv.
  unfold handleCaptureDataStep.
  destruct (negb (waitingInput st)).
  - only_at; apply Hr.
  - apply onlyAt_bind; [apply Hv|]. intros validation.
    destruct validation; only_at; first [apply Hm | apply Hx].
Qed.

Lemma onlyAt_handleQuickReplyStep phone message step st :
  OnlyAt phone (handleQuickReplyStep phone message step st).
Proof.
  pose proof (onlyAt_replaceVariables phone) as Hr.
  pose proof (onlyAt_moveToNextStep phone) as Hm.
  unfold handleQuickReplyStep.
  destruct (negb (waitingInput st)); only_at; first [apply Hr | apply Hm].
Qed.

Lemma onlyAt_handleAIResponseStep phone message step st :
  OnlyAt phone (handleAIResponseStep phone message step st).
Proof.
  pose proof (onlyAt_moveToNextStep phone) as Hm.
  unfold handleAIResponseStep.
  destruct (negb (ai_enabled config)); only_at; apply Hm.
Qed.

Lemma onlyAt_handleActionStep phone step st : OnlyAt phone (handleActionStep phone step st).
Proof. apply onlyAt_frame, frame_handleActionStep. Qed.

Lemma onlyAt_handleConditionStep phone step st :
  OnlyAt phone (handleConditionStep phone step st).
Proof.
  pose proof (onlyAt_moveToNextStep phone) as Hm.
  pose proof (onlyAt_evaluateCondition phone) as He.
  unfold handleConditionStep.
  apply onlyAt_bind; [apply He|]. intros condition. cbv zeta.
  only_at; apply Hm.
Qed.

Lemma onlyAt_dispatch phone message step st : OnlyAt phone (dispatch phone message step st).
Proof.
  destruct (step_type_cases (step_type step)) as [Hin|Hout].
  - unfold dispatch. cbn [In knownStepTypes] in Hin.
    destruct Hin as [<-|[<-|[<-|[<-|[<-|[<-|[<-|[]]]]]]]].
    + apply onlyAt_handleMessageStep.
    + apply onlyAt_handleMenuStep.
    + apply onlyAt_handleCaptureDataStep.
    + apply onlyAt_handleQuickReplyStep.
    + apply onlyAt_handleAIResponseStep.
    + apply onlyAt_handleActionStep.
    + apply onlyAt_handleConditionStep.
  - intros E p Hp. rewrite dispatch_unknown_type by exact Hout. reflexivity.
Qed.

Lemma onlyAt_processMessage_M phone message : OnlyAt phone (processMessage_M phone message).
Proof.
  pose proof (onlyAt_initializeUserFlow phone) as Hi.
  pose proof (onlyAt_dispatch phone message) as Hd.
  unfold processMessage_M, processMessage_try, processStep.
  only_at; first [apply Hi | apply Hd].
Qed.

(** X1 (isolation of the identities): a call of [processMessage] for
    [phone] leaves the flow state of every other phone number as it was,
    whatever the message, the configuration and the outcome. *)
Theorem processMessage_isolated phone message userContext E other :
  other <> phone ->
  userStates (snd (processMessage phone message userContext E)) !! other
  = userStates E !! other.
Proof.
  intros Hother. unfold processMessage.
  pose proof (onlyAt_processMessage_M phone message (withCaller userContext E) other Hother)
    as H.
  destruct (processMessage_M _ _ _) as [[r|e] E']; exact H.
Qed.

(** *** The position of a user is always a step of its flow *)

(** The state points at an existing step of a configured flow, and its
    [stepId] is the id of that step. *)
Definition placed (st : UserState) : Prop :=
  exists flow step,
    Js.get (flows config) (currentFlow st) = Js.Own flow /\
    steps flow !! currentStep st = Some step /\
    step_id step = stepId st.

Definition wellPlaced (E : Engine) : Prop :=
  forall p st, userStates E !! p = Some st -> placed st.

(** Inside a handler: every state is placed, and the object of [phone] is
    still in the flow [cf] the handler was entered with. *)
Definition Good (phone cf : string) (E : Engine) : Prop :=
  wellPlaced E /\ forall st, userStates E !! phone = Some st -> currentFlow st = cf.

Definition Stable (phone cf : string) {A} (m : M Engine A) : Prop :=
  forall E, Good phone cf E -> Good phone cf (snd (m E)).

Definition Keeps (phone cf : string) {A} (m : M Engine A) : Prop :=
  forall E, Good phone cf E -> wellPlaced (snd (m E)).

Lemma findIndex_spec id l i n :
  findIndex id l i = Some n ->
  exists s, l !! (n - i)%nat = Some s /\ step_id s = id /\ (i <= n)%nat.
Proof.
  revert i. induction l as [|s l IH]; intros i H; [discriminate|].
  cbn [findIndex] in H. destruct (String.eqb (step_id s) id) eqn:Hid.
  - injection H as <-. exists s. rewrite Nat.sub_diag.
    apply String.eqb_eq in Hid. auto.
  - destruct (IH _ H) as (s' & Hs' & Hid' & Hle). exists s'.
    replace (n - i)%nat with (S (n - S i)) by lia. repeat split; [exact Hs'|exact Hid'|lia].
Qed.

Lemma stable_frame phone cf {A} (m : M Engine A) : Frame m -> Stable phone cf m.
Proof. intros Hm E H. unfold Good, wellPlaced in *. rewrite (Hm E). exact H. Qed.

Lemma stable_bind phone cf {A B} (m : M Engine A) (k : A -> M Engine B) :
  Stable phone cf m -> (forall a, Stable phone cf (k a)) -> Stable phone cf (bind m k).
Proof.
  intros Hm Hk E H. unfold bind. specialize (Hm E H).
  destruct (m E) as [[a|e] E']; cbn [snd] in *; [|exact Hm].
  apply Hk. exact Hm.
Qed.

Lemma stable_bind_ret phone cf {A B} (a : A) (k : A -> M Engine B) :
  Stable phone cf (k a) -> Stable phone cf (bind (ret a) k).
Proof. intros H E HG. exact (H E HG). Qed.

Lemma keeps_stable phone cf {A} (m : M Engine A) : Stable phone cf m -> Keeps phone cf m.
Proof. intros Hm E H. apply (Hm E H). Qed.

Lemma keeps_bind phone cf {A B} (m : M Engine A) (k : A -> M Engine B) :
  Stable phone cf m -> (forall a, Keeps phone cf (k a)) -> Keeps phone cf (bind m k).
Proof.
  intros Hm Hk E H. unfold bind. specialize (Hm E H).
  destruct (m E) as [[a|e] E']; cbn [snd] in *; [|apply Hm].
  apply Hk. exact Hm.
Qed.

(** An assignment to a property other than the position. *)
Lemma stable_assign phone cf f :
  (forall st, currentFlow (f st) = currentFlow st /\
              currentStep (f st) = currentStep st /\ stepId (f st) = stepId st) ->
  Stable phone cf (assign phone f).
Proof.
  intros Hf E [Hw Hcf]. unfold Good, wellPlaced, assign, withUserStates in *.
  cbn [snd userStates].
  split.
  - intros p st' Hst'. destruct (decide (p = phone)) as [->|Hp].
    + rewrite lookup_alter_eq in Hst'.
      destruct (userStates E !! phone) as [st|] eqn:Hst; [|discriminate].
      injection Hst' as <-. destruct (Hw _ _ Hst) as (flow & step & H1 & H2 & H3).
      destruct (Hf st) as (E1 & E2 & E3). exists flow, step.
      rewrite E1, E2, E3. auto.
    + rewrite lookup_alter_ne in Hst' by congruence. exact (Hw _ _ Hst').
  - intros st' Hst'. rewrite lookup_alter_eq in Hst'.
    destruct (userStates E !! phone) as [st|] eqn:Hst; [|discriminate].
    injection Hst' as <-. destruct (Hf st) as (E1 & _). rewrite E1. apply Hcf. reflexivity.
Qed.

(** The assignment of a position found by [findIndex] in the flow [cf]. *)
Lemma stable_assign_position phone cf flow id i :
  Js.get (flows config) cf = Js.Own flow ->
  findIndex id (steps flow) 0 = Some i ->
  Stable phone cf (assign phone (set_position i id)).
Proof.
  intros Hflow Hfind E [Hw Hcf]. unfold Good, wellPlaced, assign, withUserStates in *.
  cbn [snd userStates].
  destruct (findIndex_spec _ _ _ _ Hfind) as (s & Hs & Hid & _).
  rewrite Nat.sub_0_r in Hs.
  split.
  - intros p st' Hst'. destruct (decide (p = phone)) as [->|Hp].
    + rewrite lookup_alter_eq in Hst'.
      destruct (userStates E !! phone) as [st|] eqn:Hst; [|discriminate].
      injection Hst' as <-. exists flow, s. specialize (Hcf st eq_refl).
      destruct st; cbn in *. subst. auto.
    + rewrite lookup_alter_ne in Hst' by congruence. exact (Hw _ _ Hst').
  - intros st' Hst'. rewrite lookup_alter_eq in Hst'.
    destruct (userStates E !! phone) as [st|] eqn:Hst; [|discriminate].
    injection Hst' as <-. specialize (Hcf st eq_refl). destruct st; exact Hcf.
Qed.

Lemma stable_updateUserState phone cf : Stable phone cf (updateUserState phone).
Proof.
  intros E H. unfold updateUserState, withUserStates.
  assert (Heq : match userStates E !! phone with
                | Some st => <[phone := st]> (userStates E)
                | None => userStates E
                end = userStates E).
  { destruct (userStates E !! phone) eqn:Hst; [apply insert_id; exact Hst | reflexivity]. }
  unfold Good, wellPlaced in *. cbn [snd userStates]. rewrite Heq. exact H.
Qed.

Lemma stable_resetUserFlow phone cf : Stable phone cf (resetUserFlow phone).
Proof.
  intros E [Hw Hcf]. unfold Good, wellPlaced, resetUserFlow, withUserStates in *.
  cbn [snd userStates]. split.
  - intros p st Hst. apply lookup_delete_Some in Hst as [_ Hst]. exact (Hw _ _ Hst).
  - intros st Hst. rewrite lookup_delete_eq in Hst. discriminate.
Qed.

(** A flow that starts is entered at its first step. *)
Lemma initializeUserFlow_placed phone flowId E :
  wellPlaced E ->
  wellPlaced (snd (initializeUserFlow phone flowId E)) /\
  forall st, fst (initializeUserFlow phone flowId E) = Returns (Some st) ->
             userStates (snd (initializeUserFlow phone flowId E)) !! phone = Some st.
Proof.
  intros Hw. unfold wellPlaced, initializeUserFlow in *.
  destruct (Js.get (flows config) flowId) as [flow| |] eqn:Hflow.
  - destruct (steps flow) as [|first rest] eqn:Hsteps.
    + split; [exact Hw|]. cbn. discriminate.
    + cbn. split.
      * intros p st Hst. destruct (decide (p = phone)) as [->|Hp].
        -- rewrite lookup_insert_eq in Hst. injection Hst as <-.
           exists flow, first. cbn. rewrite Hsteps. auto.
        -- rewrite lookup_insert_ne in Hst by congruence. exact (Hw _ _ Hst).
      * intros st Hst. injection Hst as <-. apply lookup_insert_eq.
  - split; [exact Hw|]. cbn. discriminate.
  - split; [exact Hw|]. cbn. discriminate.
Qed.

Ltac stable :=
  repeat first
    [ apply stable_updateUserState | apply stable_resetUserFlow
    | apply stable_assign; intros []; repeat split; reflexivity
    | assumption
    | match goal with H : forall _, Stable _ _ _ |- _ => apply H end
    | apply stable_frame; solve [frame | apply frame_replaceVariables
                                | apply frame_validateInput | apply frame_evaluateCondition]
    | apply stable_bind; [|intros ?]
    | match goal with
      | |- Stable _ _ (if ?b then _ else _) => destruct b
      | |- Stable _ _ (match ?x with _ => _ end) => destruct x
      | |- Stable _ _ (let _ := _ in _) => cbv zeta
      end ].

Lemma stable_moveToNextStep phone st next :
  Stable phone (currentFlow st) (moveToNextStep phone st next).
Proof.
  unfold moveToNextStep.
  destruct (Js.get (flows config) (currentFlow st)) as [flow| |] eqn:Hflow;
    [|stable..].
  apply stable_bind_ret.
  destruct (findIndex next (steps flow) 0) as [i|] eqn:Hfind; [|stable].
  apply stable_bind; [exact (stable_assign_position _ _ _ _ _ Hflow Hfind)|].
  intros _. stable.
Qed.

Lemma keeps_gotoFlow phone cf flowId : Keeps phone cf (gotoFlow phone flowId).
Proof.
  assert (Hgoto : forall key (r : Result),
             Keeps phone cf
               (do_ assign phone (fun st => set_previousFlow (Some (currentFlow st)) st);
                do_ resetUserFlow phone;
                do_ initializeUserFlow phone key;
                ret r)).
  { intros key r. apply keeps_bind; [stable|]. intros _.
    apply keeps_bind; [stable|]. intros _.
    intros E [Hw _]. unfold bind.
    destruct (initializeUserFlow_placed phone key E Hw) as [Hw' _].
    destruct (initializeUserFlow phone key E) as [[o|e] E']; exact Hw'. }
  unfold gotoFlow. cbv zeta.
  destruct (Js.get _ _); [apply Hgoto | apply Hgoto | apply keeps_stable; stable].
Qed.

Lemma stable_handleMaxRetriesExceeded phone cf :
  Stable phone cf (handleMaxRetriesExceeded phone).
Proof. unfold handleMaxRetriesExceeded. stable. Qed.

Lemma stable_handleMessageStep phone step st :
  Stable phone (currentFlow st) (handleMessageStep phone step st).
Proof.
  pose proof (stable_moveToNextStep phone st) as Hm.
  unfold handleMessageStep. stable; apply Hm.
Qed.

Lemma keeps_handleMenuStep phone message step st :
  Keeps phone (currentFlow st) (handleMenuStep phone message step st).
Proof.
  pose proof (stable_handleMaxRetriesExceeded phone (currentFlow st)) as Hx.
  unfold handleMenuStep, buildMenuMessage.
  destruct (negb (waitingInput st)); [apply keeps_stable; stable|].
  cbv zeta. apply keeps_bind; [stable|]. intros options.
  destruct (find _ options) as [option|]; [|apply keeps_stable; stable].
  do 3 (apply keeps_bind; [stable|]; intros ?).
  rewrite menu_action_cases.
  destruct (opt_action option) as [action|]; [|apply keeps_stable; stable].
  destruct (String.eqb action "goto"); [apply keeps_gotoFlow|].
  apply keeps_stable; stable.
Qed.

Lemma stable_handleCaptureDataStep phone message step st :
  Stable phone (currentFlow st) (handleCaptureDataStep phone message step st).
Proof.
  pose proof (stable_moveToNextStep phone st) as Hm.
  pose proof (stable_handleMaxRetriesExceeded phone (currentFlow st)) as Hx.
  unfold handleCaptureDataStep.
  destruct (negb (waitingInput st)); [stable|].
  apply stable_bind; [stable|]. intros validation.
  destruct validation; stable; apply Hm.
Qed.

Lemma stable_handleQuickReplyStep phone message step st :
  Stable phone (currentFlow st) (handleQuickReplyStep phone message step st).
Proof.
  pose proof (stable_moveToNextStep phone st) as Hm.
  unfold handleQuickReplyStep.
  destruct (negb (waitingInput st)); stable; apply Hm.
Qed.

Lemma stable_handleAIResponseStep phone message step st :
  Stable phone (currentFlow st) (handleAIResponseStep phone message step st).
Proof.
  pose proof (stable_moveToNextStep phone st) as Hm.
  unfold handleAIResponseStep.
  destruct (negb (ai_enabled config)); stable; apply Hm.
Qed.

Lemma stable_handleConditionStep phone step st :
  Stable phone (currentFlow st) (handleConditionStep phone step st).
Proof.
  pose proof (stable_moveToNextStep phone st) as Hm.
  unfold handleConditionStep.
  apply stable_bind; [stable|]. intros condition. cbv zeta.
  stable; apply Hm.
Qed.

Lemma keeps_dispatch phone message step st :
  Keeps phone (currentFlow st) (dispatch phone message step st).
Proof.
  destruct (step_type_cases (step_type step)) as [Hin|Hout].
  - unfold dispatch. cbn [In knownStepTypes] in Hin.
    destruct Hin as [<-|[<-|[<-|[<-|[<-|[<-|[<-|[]]]]]]]].
    + apply keeps_stable, stable_handleMessageStep.
    + apply keeps_handleMenuStep.
    + apply keeps_stable, stable_handleCaptureDataStep.
    + apply keeps_stable, stable_handleQuickReplyStep.
    + apply keeps_stable, stable_handleAIResponseStep.
    + apply keeps_stable, stable_frame, frame_handleActionStep.
    + apply keeps_stable, stable_handleConditionStep.
  - intros E [Hw _]. rewrite dispatch_unknown_type by exact Hout. exact Hw.
Qed.

Lemma keeps_bind_ret phone cf {A B} (a : A) (k : A -> M Engine B) :
  Keeps phone cf (k a) -> Keeps phone cf (bind (ret a) k).
Proof. intros H E HG. exact (H E HG). Qed.

Lemma keeps_processStep phone message st :
  Keeps phone (currentFlow st) (processStep phone message (Some st)).
Proof.
  pose proof (keeps_dispatch phone message) as Hd.
  unfold processStep. apply (keeps_bind_ret phone (currentFlow st) st).
  apply keeps_bind; [stable|]. intros flow.
  apply keeps_bind; [stable|]. intros step.
  apply keeps_bind; [stable|]. intros now.
  apply keeps_bind; [stable|]. intros _. apply Hd.
Qed.

Lemma wellPlaced_withCaller userContext E : wellPlaced E -> wellPlaced (withCaller userContext E).
Proof. intros H. exact H. Qed.

(** X2 (one position per identity): when every stored state points at a
    step that exists in its flow, with [stepId] the id of that step, the
    same holds after [processMessage], whatever the message and outcome. *)
Theorem processMessage_keeps_position phone message userContext E :
  wellPlaced E ->
  wellPlaced (snd (processMessage phone message userContext E)).
Proof.
  intros Hw. apply (wellPlaced_withCaller userContext) in Hw.
  assert (Htry : wellPlaced (snd (processMessage_try phone message (withCaller userContext E)))).
  { unfold processMessage_try, bind at 1, getUserState.
    set (E0 := withCaller userContext E) in *.
    destruct (noActiveFlow (userStates E0 !! phone)) eqn:Hactive.
    - unfold bind.
      destruct (initializeUserFlow_placed phone entryFlowId E0 Hw) as [Hw' Hst'].
      destruct (initializeUserFlow phone entryFlowId E0) as [[[st'|]|e] E']; cbn [fst snd] in *.
      + apply (keeps_processStep phone message st' E'). split; [exact Hw'|].
        intros st Hst. rewrite (Hst' st' eq_refl) in Hst. congruence.
      + exact Hw'.
      + exact Hw'.
    - unfold bind, ret.
      destruct (userStates E0 !! phone) as [st|] eqn:Hst; [|discriminate].
      apply (keeps_processStep phone message st E0). split; [exact Hw|].
      intros st' Hst'. congruence. }
  unfold processMessage, processMessage_M, try_catch.
  destruct (processMessage_try _ _ _) as [[r|e] E']; exact Htry.
Qed.

(** *** Replies below the retry limit, and accepted replies *)

(** X3 (retry below the limit): on a menu or capture step that waits for
    input, a rejected reply that leaves the counter below the limit is
    answered by a prompt that waits for input again, with no action, no
    restart and no error flag; the state of the user stays at the same step,
    still waiting, with the retry counter incremented by one. *)
Theorem retry_below_limit E phone message userContext st step :
  atStep E phone st step ->
  waitingInput st = true ->
  rejected step message ->
  retryCount st + 1 < retryLimit step ->
  let out := processMessage phone message userContext E in
  r_waitingInput (fst out) = true /\
  r_action (fst out) = None /\
  r_restart (fst out) = false /\
  r_error (fst out) = false /\
  exists st',
    userStates (snd out) !! phone = Some st' /\
    retryCount st' = retryCount st + 1 /\
    waitingInput st' = true /\
    currentStep st' = currentStep st /\ stepId st' = stepId st.
Proof.
  intros Hat Hwait Hrej Hlim. cbv zeta.
  rewrite (processMessage_atStep _ _ _ _ _ _ Hat).
  destruct Hat as (Hst & _).
  assert (Hstate : exists st',
             alter (fun s => set_retryCount (retryCount s + 1) s) phone
               (userStates (logged phone message step userContext E)) !! phone = Some st' /\
             retryCount st' = retryCount st + 1 /\ waitingInput st' = true /\
             currentStep st' = currentStep st /\ stepId st' = stepId st).
  { eexists. split.
    - rewrite lookup_alter_eq, (logged_lookup _ _ _ _ _ _ Hst). reflexivity.
    - rewrite retryCount_set_retryCount, waitingInput_set_retryCount,
        retryCount_push_history, waitingInput_push_history.
      destruct st; cbn. auto. }
  unfold dispatch, retryLimit in *.
  destruct Hrej as [[Htype (options & Hopts & Hfind)] | [Htype (v & Hv & Hinvalid)]];
    rewrite Htype in *; cbn [String.eqb Ascii.eqb Bool.eqb] in Hlim.
  - assert (Hlim' : (retryCount st + 1 >=? maxRetries step) = false)
      by (rewrite Z.geb_leb; apply Z.leb_gt; exact Hlim).
    unfold handleMenuStep. rewrite Hwait. cbn [negb].
    unfold bind, required, ret. rewrite Hopts, Hfind.
    unfold assign, withUserStates. rewrite Hlim'.
    cbn [settle fst snd userStates]. repeat split; try reflexivity. exact Hstate.
  - assert (Hlim' : (retryCount st + 1 >=? 3) = false)
      by (rewrite Z.geb_leb; apply Z.leb_gt; exact Hlim).
    unfold handleCaptureDataStep. rewrite Hwait. cbn [negb].
    rewrite Hv. unfold bind at 1. unfold ret at 1.
    destruct v as [value | error |]; [discriminate Hinvalid | |];
      unfold bind, assign, withUserStates; rewrite Hlim';
      cbn [settle fst snd userStates ret]; repeat split; try reflexivity; exact Hstate.
Qed.

(** The engine after a valid menu choice: the choice is recorded in the
    state of the user, and sent to the persistence gateway with the name of
    the caller's context. *)
Definition chosen (phone : string) (option : MenuOption) (E : Engine) : Engine :=
  {| userStates :=
       alter (fun st => set_data "lastMenuChoice" (VString (opt_id option))
                          (set_waitingInput false (set_retryCount 0 st)))
             phone (userStates E);
     callerContext := callerContext E;
     ticks := ticks E;
     dbWrites :=
       (dbWrites E ++
        [SaveUserContext phone
           (match Js.own (callerContext E) "name" with
            | Some name => [("name", name)]
            | None => []
            end ++ [("lastMenuChoice", VString (opt_id option))])])%list |}.

Lemma handleMenuStep_choice phone message step st options option E :
  waitingInput st = true ->
  step_options step = Some options ->
  find (fun opt => String.eqb (opt_id opt) (Js.trim message)) options = Some option ->
  handleMenuStep phone message step st E
  = match opt_action option with
    | Some a =>
        if String.eqb a "goto" then gotoFlow phone (opt_target option) (chosen phone option E)
        else if String.eqb a "transfer_human" then
          (Returns (result [Message (Some "🤝 Conectando você com um atendente humano...");
                            Action "transfer_human"; TransferComplete]),
           chosen phone option E)
        else if String.eqb a "transfer_department" then
          (Returns (result [Message (getDepartmentTransferMessage (opt_target option));
                            Action "transfer_department";
                            DepartmentId (opt_target option); TransferComplete]),
           chosen phone option E)
        else (Returns (result [Message (Some "Erro no menu."); Error]), chosen phone option E)
    | None => (Returns (result [Message (Some "Erro no menu."); Error]), chosen phone option E)
    end.
Proof.
  intros Hwait Hopts Hfind. unfold handleMenuStep. rewrite Hwait. cbn [negb].
  unfold required. rewrite Hopts, bind_ret, Hfind.
  rewrite menu_action_cases.
  unfold bind, assign, withUserStates, getCallerContext, dbWrite.
  cbn [callerContext dbWrites userStates ticks]. fold (chosen phone option E).
  destruct (opt_action option) as [a|]; [|reflexivity].
  repeat match goal with |- context [String.eqb ?a ?b] => destruct (String.eqb a b) end;
    reflexivity.
Qed.


(** What [moveToNextStep] does to the state of [phone]: the position is
    the one of the named step when the flow has it, and is left alone
    otherwise; nothing else changes. *)
Lemma moveToNextStep_effect phone st flow next E st0 :
  Js.get (flows config) (currentFlow st) = Js.Own flow ->
  userStates E !! phone = Some st0 ->
  exists b E' st1,
    moveToNextStep phone st next E = (Returns b, E') /\
    userStates E' !! phone = Some st1 /\
    data st1 = data st0 /\ retryCount st1 = retryCount st0 /\
    waitingInput st1 = waitingInput st0 /\ dbWrites E' = dbWrites E /\
    match findIndex next (steps flow) 0 with
    | Some i => currentStep st1 = i /\ stepId st1 = next
    | None => currentStep st1 = currentStep st0 /\ stepId st1 = stepId st0
    end.
Proof.
  intros Hget Hst0. unfold moveToNextStep. rewrite Hget, bind_ret.
  destruct (findIndex next (steps flow) 0) as [i|].
  - unfold bind, assign, updateUserState, withUserStates, ret.
    cbn [userStates callerContext ticks dbWrites].
    rewrite lookup_alter_eq, Hst0. cbn [fmap option_fmap option_map].
    do 3 eexists. split; [reflexivity|]. cbn [userStates dbWrites].
    split; [apply lookup_insert_eq|]. destruct st0; cbn. auto 10.
  - exists false, E, st0. unfold ret. auto 10.
Qed.

(** X5 (a change of flow starts afresh): a valid menu choice whose action
    is [goto], towards a configured flow that has a first step, puts the
    user at the first step of that flow with a new state: no data (the
    choice just recorded is gone with the old state), no history, no
    previous flow, retry counter 0, not waiting. The result asks the
    transport to continue. *)
Theorem menu_goto_starts_afresh E phone message userContext st step options option
  target flow first :
  atStep E phone st step ->
  step_type step = "menu" ->
  waitingInput st = true ->
  step_options step = Some options ->
  find (fun opt => String.eqb (opt_id opt) (Js.trim message)) options = Some option ->
  opt_action option = Some "goto" ->
  opt_target option = Some target ->
  Js.get (flows config) target = Js.Own flow ->
  head (steps flow) = Some first ->
  let out := processMessage phone message userContext E in
  fst out = result [Message (Some "🔄 Redirecionando..."); FlowChanged; Continue true] /\
  exists st',
    userStates (snd out) !! phone = Some st' /\
    currentFlow st' = target /\ currentStep st' = 0%nat /\ stepId st' = step_id first /\
    data st' = [] /\ history st' = [] /\ previousFlow st' = None /\
    retryCount st' = 0 /\ waitingInput st' = false.
Proof.
  intros Hat Htype Hwait Hopts Hfind Haction Htarget Hflow Hfirst. cbv zeta.
  rewrite (processMessage_atStep _ _ _ _ _ _ Hat).
  unfold dispatch. rewrite Htype.
  rewrite (handleMenuStep_choice _ _ _ _ _ _ _ Hwait Hopts Hfind).
  rewrite Haction. cbn [String.eqb Ascii.eqb Bool.eqb].
  unfold gotoFlow. rewrite Htarget. cbn [default from_option id]. rewrite Hflow.
  unfold bind at 1. unfold assign at 1. unfold withUserStates at 1.
  unfold bind at 1. unfold resetUserFlow at 1. unfold withUserStates at 1.
  unfold bind at 1. unfold initializeUserFlow. rewrite Hflow.
  unfold bind, required. rewrite Hfirst.
  unfold ret, getCallerContext, Date_now, withUserStates.
  cbn [settle fst snd userStates callerContext ticks dbWrites].
  split; [reflexivity|].
  eexists. split; [apply lookup_insert_eq|]. cbn. auto 10.
Qed.

Lemma accepted_state key value h st :
  let st' := set_retryCount 0 (set_waitingInput false (set_data key value (push_history h st))) in
  Js.own (data st') key = Some value /\
  retryCount st' = 0 /\ waitingInput st' = false /\
  currentStep st' = currentStep st /\ stepId st' = stepId st.
Proof. destruct st; cbn. rewrite JsFacts.own_set_eq. auto. Qed.

(** X6 (an accepted capture): on a capture step that waits for input, a
    reply the validator accepts is stored, in its normalised form, under
    the field of the step; the retry counter is reset and the wait ends.
    The result is the confirmation, and asks to continue exactly when the
    step names a successor; the user is moved to that successor when the
    flow has a step of that id, and stays where it was otherwise. (The
    field is any name but [__proto__], the one name an assignment does not
    make an own property of.) *)
Theorem capture_accepted E phone message userContext st step value flow :
  atStep E phone st step ->
  Js.get (flows config) (currentFlow st) = Js.Own flow ->
  step_type step = "capture_data" ->
  waitingInput st = true ->
  validateInput parseFloat message (step_validation step) = ret (Accept value) ->
  default "undefined" (step_field step) <> "__proto__" ->
  let out := processMessage phone message userContext E in
  fst out = result [Message (Some "✅ Perfeito!"); Delay 500;
                    Continue (present (step_next step))] /\
  exists st',
    userStates (snd out) !! phone = Some st' /\
    Js.own (data st') (default "undefined" (step_field step)) = Some value /\
    retryCount st' = 0 /\ waitingInput st' = false /\
    match step_next step with
    | Some next =>
        match findIndex next (steps flow) 0 with
        | Some i => Js.nonEmpty next = true -> currentStep st' = i /\ stepId st' = next
        | None => currentStep st' = currentStep st
        end
    | None => currentStep st' = currentStep st
    end.
Proof.
  intros Hat Hflow Htype Hwait Hvalid _. cbv zeta.
  rewrite (processMessage_atStep _ _ _ _ _ _ Hat).
  destruct Hat as (Hst & _).
  unfold dispatch. rewrite Htype.
  set (E1 := logged phone message step userContext E).
  assert (Hst1 : userStates E1 !! phone
                 = Some (push_history
                           {| h_stepId := step_id step; h_type := step_type step;
                              h_input := message; h_timestamp := clock (ticks E) |} st))
    by apply (logged_lookup _ _ _ _ _ _ Hst).
  (* the engine before the successor is looked up *)
  assert (Hmid : forall E2,
             userStates E2 = alter (set_data (default "undefined" (step_field step)) value)
                               phone (userStates E1) ->
             exists E4,
               (do_ assign phone (fun st => set_retryCount 0 (set_waitingInput false st));
                do_ (if present (step_next step)
                     then moveToNextStep phone st (default "" (step_next step))
                     else ret false);
                ret (result [Message (Some "✅ Perfeito!"); Delay 500;
                             Continue (present (step_next step))])) E2
               = (Returns (result [Message (Some "✅ Perfeito!"); Delay 500;
                                   Continue (present (step_next step))]), E4) /\
               exists st',
                 userStates E4 !! phone = Some st' /\
                 Js.own (data st') (default "undefined" (step_field step)) = Some value /\
                 retryCount st' = 0 /\ waitingInput st' = false /\
                 match step_next step with
                 | Some next =>
                     match findIndex next (steps flow) 0 with
                     | Some i => Js.nonEmpty next = true ->
                                 currentStep st' = i /\ stepId st' = next
                     | None => currentStep st' = currentStep st
                     end
                 | None => currentStep st' = currentStep st
                 end).
  { intros E2 HE2.
    unfold bind at 1. unfold assign at 1. unfold withUserStates at 1.
    set (E3 := {| userStates := alter _ phone (userStates E2) |}).
    set (st3 := set_retryCount 0 (set_waitingInput false
                  (set_data (default "undefined" (step_field step)) value
                     (push_history
                        {| h_stepId := step_id step; h_type := step_type step;
                           h_input := message; h_timestamp := clock (ticks E) |} st)))).
    assert (Hst3 : userStates E3 !! phone = Some st3).
    { unfold E3. cbn [userStates]. rewrite lookup_alter_eq, HE2, lookup_alter_eq, Hst1.
      reflexivity. }
    assert (Hprops : Js.own (data st3) (default "undefined" (step_field step)) = Some value /\
                     retryCount st3 = 0 /\ waitingInput st3 = false /\
                     currentStep st3 = currentStep st /\ stepId st3 = stepId st).
    { apply accepted_state. }
    destruct Hprops as (P1 & P2 & P3 & P4 & P5).
    destruct (step_next step) as [next|] eqn:Hnext; cbn [present default from_option id].
    - destruct (Js.nonEmpty next) eqn:Hne.
      + destruct (moveToNextStep_effect phone st flow next E3 st3 Hflow Hst3)
          as (b & E' & st' & Hmove & Hst' & D1 & D2 & D3 & _ & Hpos).
        unfold bind. rewrite Hmove. unfold ret. eexists.
        split; [reflexivity|]. exists st'. rewrite D1, D2, D3.
        repeat split; try assumption.
        destruct (findIndex next (steps flow) 0); [intros _; exact Hpos|].
        destruct Hpos as [-> _]. exact P4.
      + unfold bind, ret. eexists. split; [reflexivity|].
        exists st3. repeat split; try assumption.
        destruct (findIndex next (steps flow) 0); [discriminate | exact P4].
    - unfold bind, ret. eexists. split; [reflexivity|].
      exists st3. auto 10. }
  assert (Hrun : exists E4,
             handleCaptureDataStep phone message step st E1
             = (Returns (result [Message (Some "✅ Perfeito!"); Delay 500;
                                 Continue (present (step_next step))]), E4) /\
             exists st',
               userStates E4 !! phone = Some st' /\
               Js.own (data st') (default "undefined" (step_field step)) = Some value /\
               retryCount st' = 0 /\ waitingInput st' = false /\
               match step_next step with
               | Some next =>
                   match findIndex next (steps flow) 0 with
                   | Some i => Js.nonEmpty next = true ->
                               currentStep st' = i /\ stepId st' = next
                   | None => currentStep st' = currentStep st
                   end
               | None => currentStep st' = currentStep st
               end).
  { unfold handleCaptureDataStep. rewrite Hwait. cbn [negb].
    rewrite Hvalid, bind_ret.
    unfold bind at 1. unfold assign at 1. unfold withUserStates at 1.
    destruct (present (step_save_to step));
      [destruct (String.eqb _ "user_context")|].
    - unfold bind at 1. unfold bind at 1. unfold getCallerContext at 1.
      unfold bind at 1. unfold setCallerContext at 1. unfold dbWrite at 1.
      match goal with |- exists E4, ?m ?E2 = _ /\ _ => apply (Hmid E2 eq_refl) end.
    - unfold bind at 1. unfold ret at 1.
      match goal with |- exists E4, ?m ?E2 = _ /\ _ => apply (Hmid E2 eq_refl) end.
    - unfold bind at 1. unfold ret at 1.
      match goal with |- exists E4, ?m ?E2 = _ /\ _ => apply (Hmid E2 eq_refl) end. }
  destruct Hrun as (E4 & Hrun & Hstate). rewrite Hrun. cbn [settle fst snd].
  split; [reflexivity | exact Hstate].
Qed.

(** *** Edge cases *)

(** X7 (no entry flow): for a user without a state, when the flow the mode
    selects is not configured, or has no step, [processMessage] returns the
    apology with the transfer-to-human action and the error flag, and
    stores no state for the user. *)
Theorem first_message_without_entry_flow E phone message userContext :
  userStates E !! phone = None ->
  (forall flow, Js.get (flows config) entryFlowId = Js.Own flow -> steps flow = []) ->
  let out := processMessage phone message userContext E in
  fst out = flowError /\
  r_action (fst out) = Some "transfer_human" /\ r_error (fst out) = true /\
  userStates (snd out) = userStates E.
Proof.
  intros Hnone Hflow. cbv zeta.
  assert (Hrun : exists E',
             processMessage phone message userContext E = (flowError, E') /\
             userStates E' = userStates E).
  { unfold processMessage, processMessage_M, try_catch, processMessage_try.
    unfold bind at 1. unfold getUserState, withCaller. cbn [userStates].
    rewrite Hnone. cbn [noActiveFlow]. unfold initializeUserFlow.
    destruct (Js.get (flows config) entryFlowId) as [flow| |].
    - rewrite (Hflow flow eq_refl). cbn. eauto.
    - cbn. eauto.
    - cbn. eauto. }
  destruct Hrun as (E' & -> & Hstates). cbn [fst snd]. auto.
Qed.

(** X8 (the confidence threshold of an AI step): with the AI enabled, the
    reply of an [ai_response] step comes from the matching engine exactly
    when the step has a threshold and the confidence of the engine reaches
    it; the result then carries the reply and its confidence, without any
    action. Otherwise, a step without a fallback hands the user over to a
    human. *)
Theorem ai_response_threshold E phone message userContext st step :
  atStep E phone st step ->
  step_type step = "ai_response" ->
  ai_enabled config = true ->
  let out := processMessage phone message userContext E in
  let reply := aiProcessMessage message userContext in
  (r_fromAI (fst out) = true <->
   exists threshold,
     step_confidence_threshold step = Some threshold /\ (threshold <= snd reply)%Q) /\
  (r_fromAI (fst out) = true ->
   r_message (fst out) = Some (fst reply) /\
   r_confidence (fst out) = Some (snd reply) /\ r_action (fst out) = None) /\
  (r_fromAI (fst out) = false -> present (step_fallback step) = false ->
   r_action (fst out) = Some "transfer_human").
Proof.
  intros Hat Htype Hai. cbv zeta.
  rewrite (processMessage_atStep _ _ _ _ _ _ Hat).
  destruct Hat as (Hst & Hne & flow & Hget & Hstep).
  unfold dispatch. rewrite Htype.
  set (E1 := logged phone message step userContext E).
  assert (Hrun : exists r E2,
             handleAIResponseStep phone message step st E1 = (Returns r, E2) /\
             if match step_confidence_threshold step with
                | Some threshold => Qle_bool threshold (snd (aiProcessMessage message userContext))
                | None => false
                end
             then r = result [Message (Some (fst (aiProcessMessage message userContext)));
                              Confidence (snd (aiProcessMessage message userContext)); FromAI]
             else r_fromAI r = false /\
                  (present (step_fallback step) = false ->
                   r_action r = Some "transfer_human")).
  { unfold handleAIResponseStep. rewrite Hai. cbn [negb].
    unfold bind at 1. unfold getCallerContext at 1. cbn [callerContext E1 logged].
    destruct (match step_confidence_threshold step with
              | Some threshold => Qle_bool threshold (snd (aiProcessMessage message userContext))
              | None => false
              end).
    - unfold bind, assign, withUserStates, ret. eauto.
    - destruct (present (step_fallback step)).
      + unfold bind.
        match goal with |- context [moveToNextStep phone st ?next ?E0] =>
          destruct (moveToNextStep_returns phone st flow next E0 Hget) as (b & E' & Hmove)
        end.
        rewrite Hmove. unfold ret. do 2 eexists. split; [reflexivity|].
        split; [reflexivity | discriminate].
      + unfold ret. do 2 eexists. split; [reflexivity|]. split; reflexivity. }
  destruct Hrun as (r & E2 & Hrun & Hr). rewrite Hrun. cbn [settle fst snd].
  destruct (step_confidence_threshold step) as [threshold|].
  - destruct (Qle_bool threshold (snd (aiProcessMessage message userContext))) eqn:Hle.
    + subst r. split; [|split; [intros _; repeat split | discriminate]].
      split; [intros _ | reflexivity].
      exists threshold. split; [reflexivity | apply Qle_bool_iff; exact Hle].
    + destruct Hr as [Hfrom Hact]. rewrite Hfrom.
      split; [|split; [discriminate | intros _; exact Hact]].
      split; [discriminate|]. intros (t & Ht & Hq). injection Ht as <-.
      apply Qle_bool_iff in Hq. congruence.
  - destruct Hr as [Hfrom Hact]. rewrite Hfrom.
    split; [|split; [discriminate | intros _; exact Hact]].
    split; [discriminate|]. intros (t & Ht & _). discriminate.
Qed.

(** The keys [replace] calls the callback with: the names between braces
    of the matches of [/\{(\w+)\}/g], left to right; [pending] as in
    [substitute]. *)
Fixpoint placeholders (pending : option string) (s : string) : list string :=
  match s with
  | EmptyString => []
  | String c s' =>
      match pending with
      | None =>
          if Ascii.eqb c "{" then placeholders (Some "") s' else placeholders None s'
      | Some key =>
          if Js.is_word c then placeholders (Some (key ++ String c "")) s'
          else if Ascii.eqb c "}" && Js.nonEmpty key then key :: placeholders None s'
          else if Ascii.eqb c "{" then placeholders (Some "") s'
          else placeholders None s'
      end
  end.

(** When the callback finds nothing for the keys of the text, every match
    is given back as it was written. *)
Lemma substitute_unresolved resolve s : forall pending,
  (forall key, In key (placeholders pending s) -> resolve key = None) ->
  substitute resolve pending s
  = match pending with Some key => "{" ++ key ++ s | None => s end.
Proof.
  induction s as [|c s IH]; intros pending Hnone.
  - destruct pending as [key|]; [|reflexivity]. cbn [substitute].
    rewrite JsFacts.append_nil_r. reflexivity.
  - destruct pending as [key|]; cbn [substitute placeholders] in *.
    + destruct (Js.is_word c).
      * rewrite (IH _ Hnone), JsFacts.append_assoc. reflexivity.
      * destruct (Ascii.eqb_spec c "}") as [->|_]; cbn [andb] in *.
        -- destruct (Js.nonEmpty key).
           ++ rewrite (Hnone key (or_introl eq_refl)).
              rewrite (IH None (fun k Hk => Hnone k (or_intror Hk))).
              cbn [default from_option id].
              rewrite !JsFacts.append_assoc. reflexivity.
           ++ cbn [Ascii.eqb Bool.eqb] in *. rewrite (IH _ Hnone). reflexivity.
        -- destruct (Ascii.eqb_spec c "{") as [->|_].
           ++ rewrite (IH _ Hnone). reflexivity.
           ++ rewrite (IH _ Hnone). reflexivity.
    + destruct (Ascii.eqb_spec c "{") as [->|_]; rewrite (IH _ Hnone); reflexivity.
Qed.

(** X9 (placeholders without a value): when neither the user context nor
    the data of the flow has a truthy value, own or inherited from
    [Object.prototype], for any of the names the text has between braces,
    [replaceVariables] returns the text unchanged, placeholders and stray
    braces included, and changes nothing. *)
Theorem replaceVariables_verbatim E st text :
  (forall key, In key (placeholders None text) ->
               resolveKey st (callerContext E) key = None) ->
  replaceVariables (Some text) st E = (Returns text, E).
Proof.
  intros Hnone. unfold replaceVariables, required, bind, ret, getCallerContext.
  rewrite (substitute_unresolved _ text None Hnone). reflexivity.
Qed.

(** Every unit of the string is a word unit ([\w]). *)
Fixpoint wordOnly (s : string) : bool :=
  match s with
  | EmptyString => true
  | String c s' => Js.is_word c && wordOnly s'
  end.

(** The string has no opening brace. *)
Fixpoint braceFree (s : string) : bool :=
  match s with
  | EmptyString => true
  | String c s' => negb (Ascii.eqb c "{") && braceFree s'
  end.

Lemma substitute_braceFree resolve before rest :
  braceFree before = true ->
  substitute resolve None (before ++ rest) = before ++ substitute resolve None rest.
Proof.
  induction before as [|c s IH]; intros H; [reflexivity|].
  cbn [braceFree] in H. apply andb_prop in H as [Hc Hs].
  rewrite !JsFacts.append_cons. cbn [substitute]. apply negb_true_iff in Hc.
  rewrite Hc, (IH Hs). reflexivity.
Qed.

Lemma substitute_key resolve pending key rest :
  wordOnly key = true ->
  Js.nonEmpty (pending ++ key) = true ->
  substitute resolve (Some pending) (key ++ "}" ++ rest)
  = default ("{" ++ (pending ++ key) ++ "}") (resolve (pending ++ key))
    ++ substitute resolve None rest.
Proof.
  revert pending. induction key as [|c key IH]; intros pending Hword Hne.
  - rewrite JsFacts.append_nil_r in *. rewrite JsFacts.append_nil_l, JsFacts.append_cons, JsFacts.append_nil_l.
    cbn [substitute]. change (Js.is_word "}") with false.
    change (Ascii.eqb "}" "}") with true. cbv iota. cbn [andb]. rewrite Hne.
    reflexivity.
  - cbn [wordOnly] in Hword. apply andb_prop in Hword as [Hc Hkey].
    rewrite JsFacts.append_cons. cbn [substitute]. rewrite Hc.
    assert (Heq : (pending ++ String c key) = ((pending ++ String c "") ++ key)).
    { rewrite JsFacts.append_assoc. reflexivity. }
    rewrite Heq in *. apply IH; assumption.
Qed.

(** X10 (a placeholder with a value): in a text whose first opening brace
    starts a placeholder [{key}], with [key] a non-empty run of word units,
    the text before the placeholder is kept, the placeholder is replaced by
    the value of the key (the placeholder itself when the key has none), and
    the substitution goes on after it. *)
Theorem substitute_placeholder resolve before key rest :
  braceFree before = true ->
  wordOnly key = true ->
  Js.nonEmpty key = true ->
  substitute resolve None (before ++ "{" ++ key ++ "}" ++ rest)
  = before ++ default ("{" ++ key ++ "}") (resolve key) ++ substitute resolve None rest.
Proof.
  intros Hbefore Hword Hne.
  rewrite (substitute_braceFree _ _ _ Hbefore). f_equal.
  rewrite JsFacts.append_cons, JsFacts.append_nil_l. cbn [substitute].
  change (Ascii.eqb "{" "{") with true. cbv iota.
  apply (substitute_key resolve "" key rest Hword). exact Hne.
Qed.

(** Every unit of the string is a decimal digit. *)
Definition allDigits (s : string) : bool :=
  forallb Js.is_digit (list_ascii_of_string s).

Lemma digitsOnly_allDigits s : allDigits (Js.digitsOnly s) = true.
Proof.
  unfold allDigits. induction s as [|c s IH]; [reflexivity|].
  cbn [Js.digitsOnly]. destruct (Js.is_digit c) eqn:Hc; [|exact IH].
  cbn [list_ascii_of_string forallb]. rewrite Hc, IH. reflexivity.
Qed.

Lemma digitsOnly_idempotent s : Js.digitsOnly (Js.digitsOnly s) = Js.digitsOnly s.
Proof.
  induction s as [|c s IH]; [reflexivity|].
  cbn [Js.digitsOnly]. destruct (Js.is_digit c) eqn:Hc; [|exact IH].
  cbn [Js.digitsOnly]. rewrite Hc, IH. reflexivity.
Qed.

(** X11 (documents in normal form): a reply accepted by the [cpf], [cnpj]
    or [cpf_cnpj] validator is stored as its digits only, 11 or 14 of
    them, whatever punctuation it was typed with; and the stored value is
    itself accepted, unchanged, by the same validator. *)
Theorem document_normal_form name value x E E' :
  In name ["cpf"; "cnpj"; "cpf_cnpj"] ->
  validateInput parseFloat value (Some name) E = (Returns (Accept x), E') ->
  x = VString (Js.digitsOnly value) /\
  allDigits (Js.digitsOnly value) = true /\
  (Js.len (Js.digitsOnly value) = 11 \/ Js.len (Js.digitsOnly value) = 14) /\
  validateInput parseFloat (Js.digitsOnly value) (Some name) E = (Returns (Accept x), E).
Proof.
  intros Hname Hrun.
  assert (Hcpf : forall y, v_cpf value = Accept y ->
            y = VString (Js.digitsOnly value) /\ Js.len (Js.digitsOnly value) = 11 /\
            v_cpf (Js.digitsOnly value) = Accept y).
  { intros y. unfold v_cpf. rewrite digitsOnly_idempotent.
    destruct (negb (Js.len (Js.digitsOnly value) =? 11)) eqn:Hlen; [discriminate|].
    destruct (negb (validateCPF (Js.digitsOnly value))); [discriminate|].
    cbn [orb]. intros [= <-]. apply negb_false_iff, Z.eqb_eq in Hlen. auto. }
  assert (Hcnpj : forall y, v_cnpj value = Accept y ->
            y = VString (Js.digitsOnly value) /\ Js.len (Js.digitsOnly value) = 14 /\
            v_cnpj (Js.digitsOnly value) = Accept y).
  { intros y. unfold v_cnpj. rewrite digitsOnly_idempotent.
    destruct (negb (Js.len (Js.digitsOnly value) =? 14)) eqn:Hlen; [discriminate|].
    destruct (negb (validateCNPJ (Js.digitsOnly value))); [discriminate|].
    cbn [orb]. intros [= <-]. apply negb_false_iff, Z.eqb_eq in Hlen. auto. }
  pose proof (digitsOnly_allDigits value) as Hdigits.
  cbn [In] in Hname. destruct Hname as [<-|[<-|[<-|[]]]];
    cbn in Hrun; injection Hrun as Hv HE; cbn.
  - destruct (Hcpf x Hv) as (-> & Hlen & Hagain). rewrite Hagain. auto.
  - destruct (Hcnpj x Hv) as (-> & Hlen & Hagain). rewrite Hagain. auto.
  - unfold v_cpf_cnpj in *. rewrite digitsOnly_idempotent.
    destruct (Js.len (Js.digitsOnly value) =? 11) eqn:H11.
    + destruct (Hcpf x Hv) as (-> & Hlen & Hagain). rewrite Hagain. auto.
    + destruct (Js.len (Js.digitsOnly value) =? 14) eqn:H14; [|discriminate].
      destruct (Hcnpj x Hv) as (-> & Hlen & Hagain). rewrite Hagain. auto.
Qed.

End Engine.

(** *** A sample engine

    The globals the engine is parametrised by, restricted to decimal
    integers, and a one-step configuration to run the engine on. *)

Fixpoint leadingDigits (s : string) : string :=
  match s with
  | String c s' => if Js.is_digit c then String c (leadingDigits s') else EmptyString
  | EmptyString => EmptyString
  end.

Definition sampleParseFloat (s : string) : JsNumber :=
  let ds := leadingDigits (Js.trimStart s) in
  if Js.nonEmpty ds
  then Finite (inject_Z (fold_left (fun acc d => 10 * acc + d) (digitsOf ds) 0))
  else NaN.

Definition sampleNumberToString (n : JsNumber) : string :=
  match n with
  | NaN => "NaN"
  | Infinity negative => if negative then "-Infinity" else "Infinity"
  | Finite q => DecimalString.NilZero.string_of_int (Z.to_int (Qnum q / Zpos (Qden q)))
  end.

Definition sampleClock (n : nat) : Z := 1700000000000 + Z.of_nat n.

Definition sampleBrain (message : string) (userContext : UserContext) : string * Q :=
  ("Olá! Como posso ajudar você hoje?", 9 # 10).

Definition sampleOption (id label : string) : MenuOption :=
  {| opt_id := id; opt_label := label; opt_action := Some "transfer_human";
     opt_target := None; opt_next := None |}.

(** A step of the given type with the options 1, 2 and 3, the given
    validator and no successor. *)
Definition sampleStepWith (type : string) (action validation : option string) : Step :=
  {| step_id := "inicio"; step_type := type;
     step_message := Some "Olá {name}, escolha uma opção:";
     step_options :=
       Some [sampleOption "1" "Vendas"; sampleOption "2" "Suporte";
             sampleOption "3" "Financeiro"];
     step_max_retries := None; step_retry_message := None;
     step_field := Some "email"; step_validation := validation;
     step_save_to := None; step_next := None; step_delay := None;
     step_fallback := None; step_confidence_threshold := None;
     step_action := action; step_department_id := None;
     step_context_message := None; step_notify_human := false;
     step_priority := None; step_success_message := None;
     step_condition := None; step_if_true := None; step_if_false := None |}.

Definition sampleStep (type : string) (action : option string) : Step :=
  sampleStepWith type action (Some "email").

Definition configOf (step : Step) (transfer : bool) : Config :=
  {| mode := "atendimento"; atendimento_flowId := "principal";
     triagem_flowId := "triagem";
     flows := [("principal", {| steps := [step] |})];
     ai_enabled := true; departments := [];
     transfer_after_limit := transfer;
     transfer_message := Some "Vou transferir você para um atendente." |}.

Definition sampleConfig (type : string) (action : option string) (transfer : bool)
  : Config :=
  configOf (sampleStep type action) transfer.

Definition samplePhone : string := "5511999990000@c.us".

(** The state of a user who has been shown the step and has answered wrongly
    [retries] times. *)
Definition waitingState (retries : Z) : UserState :=
  {| phone := samplePhone; currentFlow := "principal"; currentStep := 0%nat;
     stepId := "inicio"; data := []; context := []; retryCount := retries;
     history := []; startedAt := sampleClock 0; waitingInput := true;
     expectedInput := None; menuOptions := None; validationType := None;
     quickReplyOptions := None; previousFlow := None |}.

Definition waitingEngine (retries : Z) : Engine :=
  {| userStates := {[ samplePhone := waitingState retries ]};
     callerContext := []; ticks := 1%nat; dbWrites := [] |}.

Definition emptyEngine : Engine :=
  {| userStates := ∅; callerContext := []; ticks := 0%nat; dbWrites := [] |}.

(** [processMessage] of the sample engine. *)
Definition sampleProcess (config : Config) (message : string) (E : Engine)
  : Result * Engine :=
  processMessage sampleClock sampleParseFloat sampleNumberToString sampleBrain
    config samplePhone message [] E.

(** The sample user is inside the flow, at its only step. *)
Ltac sample_atStep :=
  split; [apply lookup_singleton_eq|];
  split; [reflexivity|];
  eexists; split; reflexivity.

(** *** The retry limit on the sample engine *)

(** A third wrong answer to the menu, with the transfer fallback on: the
    transfer-to-human result, and the state kept with its counter at 3. *)
Lemma max_retries_witness :
  let out := sampleProcess (sampleConfig "menu" None true) "9" (waitingEngine 2) in
  fst out = result [Message (Some "Vou transferir você para um atendente.");
                    Action "transfer_human"; TransferComplete] /\
  exists st',
    userStates (snd out) !! samplePhone = Some st' /\
    retryCount st' = 3 /\ waitingInput st' = true.
Proof.
  apply (max_retries_transfer_or_restart sampleClock sampleParseFloat
           sampleNumberToString sampleBrain (sampleConfig "menu" None true)
           (waitingEngine 2) samplePhone "9" [] (waitingState 2)
           (sampleStep "menu" None)).
  - sample_atStep.
  - reflexivity.
  - left. split; [reflexivity|]. eexists. split; reflexivity.
  - vm_compute. discriminate.
Defined.

(** C1 as stated fails on both settings of the fallback. At the third wrong
    answer, with the transfer on the state of the user is still in the map;
    with the transfer off the result carries no action at all. *)
Lemma max_retries_claim_fails :
  let step := sampleStep "menu" None in
  let on := sampleProcess (sampleConfig "menu" None true) "9" (waitingEngine 2) in
  let off := sampleProcess (sampleConfig "menu" None false) "9" (waitingEngine 2) in
  (waitingInput (waitingState 2) = true /\
   rejected sampleParseFloat step "9" /\
   retryLimit step <= retryCount (waitingState 2) + 1) /\
  ~ (r_action (fst on) = Some "transfer_human" /\
     userStates (snd on) !! samplePhone = None) /\
  ~ (r_action (fst off) = Some "transfer_human" /\
     userStates (snd off) !! samplePhone = None).
Proof.
  cbv zeta. split; [|split].
  - split; [reflexivity|]. split.
    + left. split; [reflexivity|]. eexists. split; reflexivity.
    + vm_compute. discriminate.
  - intros [_ H]. vm_compute in H. discriminate H.
  - intros [H _]. vm_compute in H. discriminate H.
Qed.

(** The same on a capture step, whose limit is the constant 3. *)
Example capture_third_invalid_email :
  let out := sampleProcess (sampleConfig "capture_data" None false) "sem arroba"
               (waitingEngine 2) in
  fst out = result [Message (Some "Vamos recomeçar do início."); Restart] /\
  userStates (snd out) !! samplePhone = None.
Proof. vm_compute. split; reflexivity. Qed.

(** *** Unknown variants on the sample engine *)

(** A first message that lands on a step of type [survey]. *)
Lemma unknown_variant_witness :
  let out := sampleProcess (sampleConfig "survey" None true) "oi" emptyEngine in
  (fst out = result [Message (Some "Erro no fluxo."); Error] \/
   fst out = result [Message (Some "Ação não implementada."); Error]) /\
  r_error (fst out) = true /\
  r_action (fst out) = None /\
  snd out
  = logged sampleClock samplePhone "oi" (sampleStep "survey" None) []
      (started sampleClock (sampleConfig "survey" None true) samplePhone []
         emptyEngine (sampleStep "survey" None)).
Proof.
  apply (unknown_variant_bare_error sampleClock sampleParseFloat
           sampleNumberToString sampleBrain (sampleConfig "survey" None true)
           emptyEngine samplePhone "oi" []
           (freshState sampleClock (sampleConfig "survey" None true) samplePhone []
              emptyEngine (sampleStep "survey" None))
           (sampleStep "survey" None)).
  - apply (reach_fresh sampleClock (sampleConfig "survey" None true) emptyEngine
             samplePhone [] {| steps := [sampleStep "survey" None] |});
      reflexivity.
  - left. unfold knownStepTypes. simpl. intros H.
    repeat destruct H as [H|H]; try discriminate H. exact H.
Defined.

(** C2 as stated fails: neither an unknown step type nor an unknown action
    name yields a result that carries the transfer-to-human action. *)
Lemma unknown_variant_claim_fails :
  let unknownType := sampleProcess (sampleConfig "survey" None true) "oi" emptyEngine in
  let unknownAction :=
    sampleProcess (sampleConfig "action" (Some "send_sms") true) "oi" emptyEngine in
  unknownVariant (sampleStep "survey" None) /\
  unknownVariant (sampleStep "action" (Some "send_sms")) /\
  r_action (fst unknownType) <> Some "transfer_human" /\
  r_action (fst unknownAction) <> Some "transfer_human" /\
  fst unknownType = result [Message (Some "Erro no fluxo."); Error] /\
  fst unknownAction = result [Message (Some "Ação não implementada."); Error].
Proof.
  cbv zeta. repeat split; try (vm_compute; discriminate); try (vm_compute; reflexivity).
  - left. unfold knownStepTypes. simpl. intros H.
    repeat destruct H as [H|H]; try discriminate H. exact H.
  - right. split; [reflexivity|]. intros a Ha. injection Ha as <-.
    unfold knownActions. simpl. intros H.
    repeat destruct H as [H|H]; try discriminate H. exact H.
Qed.

(** *** Quick replies on the sample engine *)

Definition sampleOptions : list MenuOption :=
  [sampleOption "1" "Vendas"; sampleOption "2" "Suporte"; sampleOption "3" "Financeiro"].

(** The reply [SUP] is accepted, as part of the label [Suporte]. *)
Lemma quick_reply_witness :
  let out := sampleProcess (sampleConfig "quick_reply" None true) "SUP" (waitingEngine 0) in
  (r_waitingInput (fst out) = false <-> matchesOption sampleOptions "SUP") /\
  (~ matchesOption sampleOptions "SUP" ->
   fst out = quickReplyPrompt /\
   r_action (fst out) = None /\ r_restart (fst out) = false /\
   exists st',
     userStates (snd out) !! samplePhone = Some st' /\
     retryCount st' = retryCount (waitingState 0) /\ waitingInput st' = true).
Proof.
  apply (quick_reply_acceptance sampleClock sampleParseFloat sampleNumberToString
           sampleBrain (sampleConfig "quick_reply" None true) (waitingEngine 0)
           samplePhone "SUP" [] (waitingState 0) (sampleStep "quick_reply" None)
           sampleOptions).
  - sample_atStep.
  - reflexivity.
  - reflexivity.
  - reflexivity.
Defined.

Example quick_reply_partial_label :
  fst (sampleProcess (sampleConfig "quick_reply" None true) "SUP" (waitingEngine 0))
  = result [Message (Some "✅ Entendido!"); Continue false].
Proof. vm_compute. reflexivity. Qed.

(** However often a reply matches nothing, the retry counter stays at 0. *)
Example quick_reply_never_counts :
  let config := sampleConfig "quick_reply" None true in
  let run E := snd (sampleProcess config "xyz" E) in
  let out := sampleProcess config "xyz" (run (run (run (run (waitingEngine 0))))) in
  fst out = quickReplyPrompt /\
  retryCount <$> userStates (snd out) !! samplePhone = Some 0.
Proof. vm_compute. split; reflexivity. Qed.

(** The acceptance rule in the words of the specification: the reply equals
    an option id, or occurs in an option label, up to case. *)
Definition acceptedAsSpecified (options : list MenuOption) (reply : string) : Prop :=
  exists opt,
    In opt options /\
    (Js.toLowerCase reply = Js.toLowerCase (opt_id opt) \/
     Js.includes (Js.toLowerCase (opt_label opt)) (Js.toLowerCase reply) = true).

(** C7 as stated fails: the reply [2] with a space on either side is
    accepted, though it is neither an option id nor part of a label. *)
Lemma quick_reply_claim_fails :
  let out := sampleProcess (sampleConfig "quick_reply" None true) " 2 " (waitingEngine 0) in
  fst out = result [Message (Some "✅ Entendido!"); Continue false] /\
  r_waitingInput (fst out) = false /\
  ~ acceptedAsSpecified sampleOptions " 2 ".
Proof.
  cbv zeta. split; [vm_compute; reflexivity|]. split; [vm_compute; reflexivity|].
  intros (opt & Hin & H). simpl in Hin.
  destruct Hin as [<-|[<-|[<-|[]]]]; destruct H as [H|H];
    vm_compute in H; discriminate H.
Qed.

(** *** Validator names on the sample engine *)

(** A capture step whose validator is named [toString] rejects a well-formed
    answer, and a third answer runs into the retry limit. *)
Example capture_with_inherited_validator :
  let config := configOf (sampleStepWith "capture_data" None (Some "toString")) false in
  fst (sampleProcess config "maria@example.com" (waitingEngine 0))
  = result [Message (Some ("❌ undefined" ++ nl ++ nl ++ "Olá {name}, escolha uma opção:"));
            WaitingInput] /\
  fst (sampleProcess config "maria@example.com" (waitingEngine 2))
  = result [Message (Some "Vamos recomeçar do início."); Restart].
Proof. vm_compute. split; reflexivity. Qed.

(** A validator name that resolves to nothing accepts the raw answer. *)
Example capture_with_unknown_validator :
  let config := configOf (sampleStepWith "capture_data" None (Some "zipcode")) false in
  fst (sampleProcess config " 01310-100 " (waitingEngine 0))
  = result [Message (Some "✅ Perfeito!"); Delay 500; Continue false] /\
  (data <$> userStates (snd (sampleProcess config " 01310-100 " (waitingEngine 0)))
              !! samplePhone)
  = Some [("email", VString " 01310-100 ")].
Proof. vm_compute. split; reflexivity. Qed.

(** *** The further properties on the sample engine *)

Definition otherPhone : string := "5511888880000@c.us".

(** Two users in the middle of the same menu. *)
Definition twoUsers : Engine :=
  {| userStates := <[otherPhone := waitingState 1]> {[ samplePhone := waitingState 2 ]};
     callerContext := []; ticks := 2%nat; dbWrites := [] |}.

(** The third wrong answer of one user restarts that user only. *)
Lemma processMessage_isolated_witness :
  let out := sampleProcess (sampleConfig "menu" None false) "9" twoUsers in
  userStates (snd out) !! samplePhone = None /\
  userStates (snd out) !! otherPhone = userStates twoUsers !! otherPhone.
Proof.
  split; [vm_compute; reflexivity|].
  apply (processMessage_isolated sampleClock sampleParseFloat sampleNumberToString
           sampleBrain (sampleConfig "menu" None false) samplePhone "9" [] twoUsers
           otherPhone).
  unfold otherPhone, samplePhone. discriminate.
Defined.

Lemma waitingEngine_wellPlaced type action transfer retries :
  wellPlaced (sampleConfig type action transfer) (waitingEngine retries).
Proof.
  intros p st Hst. unfold waitingEngine in Hst. cbn [userStates] in Hst.
  apply lookup_singleton_Some in Hst as [_ <-].
  exists {| steps := [sampleStep type action] |}, (sampleStep type action).
  repeat split.
Qed.

Lemma processMessage_keeps_position_witness :
  wellPlaced (sampleConfig "menu" None true)
    (snd (sampleProcess (sampleConfig "menu" None true) "2" (waitingEngine 0))).
Proof.
  apply (processMessage_keeps_position sampleClock sampleParseFloat sampleNumberToString
           sampleBrain (sampleConfig "menu" None true) samplePhone "2" []
           (waitingEngine 0)).
  apply waitingEngine_wellPlaced.
Defined.

(** A first wrong answer to the menu. *)
Lemma retry_below_limit_witness :
  let out := sampleProcess (sampleConfig "menu" None true) "9" (waitingEngine 0) in
  r_waitingInput (fst out) = true /\
  r_action (fst out) = None /\
  r_restart (fst out) = false /\
  r_error (fst out) = false /\
  exists st',
    userStates (snd out) !! samplePhone = Some st' /\
    retryCount st' = 1 /\ waitingInput st' = true /\
    currentStep st' = 0%nat /\ stepId st' = "inicio".
Proof.
  apply (retry_below_limit sampleClock sampleParseFloat sampleNumberToString sampleBrain
           (sampleConfig "menu" None true) (waitingEngine 0) samplePhone "9" []
           (waitingState 0) (sampleStep "menu" None)).
  - sample_atStep.
  - reflexivity.
  - left. split; [reflexivity|]. eexists. split; reflexivity.
  - vm_compute. reflexivity.
Defined.


(** A menu whose only option leads to the flow of the sales team. *)
Definition gotoOption : MenuOption :=
  {| opt_id := "1"; opt_label := "Vendas"; opt_action := Some "goto";
     opt_target := Some "vendas"; opt_next := None |}.

Definition stepOf (id type : string) (options : option (list MenuOption))
  (next : option string) (threshold : option Q) : Step :=
  {| step_id := id; step_type := type;
     step_message := Some "Olá {name}!";
     step_options := options;
     step_max_retries := None; step_retry_message := None;
     step_field := Some "email"; step_validation := Some "email";
     step_save_to := None; step_next := next; step_delay := None;
     step_fallback := None; step_confidence_threshold := threshold;
     step_action := None; step_department_id := None;
     step_context_message := None; step_notify_human := false;
     step_priority := None; step_success_message := None;
     step_condition := None; step_if_true := None; step_if_false := None |}.

Definition configWith (mode : string) (flows : Js.Obj Flow) : Config :=
  {| mode := mode; atendimento_flowId := "principal"; triagem_flowId := "triagem";
     flows := flows; ai_enabled := true; departments := [];
     transfer_after_limit := true;
     transfer_message := Some "Vou transferir você para um atendente." |}.

Definition gotoStep : Step := stepOf "inicio" "menu" (Some [gotoOption]) None None.

Definition salesFlow : Flow :=
  {| steps := [stepOf "boas_vindas" "message" None None None] |}.

Definition gotoConfig : Config :=
  configWith "atendimento"
    [("principal", {| steps := [gotoStep] |}); ("vendas", salesFlow)].

Lemma menu_goto_starts_afresh_witness :
  let out := processMessage sampleClock sampleParseFloat sampleNumberToString sampleBrain
               gotoConfig samplePhone "1" [] (waitingEngine 1) in
  fst out = result [Message (Some "🔄 Redirecionando..."); FlowChanged; Continue true] /\
  exists st',
    userStates (snd out) !! samplePhone = Some st' /\
    currentFlow st' = "vendas" /\ currentStep st' = 0%nat /\ stepId st' = "boas_vindas" /\
    data st' = [] /\ history st' = [] /\ previousFlow st' = None /\
    retryCount st' = 0 /\ waitingInput st' = false.
Proof.
  apply (menu_goto_starts_afresh sampleClock sampleParseFloat sampleNumberToString
           sampleBrain gotoConfig (waitingEngine 1) samplePhone "1" [] (waitingState 1)
           gotoStep [gotoOption] gotoOption "vendas" salesFlow
           (stepOf "boas_vindas" "message" None None None)).
  - sample_atStep.
  - reflexivity.
  - reflexivity.
  - reflexivity.
  - reflexivity.
  - reflexivity.
  - reflexivity.
  - reflexivity.
  - reflexivity.
Defined.

(** A capture step followed by a farewell. *)
Definition captureStep : Step := stepOf "inicio" "capture_data" None (Some "fim") None.

Definition captureFlow : Flow :=
  {| steps := [captureStep; stepOf "fim" "message" None None None] |}.

Definition captureConfig : Config := configWith "atendimento" [("principal", captureFlow)].

Lemma capture_accepted_witness :
  let out := processMessage sampleClock sampleParseFloat sampleNumberToString sampleBrain
               captureConfig samplePhone "Maria@Example.com" [] (waitingEngine 2) in
  fst out = result [Message (Some "✅ Perfeito!"); Delay 500; Continue true] /\
  exists st',
    userStates (snd out) !! samplePhone = Some st' /\
    Js.own (data st') "email" = Some (VString "maria@example.com") /\
    retryCount st' = 0 /\ waitingInput st' = false /\
    (Js.nonEmpty "fim" = true -> currentStep st' = 1%nat /\ stepId st' = "fim").
Proof.
  apply (capture_accepted sampleClock sampleParseFloat sampleNumberToString sampleBrain
           captureConfig (waitingEngine 2) samplePhone "Maria@Example.com" []
           (waitingState 2) captureStep (VString "maria@example.com") captureFlow).
  - sample_atStep.
  - reflexivity.
  - reflexivity.
  - reflexivity.
  - vm_compute. reflexivity.
  - discriminate.
Defined.

(** The mode [triagem] with no flow of that name. *)
Lemma first_message_without_entry_flow_witness :
  let out := processMessage sampleClock sampleParseFloat sampleNumberToString sampleBrain
               (configWith "triagem" [("principal", captureFlow)]) samplePhone "oi" []
               emptyEngine in
  fst out = flowError /\
  r_action (fst out) = Some "transfer_human" /\ r_error (fst out) = true /\
  userStates (snd out) = userStates emptyEngine.
Proof.
  apply (first_message_without_entry_flow sampleClock sampleParseFloat
           sampleNumberToString sampleBrain
           (configWith "triagem" [("principal", captureFlow)]) emptyEngine samplePhone
           "oi" []).
  - reflexivity.
  - intros flow H. vm_compute in H. discriminate H.
Defined.

(** An AI step with the threshold 0.7, and an engine that answers with the
    confidence 0.9. *)
Definition aiStep : Step := stepOf "inicio" "ai_response" None None (Some (7 # 10)).

Definition aiConfig : Config := configWith "atendimento" [("principal", {| steps := [aiStep] |})].

Lemma ai_response_threshold_witness :
  let out := processMessage sampleClock sampleParseFloat sampleNumberToString sampleBrain
               aiConfig samplePhone "oi" [] (waitingEngine 0) in
  let reply := sampleBrain "oi" [] in
  (r_fromAI (fst out) = true <->
   exists threshold,
     step_confidence_threshold aiStep = Some threshold /\ (threshold <= snd reply)%Q) /\
  (r_fromAI (fst out) = true ->
   r_message (fst out) = Some (fst reply) /\
   r_confidence (fst out) = Some (snd reply) /\ r_action (fst out) = None) /\
  (r_fromAI (fst out) = false -> present (step_fallback aiStep) = false ->
   r_action (fst out) = Some "transfer_human").
Proof.
  apply (ai_response_threshold sampleClock sampleParseFloat sampleNumberToString
           sampleBrain aiConfig (waitingEngine 0) samplePhone "oi" [] (waitingState 0)
           aiStep).
  - sample_atStep.
  - reflexivity.
  - reflexivity.
Defined.

(** A text with a placeholder and a stray brace, for a user whose context
    holds a phone number only and whose flow has captured nothing. *)
Lemma replaceVariables_verbatim_witness :
  let E := withCaller [("phone", VString samplePhone)] (waitingEngine 0) in
  replaceVariables sampleNumberToString (Some "Olá {name}, digite {") (waitingState 0) E
  = (Returns "Olá {name}, digite {", E).
Proof.
  apply (replaceVariables_verbatim sampleNumberToString
           (withCaller [("phone", VString samplePhone)] (waitingEngine 0))
           (waitingState 0) "Olá {name}, digite {").
  intros key [<-|[]]. reflexivity.
Defined.

(** A name every object inherits is found: the placeholder gives way to the
    text of the constructor of plain objects. *)
Example replaceVariables_inherited_member :
  replaceVariables sampleNumberToString (Some "Olá {constructor}") (waitingState 0)
    (waitingEngine 0)
  = (Returns "Olá function Object() { [native code] }", waitingEngine 0).
Proof. reflexivity. Qed.

Definition sampleResolve (key : string) : option string :=
  if String.eqb key "name" then Some "Ana" else None.

Lemma substitute_placeholder_witness :
  substitute sampleResolve None ("Bom dia, " ++ "{" ++ "name" ++ "}" ++ "! Seu pedido: {pedido}")
  = "Bom dia, " ++ default ("{" ++ "name" ++ "}") (sampleResolve "name")
    ++ substitute sampleResolve None "! Seu pedido: {pedido}".
Proof.
  apply (substitute_placeholder sampleResolve "Bom dia, " "name" "! Seu pedido: {pedido}");
    reflexivity.
Defined.

(** A CPF typed with its punctuation. *)
Lemma document_normal_form_witness :
  VString "52998224725" = VString (Js.digitsOnly "529.982.247-25") /\
  allDigits (Js.digitsOnly "529.982.247-25") = true /\
  (Js.len (Js.digitsOnly "529.982.247-25") = 11 \/
   Js.len (Js.digitsOnly "529.982.247-25") = 14) /\
  validateInput sampleParseFloat (Js.digitsOnly "529.982.247-25") (Some "cpf") emptyEngine
  = (Returns (Accept (VString "52998224725")), emptyEngine).
Proof.
  apply (document_normal_form sampleParseFloat "cpf" "529.982.247-25"
           (VString "52998224725") emptyEngine emptyEngine).
  - left. reflexivity.
  - vm_compute. reflexivity.
Defined.

(** A validator name the engine does not know. *)
Lemma validateInput_unresolved_name_witness :
  validateInput sampleParseFloat " 01310-100 " (Some "zipcode")
  = ret (Accept (VString " 01310-100 ")).
Proof.
  apply (validateInput_unresolved_name sampleParseFloat " 01310-100 " "zipcode").
  - unfold validatorNames. simpl. intros H.
    repeat destruct H as [H|H]; try discriminate H. exact H.
  - reflexivity.
Defined.
End FlowEngine.

(** ** The persistence gateway ([database.js]): the table [ai_training] *)

Module Database.

Record TrainingRow : Type := {
  id : Z;
  input : string;
  output : string;
  confidence : Q;
  usage_count : Z;
  approved : bool
}.

(** The rows in order of insertion, and the next value of the
    [AUTOINCREMENT] key. *)
Record DB : Type := {
  ai_training : list TrainingRow;
  next_id : Z
}.

Definition empty : DB := {| ai_training := []; next_id := 1 |}.

(** [saveTrainingData(input, output, confidence = 0)]: the statement inserts
    the three columns it names; [usage_count] and [approved] take their
    defaults, 0 and 0. *)
Definition saveTrainingData (input output : string) (confidence : Q) (db : DB) : DB :=
  {| ai_training :=
       ai_training db ++
       [ {| id := next_id db; input := input; output := output;
            confidence := confidence; usage_count := 0; approved := false |} ];
     next_id := next_id db + 1 |}.

(** Stable insertion by descending [usage_count]. *)
Fixpoint insertByUsage (r : TrainingRow) (l : list TrainingRow) : list TrainingRow :=
  match l with
  | [] => [r]
  | r' :: l' =>
      if usage_count r' <=? usage_count r then r :: l
      else r' :: insertByUsage r l'
  end.

(** [getTrainingData()]:
    [SELECT * FROM ai_training WHERE approved = 1 ORDER BY usage_count DESC];
    rows with equal counts keep their insertion order. *)
Definition getTrainingData (db : DB) : list TrainingRow :=
  fold_right insertByUsage [] (List.filter approved (ai_training db)).

(** [updateTrainingUsage(id)] *)
Definition updateTrainingUsage (i : Z) (db : DB) : DB :=
  {| ai_training :=
       map (fun r =>
              if id r =? i
              then {| id := id r; input := input r; output := output r;
                      confidence := confidence r;
                      usage_count := usage_count r + 1; approved := approved r |}
              else r)
           (ai_training db);
     next_id := next_id db |}.

(** *** What the three statements guarantee *)

Lemma insertByUsage_perm r l : Permutation (insertByUsage r l) (r :: l).
Proof.
  induction l as [|r' l IH]; [reflexivity|].
  cbn [insertByUsage]. destruct (usage_count r' <=? usage_count r); [reflexivity|].
  rewrite IH. apply perm_swap.
Qed.

(** Most used first. *)
Definition byUsage (l : list TrainingRow) : Prop :=
  StronglySorted (fun a b => usage_count b <= usage_count a) l.

Lemma insertByUsage_sorted r l : byUsage l -> byUsage (insertByUsage r l).
Proof.
  unfold byUsage. induction l as [|r' l IH]; intros Hl.
  - repeat constructor.
  - cbn [insertByUsage]. destruct (usage_count r' <=? usage_count r) eqn:Hle.
    + apply Z.leb_le in Hle. constructor; [exact Hl|].
      inversion Hl as [|? ? Hsorted Hall]. subst.
      constructor; [exact Hle|].
      apply List.Forall_forall. intros x Hx.
      pose proof (proj1 (List.Forall_forall _ _) Hall x Hx). cbn in *. lia.
    + apply Z.leb_gt in Hle. inversion Hl as [|? ? Hsorted Hall]. subst.
      constructor; [apply IH; exact Hsorted|].
      apply List.Forall_forall. intros x Hx.
      apply (Permutation_in _ (insertByUsage_perm r l)) in Hx.
      destruct Hx as [<-|Hx]; [lia|].
      exact (proj1 (List.Forall_forall _ _) Hall x Hx).
Qed.

(** X19 (what the corpus query returns): [getTrainingData] returns the
    approved rows of the table, each as often as the table has it and no
    other row, the most used first. *)
Theorem getTrainingData_approved_by_usage db :
  Permutation (getTrainingData db) (List.filter approved (ai_training db)) /\
  byUsage (getTrainingData db) /\
  forall r, In r (getTrainingData db) <-> In r (ai_training db) /\ approved r = true.
Proof.
  unfold getTrainingData.
  assert (Hperm : forall l, Permutation (fold_right insertByUsage [] l) l).
  { induction l as [|r l IH]; [reflexivity|].
    cbn [fold_right]. rewrite insertByUsage_perm, IH. reflexivity. }
  split; [apply Hperm|]. split.
  - induction (List.filter approved (ai_training db)) as [|r l IH]; [constructor|].
    cbn [fold_right]. apply insertByUsage_sorted. exact IH.
  - intros r. rewrite <- List.filter_In. split; intros H.
    + exact (Permutation_in _ (Hperm _) H).
    + exact (Permutation_in _ (Permutation_sym (Hperm _)) H).
Qed.

(** X20 (a saved example is not in the corpus): the row
    [saveTrainingData] inserts takes the next key and is not approved, so
    the corpus query returns after the insertion exactly what it returned
    before, whatever the input, the reply and the confidence. *)
Theorem saved_example_not_in_corpus input_ output_ confidence_ db :
  let db' := saveTrainingData input_ output_ confidence_ db in
  getTrainingData db' = getTrainingData db /\
  (exists row,
     ai_training db' = (ai_training db ++ [row])%list /\
     id row = next_id db /\ input row = input_ /\ output row = output_ /\
     approved row = false) /\
  next_id db' = next_id db + 1.
Proof.
  cbv zeta. unfold getTrainingData, saveTrainingData. cbn [ai_training next_id].
  rewrite List.filter_app. cbn [List.filter approved]. rewrite app_nil_r.
  split; [reflexivity|]. split; [|reflexivity].
  eexists. split; [reflexivity|]. cbn. auto.
Qed.

(** The keys are distinct and below the next key. *)
Definition keyed (db : DB) : Prop :=
  List.NoDup (map id (ai_training db)) /\
  forall r, In r (ai_training db) -> id r < next_id db.

(** The sum of the usage counts. *)
Definition totalUsage (db : DB) : Z :=
  fold_right (fun r acc => usage_count r + acc) 0 (ai_training db).

Lemma updateTrainingUsage_ids i db :
  map id (ai_training (updateTrainingUsage i db)) = map id (ai_training db).
Proof.
  unfold updateTrainingUsage. cbn [ai_training]. rewrite List.map_map.
  apply List.map_ext. intros r. destruct (id r =? i); reflexivity.
Qed.

Lemma updateTrainingUsage_absent i rows :
  ~ In i (map id rows) ->
  map (fun r =>
         if id r =? i
         then {| id := id r; input := input r; output := output r;
                 confidence := confidence r;
                 usage_count := usage_count r + 1; approved := approved r |}
         else r) rows = rows.
Proof.
  induction rows as [|r rows IH]; intros Hnot; [reflexivity|].
  cbn [map] in *. destruct (Z.eqb_spec (id r) i) as [Heq|Hne].
  - exfalso. apply Hnot. left. exact Heq.
  - f_equal. apply IH. intros H. apply Hnot. right. exact H.
Qed.

(** X21 (one use, one row): on a table whose keys are distinct,
    [updateTrainingUsage] of the key of a row adds one to the usage count of
    that row and changes nothing else, so the total of the counts grows by
    exactly one; a key no row has leaves the table as it is. Both
    [saveTrainingData] and [updateTrainingUsage] keep the keys distinct. *)
Theorem updateTrainingUsage_one_row i db :
  keyed db ->
  (In i (map id (ai_training db)) ->
   totalUsage (updateTrainingUsage i db) = totalUsage db + 1) /\
  (~ In i (map id (ai_training db)) -> updateTrainingUsage i db = db) /\
  keyed (updateTrainingUsage i db) /\
  forall input_ output_ confidence_,
    keyed (saveTrainingData input_ output_ confidence_ db).
Proof.
  intros [Hnodup Hbelow]. split; [|split; [|split]].
  - unfold totalUsage, updateTrainingUsage. cbn [ai_training].
    clear Hbelow. induction (ai_training db) as [|r rows IH]; intros Hin; [destruct Hin|].
    cbn [map] in Hnodup. inversion Hnodup as [|? ? Hnotin Hrest]. subst.
    cbn [map fold_right]. destruct (Z.eqb_spec (id r) i) as [Heq|Hne].
    + rewrite updateTrainingUsage_absent by (rewrite <- Heq; exact Hnotin).
      cbn [usage_count]. lia.
    + destruct Hin as [Hin|Hin]; [contradiction|].
      rewrite (IH Hrest Hin). lia.
  - intros Hnot. unfold updateTrainingUsage.
    rewrite (updateTrainingUsage_absent _ _ Hnot). destruct db; reflexivity.
  - split.
    + rewrite updateTrainingUsage_ids. exact Hnodup.
    + intros r Hr. unfold updateTrainingUsage in *. cbn [ai_training next_id] in *.
      apply List.in_map_iff in Hr as (r0 & <- & Hr0). specialize (Hbelow r0 Hr0).
      destruct (id r0 =? i); exact Hbelow.
  - intros input_ output_ confidence_. unfold saveTrainingData. split.
    + cbn [ai_training]. rewrite List.map_app. cbn [map id].
      apply List.NoDup_app; [exact Hnodup | |].
      * repeat constructor. intros [].
      * intros x Hx [<-|[]]. apply List.in_map_iff in Hx as (r & Hid & Hr).
        specialize (Hbelow r Hr). lia.
    + cbn [ai_training next_id]. intros r Hr.
      apply in_app_or in Hr as [Hr|[<-|[]]]; [specialize (Hbelow r Hr); lia|].
      cbn [id]. lia.
Qed.

(** A table of two approved examples, the second used once. *)
Definition sampleTable : DB :=
  {| ai_training :=
       [ {| id := 1; input := "oi"; output := "Olá!"; confidence := 1;
            usage_count := 0; approved := true |};
         {| id := 2; input := "tchau"; output := "Até logo!"; confidence := 1;
            usage_count := 1; approved := true |} ];
     next_id := 3 |}.

Lemma sampleTable_keyed : keyed sampleTable.
Proof.
  split.
  - cbn. repeat constructor; cbn; intros H; repeat destruct H as [H|H]; try discriminate H;
      exact H.
  - intros r Hr. cbn in Hr. destruct Hr as [<-|[<-|[]]]; cbn; lia.
Qed.

Lemma updateTrainingUsage_one_row_witness :
  (In 2 (map id (ai_training sampleTable)) ->
   totalUsage (updateTrainingUsage 2 sampleTable) = totalUsage sampleTable + 1) /\
  (~ In 2 (map id (ai_training sampleTable)) -> updateTrainingUsage 2 sampleTable = sampleTable) /\
  keyed (updateTrainingUsage 2 sampleTable) /\
  forall input_ output_ confidence_,
    keyed (saveTrainingData input_ output_ confidence_ sampleTable).
Proof. exact (updateTrainingUsage_one_row 2 sampleTable sampleTable_keyed). Defined.

End Database.

(** ** The advanced matching engine ([advanced-brain.js]) *)

Module AdvancedBrain.

Import Database.

(** *** Data model *)

(** An argument as JavaScript passes it. *)
Inductive JsValue : Type :=
| JsUndefined
| JsNull
| JsBoolean (b : bool)
| JsNumber (q : Q)
| JsString (s : string)
| JsObject.

(** The [userContext] argument: left out, [null], or an object whose [phone]
    property may be missing. *)
Inductive Context : Type :=
| NoContext
| NullContext
| ContextOf (phone : option string).

Record Weights : Type := {
  w_tfidf : Q;
  w_levenshtein : Q;
  w_jaroWinkler : Q;
  w_bayes : Q;
  w_context : Q
}.

Record Config : Type := {
  minConfidence : Q;
  learningEnabled : bool;
  maxContextSize : Z;
  similarityThreshold : Q;
  weights : Weights;
  cacheEnabled : bool;
  cacheMaxSize : Z;
  cacheTTL : Z
}.

(** The configuration of the constructor when the environment sets
    nothing. *)
Definition defaultConfig : Config :=
  {| minConfidence := 75 # 100;
     learningEnabled := false;
     maxContextSize := 10;
     similarityThreshold := 85 # 100;
     weights := {| w_tfidf := 30 # 100; w_levenshtein := 25 # 100;
                   w_jaroWinkler := 20 # 100; w_bayes := 15 # 100;
                   w_context := 10 # 100 |};
     cacheEnabled := true;
     cacheMaxSize := 1000;
     cacheTTL := 3600000 |}.

Record Sentiment : Type := {
  score : Q;
  comparative : Q;
  label : string;
  emotions : list string;
  positive : list string;
  negative : list string
}.

(** What [extractEntities] collects. *)
Record Entities : Type := {
  people : list string;
  places : list string;
  organizations : list string;
  dates : list string;
  numbers : list string;
  emails : list string;
  phones : list string;
  custom : Js.Obj (list string)
}.

Definition noEntities : Entities :=
  {| people := []; places := []; organizations := []; dates := [];
     numbers := []; emails := []; phones := []; custom := [] |}.

(** A candidate reply of one algorithm. *)
Record Candidate : Type := {
  c_text : string;
  c_confidence : Q;
  c_algorithm : string;
  c_trainingId : Z
}.

(** The candidates that share a reply text. *)
Record Group : Type := {
  g_text : string;
  g_confidence : Q;
  g_algorithms : list string
}.

(** What [findBestResponse] returns. *)
Record Response : Type := {
  r_text : string;
  r_confidence : Q;
  r_algorithm : string
}.

(** The object [processMessage] returns. *)
Record Result : Type := {
  response : string;
  res_confidence : Q;
  sentiment : Sentiment;
  intent : string;
  entities : Entities;
  keywords : list string;
  needsHumanHandoff : bool;
  processingTime : option Z;
  algorithm : option string;
  error : option string
}.

Record ContextEntry : Type := {
  ce_message : string;
  ce_intent : string;
  ce_sentiment : string;
  ce_timestamp : Z
}.

Record CacheEntry : Type := {
  cached_response : Result;
  cached_timestamp : Z
}.

Record Stats : Type := {
  totalProcessed : Z;
  cacheHits : Z;
  averageConfidence : Q;
  intentDistribution : Js.Obj Z;
  sentimentDistribution : Js.Obj Z
}.

Definition initialStats : Stats :=
  {| totalProcessed := 0; cacheHits := 0; averageConfidence := 0;
     intentDistribution := [];
     sentimentDistribution := [("positive", 0); ("negative", 0); ("neutral", 0)] |}.

(** The engine. [responseCache] is a [Map] read in insertion order, so it is
    kept as the list of its entries, oldest first. [invoked] is not in the
    source: it records, oldest first, each run of a scoring algorithm, the
    way a test would count calls. *)
Record Brain : Type := {
  trainingData : list TrainingRow;
  tfidfDocuments : list string;
  bayesDocuments : list (string * string);
  conversationContext : gmap string (list ContextEntry);
  responseCache : list (string * CacheEntry);
  stats : Stats;
  db : DB;
  ticks : nat;
  invoked : list string
}.

Definition set_trainingData (x : list TrainingRow) (B : Brain) : Brain :=
  let 'Build_Brain _ tf by_ cc rc st d tk iv := B in
  Build_Brain x tf by_ cc rc st d tk iv.

Definition set_tfidfDocuments (x : list string) (B : Brain) : Brain :=
  let 'Build_Brain td _ by_ cc rc st d tk iv := B in
  Build_Brain td x by_ cc rc st d tk iv.

Definition set_bayesDocuments (x : list (string * string)) (B : Brain) : Brain :=
  let 'Build_Brain td tf _ cc rc st d tk iv := B in
  Build_Brain td tf x cc rc st d tk iv.

Definition set_conversationContext (x : gmap string (list ContextEntry)) (B : Brain)
  : Brain :=
  let 'Build_Brain td tf by_ _ rc st d tk iv := B in
  Build_Brain td tf by_ x rc st d tk iv.

Definition set_responseCache (x : list (string * CacheEntry)) (B : Brain) : Brain :=
  let 'Build_Brain td tf by_ cc _ st d tk iv := B in
  Build_Brain td tf by_ cc x st d tk iv.

Definition set_stats (x : Stats) (B : Brain) : Brain :=
  let 'Build_Brain td tf by_ cc rc _ d tk iv := B in
  Build_Brain td tf by_ cc rc x d tk iv.

Definition set_db (x : DB) (B : Brain) : Brain :=
  let 'Build_Brain td tf by_ cc rc st _ tk iv := B in
  Build_Brain td tf by_ cc rc st x tk iv.

Definition set_ticks (x : nat) (B : Brain) : Brain :=
  let 'Build_Brain td tf by_ cc rc st d _ iv := B in
  Build_Brain td tf by_ cc rc st d x iv.

Definition set_invoked (x : list string) (B : Brain) : Brain :=
  let 'Build_Brain td tf by_ cc rc st d tk _ := B in
  Build_Brain td tf by_ cc rc st d tk x.

(** A mutation of the engine. *)
Definition update (f : Brain -> Brain) : M Brain unit := fun B => (Returns tt, f B).

Definition read {A} (f : Brain -> A) : M Brain A := fun B => (Returns (f B), B).

(** The instrumentation: algorithm [name] runs. *)
Definition invoke (name : string) : M Brain unit :=
  update (fun B => set_invoked (invoked B ++ [name]) B).

(** *** Text preparation *)

(** [text.replace(/<[^>]*>/g, '')], scanning left to right; [pending] is the
    text read since an unclosed [<]. A [<] that no [>] follows stays. *)
Fixpoint stripTags (pending : option string) (s : string) : string :=
  match s with
  | EmptyString =>
      match pending with Some buffer => "<" ++ buffer | None => "" end
  | String c s' =>
      match pending with
      | None =>
          if Ascii.eqb c "<" then stripTags (Some "") s'
          else String c (stripTags None s')
      | Some buffer =>
          if Ascii.eqb c ">" then stripTags None s'
          else stripTags (Some (buffer ++ String c "")) s'
      end
  end.

(** The four characters of the second [replace]: the angle brackets and the
    two quotes. *)
Definition dangerous (c : ascii) : bool :=
  existsb (fun n => (nat_of_ascii c =? n)%nat) [60; 62; 34; 39]%nat.

Fixpoint removeDangerous (s : string) : string :=
  match s with
  | String c s' => if dangerous c then removeDangerous s' else String c (removeDangerous s')
  | EmptyString => EmptyString
  end.

(** The high surrogate of the character a four-byte sequence encodes,
    written as the three bytes of its code point: what a cut between the two
    code units of the character leaves of it. The ten bits of the surrogate
    are the top ten of the code point less 65536. *)
Definition highSurrogate (lead : ascii) (rest : string) : string :=
  match rest with
  | String second (String third _) =>
      let bits := (nat_of_ascii lead mod 8 * 256 + nat_of_ascii second mod 64 * 4
                   + nat_of_ascii third mod 64 / 16 - 64)%nat in
      String (ascii_of_nat 237)
        (String (ascii_of_nat (160 + bits / 64))
           (String (ascii_of_nat (128 + bits mod 64)) EmptyString))
  | _ => EmptyString
  end.

(** [s.substring(0, n)]: the first [n] UTF-16 code units of the string. A
    continuation byte goes with the character that was kept before it. *)
Fixpoint substring0 (n : nat) (s : string) : string :=
  match s with
  | EmptyString => EmptyString
  | String c s' =>
      match Js.codeUnits c with
      | O => String c (substring0 n s')
      | S O =>
          match n with
          | O => EmptyString
          | S n' => String c (substring0 n' s')
          end
      | S (S _) =>
          match n with
          | O => EmptyString
          | S O => highSurrogate c s'
          | S (S n') => String c (substring0 n' s')
          end
      end
  end.

Definition sanitizeInput (text : JsValue) : string :=
  match text with
  | JsString s =>
      if negb (Js.nonEmpty s) then ""
      else substring0 1000 (removeDangerous (stripTags None (Js.trim s)))
  | _ => ""
  end.

(** The base letter of a lower-case letter of U+00E0..U+00FF, given the
    second byte of its encoding: what is left of its canonical decomposition
    once the combining marks are removed. *)
Definition baseLetter (second : ascii) : option ascii :=
  let n := nat_of_ascii second in
  if (160 <=? n)%nat && (n <=? 165)%nat then Some "a"%char
  else if (n =? 167)%nat then Some "c"%char
  else if (168 <=? n)%nat && (n <=? 171)%nat then Some "e"%char
  else if (172 <=? n)%nat && (n <=? 175)%nat then Some "i"%char
  else if (n =? 177)%nat then Some "n"%char
  else if (178 <=? n)%nat && (n <=? 182)%nat then Some "o"%char
  else if (185 <=? n)%nat && (n <=? 188)%nat then Some "u"%char
  else if (n =? 189)%nat || (n =? 191)%nat then Some "y"%char
  else None.

(** A combining mark of U+0300..U+036F, by the two bytes of its encoding. *)
Definition combiningMark (first second : ascii) : bool :=
  let a := nat_of_ascii first in
  let b := nat_of_ascii second in
  ((a =? 204)%nat && (128 <=? b)%nat && (b <=? 191)%nat)
  || ((a =? 205)%nat && (128 <=? b)%nat && (b <=? 175)%nat).

(** The chain [normalize('NFD')], removal of the combining marks, and
    replacement of [[^\w\s]] by a space, on ASCII and Latin-1 text: a letter
    with a diacritic gives its base letter, a combining mark goes, and any
    other unit that is neither a word character nor white space gives a
    space. *)
Fixpoint foldAccents (s : string) : string :=
  match s with
  | EmptyString => EmptyString
  | String c s' =>
      match s' with
      | String d s'' =>
          if (nat_of_ascii c =? 195)%nat then
            match baseLetter d with
            | Some b => String b (foldAccents s'')
            | None => String " " (foldAccents s')
            end
          else if combiningMark c d then foldAccents s''
          else if Js.is_word c || Js.is_space c then String c (foldAccents s')
          else String " " (foldAccents s')
      | EmptyString =>
          if Js.is_word c || Js.is_space c then String c EmptyString
          else String " " EmptyString
      end
  end.

(** [s.replace(/\s+/g, ' ')]; [inSpace] tells that the previous unit was
    white space. *)
Fixpoint collapseSpaces (inSpace : bool) (s : string) : string :=
  match s with
  | EmptyString => EmptyString
  | String c s' =>
      if Js.is_space c then
        if inSpace then collapseSpaces true s' else String " " (collapseSpaces true s')
      else String c (collapseSpaces false s')
  end.

Definition preprocessText (text : string) : string :=
  Js.trim (collapseSpaces false (foldAccents (Js.toLowerCase text))).

(** The text is made of characters up to U+00FF: an ASCII byte, or the lead
    byte 194 or 195 followed by one continuation byte. *)
Fixpoint latin1 (s : string) : bool :=
  match s with
  | EmptyString => true
  | String c s' =>
      if (nat_of_ascii c <? 128)%nat then latin1 s'
      else
        match s' with
        | String d s'' =>
            ((nat_of_ascii c =? 194)%nat || (nat_of_ascii c =? 195)%nat)
            && (128 <=? nat_of_ascii d)%nat && (nat_of_ascii d <=? 191)%nat
            && latin1 s''
        | EmptyString => false
        end
  end.

(** *** What the text preparation guarantees *)

(** The units of a string. *)
Definition units (s : string) : list ascii := list_ascii_of_string s.

Lemma codeUnits_continuation k :
  (128 <= k <= 191)%nat -> Js.codeUnits (ascii_of_nat k) = 0%nat.
Proof.
  intros Hk. unfold Js.codeUnits. cbv zeta.
  rewrite nat_ascii_embedding by lia.
  destruct (Nat.leb_spec 128 k); [|lia]. destruct (Nat.leb_spec k 191); [|lia].
  reflexivity.
Qed.

Lemma highSurrogate_length lead rest : (Js.utf16Length (highSurrogate lead rest) <= 1)%nat.
Proof.
  unfold highSurrogate. destruct rest as [|second [|third rest]]; cbn [Js.utf16Length]; try lia.
  cbv zeta.
  set (bits := (nat_of_ascii lead mod 8 * 256 + nat_of_ascii second mod 64 * 4
                + nat_of_ascii third mod 64 / 16 - 64)%nat).
  assert (Hbits : (bits / 64 <= 30)%nat).
  { pose proof (Nat.mod_upper_bound (nat_of_ascii lead) 8 ltac:(lia)).
    pose proof (Nat.mod_upper_bound (nat_of_ascii second) 64 ltac:(lia)).
    pose proof (Nat.mod_upper_bound (nat_of_ascii third) 64 ltac:(lia)).
    assert (nat_of_ascii third mod 64 / 16 < 4)%nat
      by (apply Nat.Div0.div_lt_upper_bound; lia).
    assert (bits / 64 < 31)%nat
      by (apply Nat.Div0.div_lt_upper_bound; unfold bits; lia).
    lia. }
  pose proof (Nat.mod_upper_bound bits 64 ltac:(lia)) as Hmod.
  rewrite (codeUnits_continuation (160 + bits / 64)) by lia.
  rewrite (codeUnits_continuation (128 + bits mod 64)) by lia.
  reflexivity.
Qed.

(** A cut keeps no more code units than it was asked for. *)
Lemma substring0_length s : forall n, (Js.utf16Length (substring0 n s) <= n)%nat.
Proof.
  induction s as [|c s IH]; intros n; [cbn; lia|].
  cbn [substring0]. destruct (Js.codeUnits c) as [|[|k]] eqn:Hc.
  - cbn [Js.utf16Length]. rewrite Hc. exact (IH n).
  - destruct n as [|n]; [cbn; lia|]. cbn [Js.utf16Length]. rewrite Hc.
    specialize (IH n). lia.
  - destruct n as [|[|n]]; [cbn; lia | apply highSurrogate_length |].
    cbn [Js.utf16Length]. rewrite Hc.
    assert (k = 0%nat).
    { unfold Js.codeUnits in Hc. cbv zeta in Hc.
      destruct (_ && _); [discriminate|]. destruct (240 <=? _)%nat; congruence. }
    subst k. specialize (IH n). lia.
Qed.

Lemma highSurrogate_units lead rest c :
  In c (units (highSurrogate lead rest)) -> (128 <= nat_of_ascii c)%nat.
Proof.
  unfold highSurrogate. destruct rest as [|second [|third rest]];
    [intros [] | intros [] |].
  cbv zeta.
  set (bits := (nat_of_ascii lead mod 8 * 256 + nat_of_ascii second mod 64 * 4
                + nat_of_ascii third mod 64 / 16 - 64)%nat).
  assert (Hbits : (bits / 64 <= 30)%nat).
  { pose proof (Nat.mod_upper_bound (nat_of_ascii lead) 8 ltac:(lia)).
    pose proof (Nat.mod_upper_bound (nat_of_ascii second) 64 ltac:(lia)).
    pose proof (Nat.mod_upper_bound (nat_of_ascii third) 64 ltac:(lia)).
    assert (nat_of_ascii third mod 64 / 16 < 4)%nat
      by (apply Nat.Div0.div_lt_upper_bound; lia).
    assert (bits / 64 < 31)%nat
      by (apply Nat.Div0.div_lt_upper_bound; unfold bits; lia).
    lia. }
  pose proof (Nat.mod_upper_bound bits 64 ltac:(lia)) as Hmod.
  cbn [units list_ascii_of_string In].
  intros [<-|[<-|[<-|[]]]]; rewrite nat_ascii_embedding; lia.
Qed.

(** A unit of a cut is a unit of the string, or a byte of the surrogate the
    cut has made, which no ASCII character is. *)
Lemma substring0_units s c : forall n,
  In c (units (substring0 n s)) -> In c (units s) \/ (128 <= nat_of_ascii c)%nat.
Proof.
  induction s as [|d s IH]; intros n H; [destruct H|].
  cbn [substring0] in H. cbn [units list_ascii_of_string In].
  destruct (Js.codeUnits d) as [|[|k]].
  - cbn [units list_ascii_of_string In] in H.
    destruct H as [H|H]; [auto | destruct (IH _ H); auto].
  - destruct n as [|n]; [destruct H|]. cbn [units list_ascii_of_string In] in H.
    destruct H as [H|H]; [auto | destruct (IH _ H); auto].
  - destruct n as [|[|n]]; [destruct H | right; exact (highSurrogate_units _ _ _ H) |].
    cbn [units list_ascii_of_string In] in H.
    destruct H as [H|H]; [auto | destruct (IH _ H); auto].
Qed.

Lemma dangerous_ascii c : dangerous c = true -> (nat_of_ascii c < 128)%nat.
Proof.
  unfold dangerous. cbn [existsb]. rewrite !orb_true_iff.
  intros [H|[H|[H|[H|H]]]]; try discriminate H; apply Nat.eqb_eq in H; lia.
Qed.

Lemma removeDangerous_units s c : In c (units (removeDangerous s)) -> dangerous c = false.
Proof.
  induction s as [|d s IH]; intros H; [destruct H|].
  cbn [removeDangerous] in H. destruct (dangerous d) eqn:Hd; [apply IH; exact H|].
  cbn [units list_ascii_of_string In] in H.
  destruct H as [<-|H]; [exact Hd | apply IH; exact H].
Qed.

(** X12 (the sanitized message): whatever value it is given,
    [sanitizeInput] returns a text of at most 1000 UTF-16 code units (its
    [length]) that contains no angle bracket and no quote. *)
Theorem sanitizeInput_safe text :
  Js.len (sanitizeInput text) <= 1000 /\
  forall c, In c (units (sanitizeInput text)) -> dangerous c = false.
Proof.
  split.
  - unfold sanitizeInput, Js.len. destruct text; cbn [Js.utf16Length]; try lia.
    destruct (negb (Js.nonEmpty s)); cbn [Js.utf16Length]; [lia|].
    pose proof (substring0_length (removeDangerous (stripTags None (Js.trim s))) 1000).
    lia.
  - intros c. unfold sanitizeInput. destruct text; try (intros []).
    destruct (negb (Js.nonEmpty s)); [intros []|].
    intros H. apply substring0_units in H as [H|H].
    + apply removeDangerous_units in H. exact H.
    + destruct (dangerous c) eqn:Hd; [|reflexivity].
      apply dangerous_ascii in Hd. lia.
Qed.

(** A unit of a normalized text: a lower-case letter, a digit, the
    underscore or the space. *)
Definition plain (c : ascii) : bool :=
  Js.is_lower c || Js.is_digit c || Ascii.eqb c "_" || Ascii.eqb c " ".

(** A unit that [foldAccents] keeps or makes, before the white space is
    collapsed. *)
Definition plainOrSpace (c : ascii) : bool := plain c || Js.is_space c.

Lemma lower_byte_not_upper prev c : Js.is_upper (Js.lower_byte prev c) = false.
Proof.
  unfold Js.lower_byte.
  destruct prev as [p|]; [destruct (nat_of_ascii p =? 195)%nat|];
    destruct c as [[] [] [] [] [] [] [] []]; reflexivity.
Qed.

Lemma lower_from_not_upper s : forall prev c,
  In c (units (Js.lower_from prev s)) -> Js.is_upper c = false.
Proof.
  induction s as [|d s IH]; intros prev c H; [destruct H|].
  cbn [Js.lower_from units list_ascii_of_string In] in H.
  destruct H as [<-|H]; [apply lower_byte_not_upper | exact (IH _ _ H)].
Qed.

Lemma word_not_upper_plain c :
  Js.is_upper c = false -> Js.is_word c || Js.is_space c = true -> plainOrSpace c = true.
Proof.
  destruct c as [[] [] [] [] [] [] [] []]; intros H1 H2;
    first [reflexivity | discriminate H1 | discriminate H2].
Qed.

Lemma baseLetter_plain d b : baseLetter d = Some b -> plain b = true.
Proof.
  unfold baseLetter. cbv zeta.
  repeat match goal with
         | |- context [if ?b then _ else _] => destruct b
         end; intros [= <-]; reflexivity.
Qed.

(** Every unit [foldAccents] gives is plain or white space, when the text
    has no capital. *)
Lemma foldAccents_units s :
  (forall c, In c (units s) -> Js.is_upper c = false) ->
  (forall c, In c (units (foldAccents s)) -> plainOrSpace c = true) /\
  (forall d, Js.is_upper d = false ->
             forall c, In c (units (foldAccents (String d s))) -> plainOrSpace c = true).
Proof.
  induction s as [|e s IH]; intros Hs.
  - split; [intros c []|]. intros d Hd c H. cbn [foldAccents] in H.
    destruct (Js.is_word d || Js.is_space d) eqn:Hw;
      cbn [units list_ascii_of_string In] in H; destruct H as [<-|[]];
      [apply word_not_upper_plain; assumption | reflexivity].
  - assert (Hs' : forall c, In c (units s) -> Js.is_upper c = false).
    { intros c Hc. apply Hs. right. exact Hc. }
    assert (He : Js.is_upper e = false) by (apply Hs; left; reflexivity).
    destruct (IH Hs') as [IH1 IH2]. split; [exact (IH2 e He)|].
    intros d Hd c H.
    change (foldAccents (String d (String e s)))
      with (if (nat_of_ascii d =? 195)%nat then
              match baseLetter e with
              | Some b => String b (foldAccents s)
              | None => String " " (foldAccents (String e s))
              end
            else if combiningMark d e then foldAccents s
            else if Js.is_word d || Js.is_space d
                 then String d (foldAccents (String e s))
                 else String " " (foldAccents (String e s))) in H.
    destruct (nat_of_ascii d =? 195)%nat.
    + destruct (baseLetter e) as [b|] eqn:Hb;
        cbn [units list_ascii_of_string In] in H; destruct H as [<-|H].
      * unfold plainOrSpace. rewrite (baseLetter_plain _ _ Hb). reflexivity.
      * exact (IH1 _ H).
      * reflexivity.
      * exact (IH2 e He _ H).
    + destruct (combiningMark d e); [exact (IH1 _ H)|].
      destruct (Js.is_word d || Js.is_space d) eqn:Hw;
        cbn [units list_ascii_of_string In] in H; destruct H as [<-|H].
      * apply word_not_upper_plain; assumption.
      * exact (IH2 e He _ H).
      * reflexivity.
      * exact (IH2 e He _ H).
Qed.

Lemma collapseSpaces_units s : forall inSpace,
  (forall c, In c (units s) -> plainOrSpace c = true) ->
  forall c, In c (units (collapseSpaces inSpace s)) -> plain c = true.
Proof.
  induction s as [|d s IH]; intros inSpace Hs c H; [destruct H|].
  assert (Hs' : forall c, In c (units s) -> plainOrSpace c = true).
  { intros x Hx. apply Hs. right. exact Hx. }
  cbn [collapseSpaces] in H. destruct (Js.is_space d) eqn:Hd.
  - destruct inSpace; [exact (IH _ Hs' _ H)|].
    cbn [units list_ascii_of_string In] in H.
    destruct H as [<-|H]; [reflexivity | exact (IH _ Hs' _ H)].
  - cbn [units list_ascii_of_string In] in H. destruct H as [<-|H]; [|exact (IH _ Hs' _ H)].
    assert (Hp : plainOrSpace d = true) by (apply Hs; left; reflexivity).
    unfold plainOrSpace in Hp. rewrite Hd, orb_false_r in Hp. exact Hp.
Qed.

Lemma trimStart_units s c : In c (units (Js.trimStart s)) -> In c (units s).
Proof.
  induction s as [|d s IH]; intros H; [exact H|].
  cbn [Js.trimStart] in H. destruct (Js.is_space d); [right; apply IH; exact H | exact H].
Qed.

Lemma rev_string_units s : forall acc c,
  In c (units (Js.rev_string acc s)) -> In c (units s) \/ In c (units acc).
Proof.
  induction s as [|d s IH]; intros acc c H; cbn [Js.rev_string] in H.
  - right. exact H.
  - apply IH in H. cbn [units list_ascii_of_string In] in *.
    destruct H as [H|[H|H]]; [left; right; exact H | left; left; exact H | right; exact H].
Qed.

Lemma trim_units s c : In c (units (Js.trim s)) -> In c (units s).
Proof.
  unfold Js.trim, Js.trimEnd. intros H.
  apply rev_string_units in H as [H|[]].
  apply trimStart_units in H. apply rev_string_units in H as [H|[]].
  apply trimStart_units in H. exact H.
Qed.

Lemma preprocessText_units text c :
  In c (units (preprocessText text)) -> plain c = true.
Proof.
  unfold preprocessText. intros H. apply trim_units in H.
  revert c H. apply collapseSpaces_units.
  apply foldAccents_units. intros c H.
  exact (lower_from_not_upper _ _ _ H).
Qed.

(** X13 (the alphabet of a normalized text): for a text of ASCII and
    Latin-1 characters (U+0000 to U+00FF), every unit of
    [preprocessText text] is a lower-case ASCII letter, a digit, the
    underscore or the space: capitals, accents, punctuation, tabs and line
    breaks are gone. *)
Theorem preprocessText_alphabet text c :
  latin1 text = true ->
  In c (units (preprocessText text)) ->
  Js.is_lower c = true \/ Js.is_digit c = true \/ c = "_"%char \/ c = " "%char.
Proof.
  intros _ H. apply preprocessText_units in H. unfold plain in H.
  apply orb_prop in H as [H|H]; [|right; right; right; apply Ascii.eqb_eq; exact H].
  apply orb_prop in H as [H|H]; [|right; right; left; apply Ascii.eqb_eq; exact H].
  apply orb_prop in H as [H|H]; [left | right; left]; exact H.
Qed.

(** A cut counts code units: [é] is one, the emoji two, and a cut between
    the two leaves its high surrogate, U+D83D. *)
Example substring0_counts_code_units :
  Js.len "é😀" = 3 /\
  substring0 1 "é😀" = "é" /\
  substring0 2 "é😀"
  = "é" ++ String (ascii_of_nat 237) (String (ascii_of_nat 160)
                                        (String (ascii_of_nat 189) EmptyString)) /\
  substring0 3 "é😀" = "é😀".
Proof. vm_compute. repeat split; reflexivity. Qed.

(** *** Intent detection *)

Definition atStart (ws : list string) : Regex.RegExp :=
  {| Regex.anchored := Regex.AtStart; Regex.body := Regex.words_ci ws |}.

Definition anywhere (ws : list string) : Regex.RegExp :=
  {| Regex.anchored := Regex.Search; Regex.body := Regex.words_ci ws |}.

(** [/\?$/] *)
Definition endsWithQuestionMark : Regex.RegExp :=
  {| Regex.anchored := Regex.AtEnd; Regex.body := Regex.lit "?" |}.

(** [/obrigad[oa]/i], written out as its two words. *)
Definition obrigad : list string := ["obrigado"; "obrigada"].

(** [initializeIntentPatterns()]: the table [this.intentPatterns], in the
    order of the object literal. *)
Definition intentPatterns : list (string * list Regex.RegExp) :=
  [ ("greeting",
     [atStart ["oi"; "ola"; "olá"; "hey"; "opa"; "eae"; "e ai"; "bom dia";
               "boa tarde"; "boa noite"]]);
    ("farewell",
     [atStart ["tchau"; "ate logo"; "até logo"; "falou"; "flw"; "adeus"; "bye";
               "até mais"]]);
    ("gratitude",
     [anywhere (obrigad ++ ["valeu"; "vlw"; "thanks"; "agradeço"])]);
    ("question",
     [atStart ["qual"; "como"; "quando"; "onde"; "por que"; "porque"; "quem";
               "quanto"];
      endsWithQuestionMark]);
    ("complaint",
     [anywhere ["problema"; "erro"; "bug"; "falha"; "não funciona"; "nao funciona";
                "reclamação"]]);
    ("praise",
     [anywhere ["parabéns"; "parabens"; "excelente"; "ótimo"; "otimo"; "perfeito";
                "maravilhoso"; "amei"]]);
    ("help",
     [anywhere ["ajuda"; "socorro"; "help"; "duvida"; "dúvida"; "como faço";
                "como faco"]]);
    ("purchase",
     [anywhere ["comprar"; "adquirir"; "contratar"; "quero"; "preciso";
                "gostaria de"; "preço"; "preco"; "valor"]]);
    ("support",
     [anywhere ["suporte"; "atendimento"; "falar com"; "preciso de ajuda"]]);
    ("cancel",
     [anywhere ["cancelar"; "desistir"; "não quero"; "nao quero"; "encerrar"]]);
    ("confirm",
     [atStart ["sim"; "yes"; "claro"; "com certeza"; "pode ser"; "ok"; "okay";
               "certo"]]);
    ("deny",
     [atStart ["não"; "nao"; "no"; "negativo"; "nunca"; "jamais"]]) ].

(** The inner loop of [detectIntent]: some pattern of the entry tests true. *)
Fixpoint anyPattern (patterns : list Regex.RegExp) (text : string) : bool :=
  match patterns with
  | [] => false
  | pattern :: rest => if Regex.test pattern text then true else anyPattern rest text
  end.

(** The outer loop of [detectIntent], which returns at the first entry one
    of whose patterns tests true. *)
Fixpoint scanPatterns (table : list (string * list Regex.RegExp)) (text : string)
  : option string :=
  match table with
  | [] => None
  | (intent, patterns) :: rest =>
      if anyPattern patterns text then Some intent else scanPatterns rest text
  end.

(** [extractIntentFromResponse(response)] *)
Definition extractIntentFromResponse (response : string) : string :=
  if Regex.test (anywhere ["saudação"; "olá"; "bem-vindo"]) response then "greeting"
  else if Regex.test (anywhere ["pagamento"; "boleto"; "pix"]) response then "payment"
  else if Regex.test (anywhere ["suporte"; "ajuda"]) response then "support"
  else "general".

(** [detectEmotions(text)] *)
Definition emotionPatterns : list (string * Regex.RegExp) :=
  [ ("joy", anywhere ["feliz"; "alegre"; "contente"; "animado"; "satisfeito";
                      "maravilhoso"; "ótimo"; "excelente"]);
    ("sadness", anywhere ["triste"; "chateado"; "decepcionado"; "frustrado"; "infeliz"]);
    ("anger", anywhere ["raiva"; "irritado"; "furioso"; "bravo"; "puto"; "revoltado"]);
    ("fear", anywhere ["medo"; "receio"; "preocupado"; "ansioso"; "nervoso"]);
    ("surprise", anywhere ["surpreso"; "chocado"; "impressionado"; "uau"]);
    ("disgust", anywhere ["nojo"; "repugnante"; "horrível"; "péssimo"]) ].

Definition detectEmotions (text : string) : list string :=
  map fst (List.filter (fun e => Regex.test (snd e) text) emotionPatterns).

Section Engine.

(** [Date.now()] at its n-th reading. *)
Variable clock : nat -> Z.

(** The libraries. [sentimentAnalyze] gives the score, the comparative score
    and the positive and negative words; [bayesClassify] is the classifier
    trained on the documents added so far, which may throw; [tfidfs] gives
    the measure of the query against each document added so far. *)
Variable sentimentAnalyze : string -> Q * Q * list string * list string.
Variable bayesClassify : list (string * string) -> string -> Outcome string.
Variable tfidfs : list string -> string -> list Q.
Variable levenshtein : string -> string -> Z.
Variable jaroWinkler : string -> string -> Q.

(** The two annotations of the result that play no part in matching. *)
Variable extractEntities : string -> Entities.
Variable extractKeywords : string -> list string.

(** [this.config]. *)
Variable config : Config.

Definition Date_now : M Brain Z :=
  fun B => (Returns (clock (ticks B)), set_ticks (S (ticks B)) B).

Definition analyzeSentiment (text : string) : Sentiment :=
  let '(score, comparative, positive, negative) := sentimentAnalyze text in
  {| score := score; comparative := comparative;
     label := if Qlt_le_dec (2 # 10) comparative then "positive"
              else if Qlt_le_dec comparative (- (2 # 10)) then "negative"
              else "neutral";
     emotions := detectEmotions text;
     positive := positive; negative := negative |}.

(** [detectIntent(text)]: the pattern table first, then the classifier
    inside its [try], then ['unknown']. *)
Definition detectIntent (text : string) : M Brain string :=
  match scanPatterns intentPatterns text with
  | Some intent => ret intent
  | None =>
      do_ invoke "bayes";
      do documents <- read bayesDocuments;
      match bayesClassify documents text with
      | Returns classification =>
          if Js.nonEmpty classification then ret classification else ret "unknown"
      | Throws _ => ret "unknown"
      end
  end.

(** *** Conversation context and cache *)

(** An optional string is truthy when present and non-empty. *)
Definition present (o : option string) : bool :=
  match o with Some s => Js.nonEmpty s | None => false end.

(** [a < b] on numbers. *)
Definition Qltb (a b : Q) : bool := negb (Qle_bool b a).

Definition contextPhone (userContext : Context) : M Brain (option string) :=
  match userContext with
  | NoContext => ret None
  | NullContext => typeError "phone"
  | ContextOf phone => ret phone
  end.

Definition getConversationContext (phone : string) (B : Brain) : list ContextEntry :=
  default [] (conversationContext B !! phone).

(** [context.push(entry)], then [context.shift()] when the array has grown
    past [maxContextSize]. *)
Definition pushBounded (context : list ContextEntry) (entry : ContextEntry)
  : list ContextEntry :=
  let context := (context ++ [entry])%list in
  if maxContextSize config <? Z.of_nat (length context) then tail context else context.

Definition updateConversationContext (phone : option string) (entry : ContextEntry)
  : M Brain unit :=
  match phone with
  | None => ret tt
  | Some phone =>
      if negb (Js.nonEmpty phone) then ret tt
      else
        update (fun B =>
          set_conversationContext
            (<[phone := pushBounded (getConversationContext phone B) entry]>
               (conversationContext B)) B)
  end.

(** [getCachedResponse(message)]: the clock is read only when the key is
    present; an entry older than the TTL is deleted. *)
Definition getCachedResponse (message : string) : M Brain (option Result) :=
  do cache <- read responseCache;
  match Js.own cache message with
  | None => ret None
  | Some cached =>
      do now <- Date_now;
      if cacheTTL config <? now - cached_timestamp cached then
        do_ update (fun B => set_responseCache (Js.remove (responseCache B) message) B);
        ret None
      else ret (Some (cached_response cached))
  end.

(** [cacheResponse(message, response)]: when the cache is full its oldest
    key goes first. *)
Definition cacheResponse (message : string) (response : Result) : M Brain unit :=
  do_ update (fun B =>
        if cacheMaxSize config <=? Z.of_nat (length (responseCache B))
        then set_responseCache (tail (responseCache B)) B
        else B);
  do now <- Date_now;
  update (fun B =>
    set_responseCache
      (Js.set (responseCache B) message
         {| cached_response := response; cached_timestamp := now |}) B).

(** The sweep the timer of [startCacheCleanup] runs. *)
Definition cacheCleanup : M Brain unit :=
  do now <- Date_now;
  update (fun B =>
    set_responseCache
      (List.filter (fun kv => negb (cacheTTL config <? now - cached_timestamp (snd kv)))
              (responseCache B)) B).

(** [clearCache()]; [reset()] clears the cache the same way. *)
Definition clearCache : M Brain unit := update (set_responseCache []).

(** *** Scoring *)

(** Stable insertion by descending score: [sort((a, b) => b.score - a.score)]. *)
Fixpoint insertDesc {A} (key : A -> Q) (x : A) (l : list A) : list A :=
  match l with
  | [] => [x]
  | y :: l' => if Qle_bool (key y) (key x) then x :: l else y :: insertDesc key x l'
  end.

Definition sortDesc {A} (key : A -> Q) (l : list A) : list A :=
  fold_right (insertDesc key) [] l.

(** The documents of the index paired with their position. *)
Fixpoint enumerate {A} (i : nat) (l : list A) : list (nat * A) :=
  match l with
  | [] => []
  | x :: l' => (i, x) :: enumerate (S i) l'
  end.

(** Algorithm 1: the five best TF-IDF measures among the documents whose
    position is that of a training example. *)
Definition tfidfCandidates (processedMessage : string) (B : Brain) : list Candidate :=
  let scores :=
    List.filter (fun s => (fst s <? length (trainingData B))%nat)
           (enumerate 0 (tfidfs (tfidfDocuments B) processedMessage)) in
  let topTfidf := firstn 5 (sortDesc snd scores) in
  flat_map (fun s =>
    match trainingData B !! fst s with
    | Some data =>
        [ {| c_text := output data;
             c_confidence := (snd s * w_tfidf (weights config))%Q;
             c_algorithm := "tfidf"; c_trainingId := id data |} ]
    | None => []
    end) topTfidf.

(** Algorithm 2: edit distance. With both lengths 0 the similarity is not a
    number and no candidate is made. *)
Definition levenshteinCandidates (processedMessage : string) (B : Brain)
  : list Candidate :=
  flat_map (fun data =>
    let distance := levenshtein processedMessage (preprocessText (input data)) in
    let maxLen := Z.max (Js.len processedMessage) (Js.len (input data)) in
    if maxLen =? 0 then []
    else
      let similarity := (1 - inject_Z distance / inject_Z maxLen)%Q in
      if Qltb (5 # 10) similarity then
        [ {| c_text := output data;
             c_confidence := (similarity * w_levenshtein (weights config))%Q;
             c_algorithm := "levenshtein"; c_trainingId := id data |} ]
      else []) (trainingData B).

(** Algorithm 3: Jaro-Winkler. *)
Definition jaroWinklerCandidates (processedMessage : string) (B : Brain)
  : list Candidate :=
  flat_map (fun data =>
    let similarity := jaroWinkler processedMessage (preprocessText (input data)) in
    if Qltb (7 # 10) similarity then
      [ {| c_text := output data;
           c_confidence := (similarity * w_jaroWinkler (weights config))%Q;
           c_algorithm := "jarowinkler"; c_trainingId := id data |} ]
    else []) (trainingData B).

(** [context.slice(-3).map(c => c.intent)] *)
Definition recentIntents (context : list ContextEntry) : list string :=
  map ce_intent (skipn (length context - 3) context).

Definition boost (c : Candidate) : Candidate :=
  {| c_text := c_text c;
     c_confidence := (c_confidence c + w_context (weights config))%Q;
     c_algorithm := c_algorithm c; c_trainingId := c_trainingId c |}.

(** Algorithm 4: the boost of the conversation context. The test inside the
    loop reads [intent], the intent of the message, for every candidate. *)
Definition contextBoost (phone : option string) (intent : string)
  (candidates : list Candidate) (B : Brain) : list Candidate :=
  if present phone then
    let context := getConversationContext (default "" phone) B in
    if (0 <? length context)%nat then
      map (fun candidate =>
             if existsb (String.eqb intent) (recentIntents context)
             then boost candidate else candidate) candidates
    else candidates
  else candidates.

(** The loop that fills [grouped]. A reply text that names a member of
    [Object.prototype] finds that member in the empty object: no group is
    made for it, and [algorithms.push] on it throws. *)
Fixpoint groupCandidates (candidates : list Candidate) (grouped : Js.Obj Group)
  : Outcome (Js.Obj Group) :=
  match candidates with
  | [] => Returns grouped
  | candidate :: rest =>
      match Js.get grouped (c_text candidate) with
      | Js.Inherited =>
          Throws "TypeError: Cannot read properties of undefined (reading 'push')"
      | Js.Undefined =>
          groupCandidates rest
            (Js.set grouped (c_text candidate)
               {| g_text := c_text candidate;
                  g_confidence := (0 + c_confidence candidate)%Q;
                  g_algorithms := [c_algorithm candidate] |})
      | Js.Own group =>
          groupCandidates rest
            (Js.set grouped (c_text candidate)
               {| g_text := g_text group;
                  g_confidence := (g_confidence group + c_confidence candidate)%Q;
                  g_algorithms := (g_algorithms group ++ [c_algorithm candidate])%list |})
      end
  end.

(** [Math.min(x, 1.0)] *)
Definition clamp (x : Q) : Q := if Qle_bool x 1 then x else 1%Q.

(** From [if (candidates.length === 0)] to the end of [findBestResponse]. *)
Definition selectBest (candidates : list Candidate) : M Brain Response :=
  match candidates with
  | [] =>
      ret {| r_text := "Não tenho certeza sobre isso. Você pode reformular sua pergunta?";
             r_confidence := 2 # 10; r_algorithm := "none" |}
  | first :: _ =>
      match groupCandidates candidates [] with
      | Throws e => throw e
      | Returns grouped =>
          match sortDesc g_confidence (Js.values grouped) with
          | [] => typeError "confidence"
          | best :: _ =>
              let confidence := clamp (g_confidence best) in
              do_ (if Qle_bool (minConfidence config) confidence
                   then update (fun B => set_db (updateTrainingUsage (c_trainingId first) (db B)) B)
                   else ret tt);
              ret {| r_text := g_text best; r_confidence := confidence;
                     r_algorithm := String.concat "+" (g_algorithms best) |}
          end
      end
  end.

Definition findBestResponse (processedMessage : string) (userContext : Context)
  (intent : string) : M Brain Response :=
  do training <- read trainingData;
  match training with
  | [] =>
      ret {| r_text := "Ainda estou aprendendo. Em breve poderei ajudar melhor!";
             r_confidence := 3 # 10; r_algorithm := "fallback" |}
  | _ =>
      do_ invoke "tfidf";
      do byTfidf <- read (tfidfCandidates processedMessage);
      do_ invoke "levenshtein";
      do byLevenshtein <- read (levenshteinCandidates processedMessage);
      do_ invoke "jarowinkler";
      do byJaroWinkler <- read (jaroWinklerCandidates processedMessage);
      do phone <- contextPhone userContext;
      do candidates <-
        read (contextBoost phone intent (byTfidf ++ byLevenshtein ++ byJaroWinkler));
      selectBest candidates
  end.

(** *** Learning *)

(** [loadTrainingData()]: the approved rows replace the corpus, and their
    inputs are added to the TF-IDF index once more. *)
Definition loadTrainingData : M Brain unit :=
  update (fun B =>
    let data := List.filter approved (getTrainingData (db B)) in
    set_tfidfDocuments
      (tfidfDocuments B ++ map (fun item => preprocessText (input item)) data)%list
      (set_trainingData data B)).

(** [trainClassifiers()] *)
Definition trainClassifiers : M Brain unit :=
  update (fun B =>
    match trainingData B with
    | [] => B
    | _ =>
        set_bayesDocuments
          (bayesDocuments B ++
           map (fun item => (preprocessText (input item),
                             extractIntentFromResponse (output item)))
               (trainingData B))%list B
    end).

(** [learn(input, output, approved = false)]. The fourth argument of the
    call to [saveTrainingData] has no parameter to receive it. *)
Definition learn (input output : string) (approved : bool) : M Brain bool :=
  try_catch
    (let confidence := if approved then 1%Q else (8 # 10)%Q in
     do_ update (fun B => set_db (saveTrainingData input output confidence (db B)) B);
     do_ update (fun B =>
           set_tfidfDocuments (tfidfDocuments B ++ [preprocessText input])%list B);
     do_ loadTrainingData;
     do_ (if approved then trainClassifiers else ret tt);
     ret true)
    (fun _ => ret false).

Definition learnFromInteraction (input output : string) (confidence : Q)
  : M Brain unit :=
  if Qle_bool (85 # 100) confidence && learningEnabled config
  then do_ learn input output false; ret tt
  else ret tt.

(** *** Statistics *)

Definition increment (o : Js.Obj Z) (k : string) : Js.Obj Z :=
  Js.set o k (default 0 (Js.own o k) + 1).

Definition updateStats (result : Result) : M Brain unit :=
  update (fun B =>
    let s := stats B in
    let total := totalProcessed s + 1 in
    set_stats
      {| totalProcessed := total;
         cacheHits := cacheHits s;
         averageConfidence :=
           ((averageConfidence s * inject_Z (total - 1) + res_confidence result)
            / inject_Z total)%Q;
         intentDistribution := increment (intentDistribution s) (intent result);
         sentimentDistribution :=
           increment (sentimentDistribution s) (label (sentiment result)) |} B).

Definition countCacheHit : M Brain unit :=
  update (fun B =>
    let s := stats B in
    set_stats
      {| totalProcessed := totalProcessed s; cacheHits := cacheHits s + 1;
         averageConfidence := averageConfidence s;
         intentDistribution := intentDistribution s;
         sentimentDistribution := sentimentDistribution s |} B).

(** *** Processing a message *)

(** [getErrorResponse(error)] *)
Definition getErrorResponse (error : string) : Result :=
  {| response := "Desculpe, tive um problema ao processar sua mensagem. Nossa equipe foi notificada.";
     res_confidence := 0;
     sentiment := {| score := 0; comparative := 0; label := "neutral";
                     emotions := []; positive := []; negative := [] |};
     intent := "error";
     entities := noEntities;
     keywords := [];
     needsHumanHandoff := true;
     processingTime := None;
     algorithm := None;
     error := Some error |}.

(** The analysis of a message that the cache does not answer, up to the
    object [result]. *)
Definition analyze (cleanMessage : string) (userContext : Context) (startTime : Z)
  : M Brain Result :=
  let processedMessage := preprocessText cleanMessage in
  let sentimentResult := analyzeSentiment cleanMessage in
  let entities := extractEntities cleanMessage in
  do intent <- detectIntent processedMessage;
  let keywords := extractKeywords processedMessage in
  do phone <- contextPhone userContext;
  do now <- Date_now;
  do_ updateConversationContext phone
        {| ce_message := cleanMessage; ce_intent := intent;
           ce_sentiment := label sentimentResult; ce_timestamp := now |};
  do response <- findBestResponse processedMessage userContext intent;
  do finished <- Date_now;
  ret {| response := r_text response;
         res_confidence := r_confidence response;
         sentiment := sentimentResult;
         intent := intent;
         entities := entities;
         keywords := keywords;
         needsHumanHandoff := Qltb (r_confidence response) (minConfidence config);
         processingTime := Some (finished - startTime);
         algorithm := Some (r_algorithm response);
         error := None |}.

(** What follows the construction of [result]: the cache, the statistics and
    the automatic learning. *)
Definition publish (cleanMessage : string) (result : Result) : M Brain unit :=
  do_ (if cacheEnabled config && Qle_bool (8 # 10) (res_confidence result)
       then cacheResponse cleanMessage result else ret tt);
  do_ updateStats result;
  if learningEnabled config && Qle_bool (85 # 100) (res_confidence result)
  then learnFromInteraction cleanMessage (response result) (res_confidence result)
  else ret tt.

(** The body of the [try] of [processMessage]. *)
Definition processMessage_try (message : JsValue) (userContext : Context)
  (startTime : Z) : M Brain Result :=
  let cleanMessage := sanitizeInput message in
  if negb (Js.nonEmpty cleanMessage) then throw "Empty message after sanitization"
  else
    do cached <- (if cacheEnabled config then getCachedResponse cleanMessage
                  else ret None);
    match cached with
    | Some cached => do_ countCacheHit; ret cached
    | None =>
        do result <- analyze cleanMessage userContext startTime;
        do_ publish cleanMessage result;
        ret result
    end.

(** [processMessage(message, userContext = {})] *)
Definition processMessage (message : JsValue) (userContext : Context) : M Brain Result :=
  do startTime <- Date_now;
  try_catch (processMessage_try message userContext startTime)
    (fun error => ret (getErrorResponse error)).

(** *** Intent detection: priority and fallbacks *)

(** The labels in the order the specification gives. *)
Definition intentOrder : list string :=
  [ "greeting"; "farewell"; "gratitude"; "question"; "complaint"; "praise";
    "help"; "purchase"; "support"; "cancel"; "confirm"; "deny" ].

(** No pattern of any of [entries] tests true on [text]. *)
Definition noneMatches (entries : list (string * list Regex.RegExp)) (text : string)
  : Prop :=
  forall label patterns, In (label, patterns) entries ->
  forall pattern, In pattern patterns -> Regex.test pattern text = false.

(** Some pattern of [patterns] tests true on [text]. *)
Definition someMatches (patterns : list Regex.RegExp) (text : string) : Prop :=
  exists pattern, In pattern patterns /\ Regex.test pattern text = true.

Lemma anyPattern_true patterns text :
  anyPattern patterns text = true <-> someMatches patterns text.
Proof.
  unfold someMatches. induction patterns as [|p ps IH]; simpl.
  - split; [discriminate | intros (p & [] & _)].
  - destruct (Regex.test p text) eqn:Hp.
    + split; [intros _; exists p; auto | reflexivity].
    + rewrite IH. split.
      * intros (q & Hin & Hq). exists q. auto.
      * intros (q & [<- | Hin] & Hq); [congruence | exists q; auto].
Qed.

Lemma anyPattern_false patterns text :
  (forall pattern, In pattern patterns -> Regex.test pattern text = false) ->
  anyPattern patterns text = false.
Proof.
  intros H. destruct (anyPattern patterns text) eqn:Hany; [|reflexivity].
  apply anyPattern_true in Hany as (p & Hin & Hp). rewrite (H p Hin) in Hp. discriminate.
Qed.

Lemma scanPatterns_first before label patterns after text :
  noneMatches before text ->
  someMatches patterns text ->
  scanPatterns (before ++ (label, patterns) :: after)%list text = Some label.
Proof.
  intros Hnone Hsome. induction before as [|[l ps] before IH]; simpl.
  - apply anyPattern_true in Hsome. rewrite Hsome. reflexivity.
  - rewrite anyPattern_false.
    + apply IH. intros l' ps' Hin. apply (Hnone l' ps'). right. exact Hin.
    + apply (Hnone l ps). left. reflexivity.
Qed.

Lemma scanPatterns_none table text :
  noneMatches table text -> scanPatterns table text = None.
Proof.
  intros Hnone. induction table as [|[l ps] table IH]; simpl; [reflexivity|].
  rewrite anyPattern_false.
  - apply IH. intros l' ps' Hin. apply (Hnone l' ps'). right. exact Hin.
  - apply (Hnone l ps). left. reflexivity.
Qed.

(** What [detectIntent] falls back to: the output of the classifier when it
    returns a non-empty label, ['unknown'] when it returns nothing or
    throws. *)
Definition classifierOrUnknown (B : Brain) (text : string) : string :=
  match bayesClassify (bayesDocuments B) text with
  | Returns classification =>
      if Js.nonEmpty classification then classification else "unknown"
  | Throws _ => "unknown"
  end.

(** C6. The pattern table lists the labels greeting, farewell, gratitude,
    question, complaint, praise, help, purchase, support, cancel, confirm,
    deny in this order; [detectIntent] returns the label of the first entry
    one of whose patterns matches the text; when no pattern of the table
    matches it returns the output of the Bayes classifier; and when the
    classifier yields nothing, or throws, it returns ['unknown']. *)
Theorem detectIntent_priority text B :
  map fst intentPatterns = intentOrder /\
  (forall before label patterns after,
     intentPatterns = (before ++ (label, patterns) :: after)%list ->
     noneMatches before text ->
     someMatches patterns text ->
     fst (detectIntent text B) = Returns label) /\
  (noneMatches intentPatterns text ->
   fst (detectIntent text B) = Returns (classifierOrUnknown B text) /\
   (forall classification,
      bayesClassify (bayesDocuments B) text = Returns classification ->
      Js.nonEmpty classification = true ->
      fst (detectIntent text B) = Returns classification) /\
   ((bayesClassify (bayesDocuments B) text = Returns "" \/
     exists e, bayesClassify (bayesDocuments B) text = Throws e) ->
    fst (detectIntent text B) = Returns "unknown")).
Proof.
  split; [reflexivity|]. split.
  - intros before label patterns after Htable Hnone Hsome.
    unfold detectIntent. rewrite Htable.
    rewrite (scanPatterns_first _ _ _ _ _ Hnone Hsome). reflexivity.
  - intros Hnone.
    assert (Hfall : fst (detectIntent text B) = Returns (classifierOrUnknown B text)).
    { unfold detectIntent. rewrite (scanPatterns_none _ _ Hnone).
      unfold classifierOrUnknown, bind, invoke, update, read.
      destruct B as [td tf bd cc rc st d tk iv]. cbn [set_invoked bayesDocuments].
      destruct (bayesClassify bd text) as [c|e]; [|reflexivity].
      destruct (Js.nonEmpty c); reflexivity. }
    split; [exact Hfall|]. split.
    + intros c Hc Hne. rewrite Hfall. unfold classifierOrUnknown. rewrite Hc, Hne.
      reflexivity.
    + intros [Hc | [e Hc]]; rewrite Hfall; unfold classifierOrUnknown; rewrite Hc;
        reflexivity.
Qed.

(** *** [processMessage] never throws *)

(** C10. Whatever the arguments, [processMessage] returns a result. When the
    body of its [try] throws, the result is the error response, whose
    confidence is 0 and whose [needsHumanHandoff] is set. A message that is
    empty after sanitization, as every non-string is, takes this branch. *)
Theorem processMessage_total message userContext B :
  (exists result B', processMessage message userContext B = (Returns result, B')) /\
  (forall e B',
     processMessage_try message userContext (clock (ticks B)) (set_ticks (S (ticks B)) B)
     = (Throws e, B') ->
     processMessage message userContext B = (Returns (getErrorResponse e), B')) /\
  (forall e,
     res_confidence (getErrorResponse e) = 0%Q /\
     needsHumanHandoff (getErrorResponse e) = true) /\
  (sanitizeInput message = "" ->
   processMessage message userContext B
   = (Returns (getErrorResponse "Empty message after sanitization"),
      set_ticks (S (ticks B)) B)) /\
  ((forall s, message <> JsString s) -> sanitizeInput message = "").
Proof.
  unfold processMessage, bind, Date_now, try_catch, ret.
  repeat split.
  - destruct (processMessage_try _ _ _ _) as [[r|e] B']; eauto.
  - intros e B' H. rewrite H. reflexivity.
  - intros Hempty. unfold processMessage_try. rewrite Hempty. reflexivity.
  - intros Hnot. destruct message; try reflexivity. exfalso. apply (Hnot s). reflexivity.
Qed.

(** *** The context boost *)

(** The test of algorithm 4, which no candidate takes part in: the caller
    gave a phone, the phone has a recorded context, and the intent of the
    message is among the last three recorded intents. *)
Definition boostApplies (phone : option string) (intent : string) (B : Brain) : Prop :=
  present phone = true /\
  getConversationContext (default "" phone) B <> [] /\
  In intent (recentIntents (getConversationContext (default "" phone) B)).

Lemma existsb_eqb_In (x : string) (l : list string) :
  existsb (String.eqb x) l = true <-> In x l.
Proof.
  rewrite existsb_exists. split.
  - intros (y & Hin & Heq). apply String.eqb_eq in Heq. subst. exact Hin.
  - intros Hin. exists x. split; [exact Hin | apply String.eqb_refl].
Qed.

Lemma map_if_const {A} (b : bool) (f : A -> A) (l : list A) :
  map (fun x => if b then f x else x) l = if b then map f l else l.
Proof. destruct b; [reflexivity | apply map_id]. Qed.

(** C8 (as amended). The boost of [weights.context] (0.10 by default) is
    added to the confidence of every candidate when the caller gave a phone,
    that phone has a recorded context and the intent detected for the
    current message is among its last three recorded intents; otherwise no
    candidate is changed. The candidate is not looked at: the boost is all
    or nothing. *)
Theorem context_boost_all_or_nothing phone intent candidates B :
  (boostApplies phone intent B ->
   contextBoost phone intent candidates B = map boost candidates /\
   forall c, In c candidates ->
     In (boost c) (contextBoost phone intent candidates B) /\
     c_confidence (boost c) = (c_confidence c + w_context (weights config))%Q) /\
  (~ boostApplies phone intent B ->
   contextBoost phone intent candidates B = candidates).
Proof.
  unfold boostApplies, contextBoost.
  destruct (present phone); cycle 1.
  { split; [intros (H & _); discriminate | reflexivity]. }
  set (context := getConversationContext (default "" phone) B).
  rewrite map_if_const.
  destruct context as [|entry context'] eqn:Hcontext.
  { split; [intros (_ & H & _); contradiction | reflexivity]. }
  cbn [length Nat.ltb Nat.leb].
  destruct (existsb (String.eqb intent) (recentIntents (entry :: context'))) eqn:Hin.
  - apply existsb_eqb_In in Hin. split.
    + intros _. split; [reflexivity|]. intros c Hc. split; [|reflexivity].
      apply in_map. exact Hc.
    + intros Hnot. exfalso. apply Hnot. repeat split; [discriminate | exact Hin].
  - split; [|reflexivity].
    intros (_ & _ & H). apply existsb_eqb_In in H. congruence.
Qed.

Lemma recentIntents_last (l : list ContextEntry) (entry : ContextEntry) :
  In (ce_intent entry) (recentIntents (l ++ [entry])%list).
Proof.
  unfold recentIntents. apply in_map. rewrite length_app. cbn [length].
  rewrite skipn_app. apply in_or_app. right.
  replace (length l + 1 - 3 - length l)%nat with 0%nat by lia.
  left. reflexivity.
Qed.

Lemma pushBounded_recent (old : list ContextEntry) (entry : ContextEntry) :
  1 <= maxContextSize config ->
  pushBounded old entry <> [] /\
  In (ce_intent entry) (recentIntents (pushBounded old entry)).
Proof.
  intros Hsize. unfold pushBounded.
  destruct (maxContextSize config <? Z.of_nat (length (old ++ [entry])%list)) eqn:Hfull.
  - apply Z.ltb_lt in Hfull. rewrite length_app in Hfull. cbn [length] in Hfull.
    destruct old as [|o old']; [cbn [length] in Hfull; lia|].
    cbn [app tail]. split; [destruct old'; discriminate|].
    apply recentIntents_last.
  - split; [destruct old; discriminate|]. apply recentIntents_last.
Qed.

(** X29 (the boost after the update of the context): inside
    [processMessage] the intent of the message has just been recorded, so
    with a phone and room for one entry the test of the boost holds. *)
Lemma boostApplies_after_update phone intent entry B :
  present (Some phone) = true ->
  1 <= maxContextSize config ->
  ce_intent entry = intent ->
  boostApplies (Some phone) intent
    (snd (updateConversationContext (Some phone) entry B)).
Proof.
  intros Hphone Hsize <-. unfold boostApplies, updateConversationContext.
  pose proof Hphone as Hne. cbn [present] in Hne. rewrite Hne.
  cbn [negb update snd]. change (default "" (Some phone)) with phone.
  assert (Hget : getConversationContext phone
                   (set_conversationContext
                      (<[phone := pushBounded (getConversationContext phone B) entry]>
                         (conversationContext B)) B)
                 = pushBounded (getConversationContext phone B) entry).
  { unfold getConversationContext at 1. destruct B. cbn [set_conversationContext conversationContext].
    rewrite lookup_insert_eq. reflexivity. }
  rewrite Hget.
  destruct (pushBounded_recent (getConversationContext phone B) entry Hsize) as [H1 H2].
  auto.
Qed.

(** *** Fusion of the candidates *)

(** The sum of the confidences of the candidates whose reply is [text], in
    the order of the candidates, on top of [start]. *)
Definition sumFor (text : string) (candidates : list Candidate) (start : Q) : Q :=
  fold_left (fun acc c =>
               if String.eqb (c_text c) text then (acc + c_confidence c)%Q else acc)
            candidates start.

(** The aggregate confidence of the group of [text]. *)
Definition aggregate (candidates : list Candidate) (text : string) : Q :=
  sumFor text candidates 0.

(** Some candidate has the reply [text]. *)
Definition mentions (candidates : list Candidate) (text : string) : bool :=
  existsb (fun c => String.eqb (c_text c) text) candidates.

(** Every key appears once and is the text of its group. *)
Definition wellKeyed (grouped : Js.Obj Group) : Prop :=
  List.NoDup (map fst grouped) /\
  forall k g, In (k, g) grouped -> g_text g = k.

Lemma wellKeyed_set grouped k g :
  wellKeyed grouped -> g_text g = k -> wellKeyed (Js.set grouped k g).
Proof.
  intros [Hnd Hkeys] Hg. split; [apply JsFacts.NoDup_keys_set; exact Hnd|].
  intros k' g' Hin. apply JsFacts.In_set in Hin as [[-> ->] | Hin]; [exact Hg | auto].
Qed.

Lemma groupCandidates_spec candidates : forall grouped,
  (forall c, In c candidates -> Js.inherited (c_text c) = false) ->
  wellKeyed grouped ->
  exists grouped',
    groupCandidates candidates grouped = Returns grouped' /\
    wellKeyed grouped' /\
    forall text,
      g_confidence <$> Js.own grouped' text
      = match Js.own grouped text with
        | Some g => Some (sumFor text candidates (g_confidence g))
        | None => if mentions candidates text
                  then Some (sumFor text candidates 0) else None
        end.
Proof.
  induction candidates as [|c rest IH]; intros grouped Hplain Hwell.
  - exists grouped. split; [reflexivity|]. split; [exact Hwell|].
    intros text. simpl. destruct (Js.own grouped text); reflexivity.
  - assert (Hrest : forall c', In c' rest -> Js.inherited (c_text c') = false).
    { intros c' Hin. apply Hplain. right. exact Hin. }
    cbn [groupCandidates]. unfold Js.get.
    destruct (Js.own grouped (c_text c)) as [g|] eqn:Hown.
    + pose proof (JsFacts.own_In _ _ _ Hown) as Hin.
      destruct (IH (Js.set grouped (c_text c)
                      {| g_text := g_text g;
                         g_confidence := (g_confidence g + c_confidence c)%Q;
                         g_algorithms := (g_algorithms g ++ [c_algorithm c])%list |})
                   Hrest) as (grouped' & Hrun & Hwell' & Hsum).
      { apply wellKeyed_set; [exact Hwell|]. simpl. apply (proj2 Hwell). exact Hin. }
      exists grouped'. split; [exact Hrun|]. split; [exact Hwell'|].
      intros text. rewrite Hsum. cbn [sumFor fold_left mentions existsb].
      destruct (String.eqb_spec (c_text c) text) as [<-|Hne].
      * rewrite JsFacts.own_set_eq, Hown. reflexivity.
      * rewrite JsFacts.own_set_ne by exact Hne. cbn [orb].
        destruct (Js.own grouped text); reflexivity.
    + rewrite (Hplain c (or_introl eq_refl)).
      destruct (IH (Js.set grouped (c_text c)
                      {| g_text := c_text c;
                         g_confidence := (0 + c_confidence c)%Q;
                         g_algorithms := [c_algorithm c] |})
                   Hrest) as (grouped' & Hrun & Hwell' & Hsum).
      { apply wellKeyed_set; [exact Hwell | reflexivity]. }
      exists grouped'. split; [exact Hrun|]. split; [exact Hwell'|].
      intros text. rewrite Hsum. cbn [sumFor fold_left mentions existsb].
      destruct (String.eqb_spec (c_text c) text) as [<-|Hne].
      * rewrite JsFacts.own_set_eq, Hown. reflexivity.
      * rewrite JsFacts.own_set_ne by exact Hne. cbn [orb].
        destruct (Js.own grouped text); reflexivity.
Qed.

Lemma In_insertDesc {A} (key : A -> Q) (a x : A) (l : list A) :
  In x (insertDesc key a l) <-> x = a \/ In x l.
Proof.
  induction l as [|y l IH]; simpl; [intuition congruence|].
  destruct (Qle_bool (key y) (key a)); simpl; [intuition congruence|].
  rewrite IH. intuition congruence.
Qed.

Lemma In_sortDesc {A} (key : A -> Q) (x : A) (l : list A) :
  In x (sortDesc key l) <-> In x l.
Proof.
  induction l as [|y l IH]; simpl; [tauto|].
  rewrite In_insertDesc, IH. intuition congruence.
Qed.

(** The first element of a list sorted by descending key has the largest key. *)
Definition headMax {A} (key : A -> Q) (l : list A) : Prop :=
  match l with
  | [] => True
  | b :: _ => forall x, In x l -> (key x <= key b)%Q
  end.

Lemma headMax_insertDesc {A} (key : A -> Q) (a : A) (l : list A) :
  headMax key l -> headMax key (insertDesc key a l).
Proof.
  destruct l as [|y l]; simpl.
  - intros _ x [<- | []]. apply Qle_refl.
  - intros Hmax. destruct (Qle_bool (key y) (key a)) eqn:Hle; simpl.
    + apply Qle_bool_iff in Hle.
      intros x [<- | Hin]; [apply Qle_refl|].
      apply Qle_trans with (key y); [apply Hmax; exact Hin | exact Hle].
    + intros x [<- | Hin]; [apply Qle_refl|].
      apply In_insertDesc in Hin as [-> | Hin].
      * apply Qlt_le_weak. apply Qnot_le_lt. intros H.
        apply Qle_bool_iff in H. congruence.
      * apply Hmax. right. exact Hin.
Qed.

Lemma headMax_sortDesc {A} (key : A -> Q) (l : list A) : headMax key (sortDesc key l).
Proof.
  induction l as [|y l IH]; simpl; [exact I|]. apply headMax_insertDesc. exact IH.
Qed.

Lemma sumFor_nonneg text candidates : forall start,
  (forall c, In c candidates -> (0 <= c_confidence c)%Q) ->
  (0 <= start)%Q -> (0 <= sumFor text candidates start)%Q.
Proof.
  induction candidates as [|c rest IH]; intros start Hpos Hstart; [exact Hstart|].
  cbn [sumFor fold_left]. apply IH.
  - intros c' Hin. apply Hpos. right. exact Hin.
  - destruct (String.eqb (c_text c) text); [|exact Hstart].
    apply Qle_trans with (0 + 0)%Q; [apply Qle_refl|].
    apply Qplus_le_compat; [exact Hstart | apply Hpos; left; reflexivity].
Qed.

Lemma clamp_bounds x : (0 <= x)%Q -> (0 <= clamp x)%Q /\ (clamp x <= 1)%Q.
Proof.
  intros Hx. unfold clamp. destruct (Qle_bool x 1) eqn:Hle.
  - apply Qle_bool_iff in Hle. auto.
  - split; [discriminate | apply Qle_refl].
Qed.

Lemma mentions_In candidates c : In c candidates -> mentions candidates (c_text c) = true.
Proof.
  intros Hin. unfold mentions. apply existsb_exists. exists c.
  split; [exact Hin | apply String.eqb_refl].
Qed.

(** X27 (the fusion on ordinary texts). On reply texts that name no member
    of [Object.prototype]: the candidates are grouped by text, the confidences of a group are
    summed, and the group with the largest sum is returned with its sum
    clamped to 1; with non-negative contributions the returned confidence
    lies in [0, 1]. *)
Lemma selectBest_fuses candidates B :
  candidates <> [] ->
  (forall c, In c candidates -> Js.inherited (c_text c) = false) ->
  exists r B',
    selectBest candidates B = (Returns r, B') /\
    mentions candidates (r_text r) = true /\
    r_confidence r = clamp (aggregate candidates (r_text r)) /\
    (forall c, In c candidates ->
       (aggregate candidates (c_text c) <= aggregate candidates (r_text r))%Q) /\
    ((forall c, In c candidates -> (0 <= c_confidence c)%Q) ->
     (0 <= r_confidence r)%Q /\ (r_confidence r <= 1)%Q).
Proof.
  intros Hne Hplain.
  destruct candidates as [|first rest]; [congruence|].
  remember (first :: rest) as candidates eqn:Hcands.
  assert (Hfirst : In first candidates) by (subst candidates; left; reflexivity).
  destruct (groupCandidates_spec candidates [] Hplain) as (grouped & Hrun & Hwell & Hsum).
  { split; [constructor | intros k g []]. }
  assert (Hgroup : forall g, In g (map snd grouped) ->
            mentions candidates (g_text g) = true /\
            g_confidence g = aggregate candidates (g_text g)).
  { intros g Hin. apply in_map_iff in Hin as ([k g'] & Heq & Hin). simpl in Heq. subst g'.
    pose proof (proj2 Hwell k g Hin) as Hk.
    pose proof (JsFacts.In_own _ _ _ (proj1 Hwell) Hin) as Hown.
    specialize (Hsum k). rewrite Hown in Hsum. cbn [Js.own fmap option_fmap option_map] in Hsum.
    rewrite Hk. destruct (mentions candidates k); [|discriminate].
    split; [reflexivity|]. injection Hsum as Hsum. exact Hsum. }
  assert (Hfind : forall c, In c candidates ->
            exists g, In g (map snd grouped) /\ g_text g = c_text c).
  { intros c Hin. specialize (Hsum (c_text c)). cbn [Js.own] in Hsum.
    rewrite (mentions_In _ _ Hin) in Hsum.
    destruct (Js.own grouped (c_text c)) as [g|] eqn:Hown; [|discriminate].
    apply JsFacts.own_In in Hown. exists g. split.
    - apply in_map_iff. exists (c_text c, g). auto.
    - apply (proj2 Hwell). exact Hown. }
  subst candidates. unfold selectBest. rewrite Hrun.
  pose proof (headMax_sortDesc g_confidence (Js.values grouped)) as Hmax.
  destruct (sortDesc g_confidence (Js.values grouped)) as [|best others] eqn:Hsorted.
  { exfalso. destruct (Hfind first Hfirst) as (g & Hin & _).
    apply (Permutation_in _ (Permutation_sym (JsFacts.values_perm grouped))) in Hin.
    apply (In_sortDesc g_confidence) in Hin. rewrite Hsorted in Hin. exact Hin. }
  assert (Hbest : In best (map snd grouped)).
  { apply (Permutation_in _ (JsFacts.values_perm grouped)).
    apply (In_sortDesc g_confidence). rewrite Hsorted. left. reflexivity. }
  destruct (Hgroup best Hbest) as [Hmention Hagg].
  assert (Hprops :
    mentions (first :: rest) (g_text best) = true /\
    clamp (g_confidence best) = clamp (aggregate (first :: rest) (g_text best)) /\
    (forall c, In c (first :: rest) ->
       (aggregate (first :: rest) (c_text c) <= aggregate (first :: rest) (g_text best))%Q) /\
    ((forall c, In c (first :: rest) -> (0 <= c_confidence c)%Q) ->
     (0 <= clamp (g_confidence best))%Q /\ (clamp (g_confidence best) <= 1)%Q)).
  { split; [exact Hmention|]. split; [rewrite Hagg; reflexivity|]. split.
    - intros c Hin. destruct (Hfind c Hin) as (g & Hg & Htext).
      destruct (Hgroup g Hg) as [_ Hgagg]. rewrite <- Htext, <- Hgagg, <- Hagg.
      apply Hmax. rewrite <- Hsorted.
      apply (In_sortDesc g_confidence).
      apply (Permutation_in _ (Permutation_sym (JsFacts.values_perm grouped))). exact Hg.
    - intros Hpos. apply clamp_bounds. rewrite Hagg.
      apply sumFor_nonneg; [exact Hpos | apply Qle_refl]. }
  unfold bind.
  destruct (Qle_bool (minConfidence config) (clamp (g_confidence best)));
    eexists; eexists; (split; [reflexivity | exact Hprops]).
Qed.

(** *** The cache *)

Lemma getCachedResponse_expired message entry B :
  Js.own (responseCache B) message = Some entry ->
  cacheTTL config < clock (ticks B) - cached_timestamp entry ->
  getCachedResponse message B
  = (Returns None,
     set_responseCache (Js.remove (responseCache B) message) (set_ticks (S (ticks B)) B)).
Proof.
  intros Hown Hold. unfold getCachedResponse, bind, read, Date_now, update, ret.
  rewrite Hown. apply Z.ltb_lt in Hold. rewrite Hold.
  destruct B; reflexivity.
Qed.

Lemma getCachedResponse_fresh message entry B :
  Js.own (responseCache B) message = Some entry ->
  clock (ticks B) - cached_timestamp entry <= cacheTTL config ->
  getCachedResponse message B
  = (Returns (Some (cached_response entry)), set_ticks (S (ticks B)) B).
Proof.
  intros Hown Hfresh. unfold getCachedResponse, bind, read, Date_now, update, ret.
  rewrite Hown. apply Z.ltb_ge in Hfresh. rewrite Hfresh. reflexivity.
Qed.

(** A message whose sanitized text has a live entry is answered from the
    cache: neither the intent detection nor the scoring runs. *)
Lemma processMessage_cache_hit message userContext entry B :
  cacheEnabled config = true ->
  Js.nonEmpty (sanitizeInput message) = true ->
  Js.own (responseCache B) (sanitizeInput message) = Some entry ->
  clock (S (ticks B)) - cached_timestamp entry <= cacheTTL config ->
  exists B',
    processMessage message userContext B = (Returns (cached_response entry), B') /\
    invoked B' = invoked B /\
    responseCache B' = responseCache B.
Proof.
  intros Hon Hclean Hown Hfresh.
  unfold processMessage, bind, Date_now, try_catch, processMessage_try.
  rewrite Hclean, Hon. cbn [negb]. unfold bind.
  rewrite (getCachedResponse_fresh _ entry).
  - unfold countCacheHit, update, ret. eexists. split; [reflexivity|].
    destruct B; split; reflexivity.
  - destruct B; exact Hown.
  - destruct B; exact Hfresh.
Qed.

Lemma learn_frame input output approved_ B :
  exists b B', learn input output approved_ B = (Returns b, B') /\
    responseCache B' = responseCache B /\ invoked B' = invoked B.
Proof.
  unfold learn, try_catch, bind, update, loadTrainingData, trainClassifiers, ret.
  destruct B as [td tf bd cc rc st d tk iv].
  destruct approved_; cbn -[saveTrainingData getTrainingData preprocessText];
    [|eexists; eexists; split; [reflexivity | split; reflexivity]].
  destruct (List.filter approved _);
    eexists; eexists; (split; [reflexivity | split; reflexivity]).
Qed.

Lemma cacheResponse_stores message response_ B :
  exists B' stamp,
    cacheResponse message response_ B = (Returns tt, B') /\
    Js.own (responseCache B') message
    = Some {| cached_response := response_; cached_timestamp := stamp |} /\
    invoked B' = invoked B.
Proof.
  unfold cacheResponse, bind, update, Date_now.
  destruct (cacheMaxSize config <=? Z.of_nat (length (responseCache B))); destruct B;
    cbn [set_responseCache set_ticks responseCache ticks invoked];
    eexists; eexists; (split; [reflexivity|]);
    cbn [set_responseCache set_ticks responseCache ticks invoked];
    (split; [apply JsFacts.own_set_eq | reflexivity]).
Qed.

Lemma updateStats_frame result B :
  exists B',
    updateStats result B = (Returns tt, B') /\
    responseCache B' = responseCache B /\ invoked B' = invoked B.
Proof.
  unfold updateStats, update. eexists. split; [reflexivity|].
  destruct B; split; reflexivity.
Qed.

Lemma learnFromInteraction_frame input output confidence B :
  exists B',
    learnFromInteraction input output confidence B = (Returns tt, B') /\
    responseCache B' = responseCache B /\ invoked B' = invoked B.
Proof.
  unfold learnFromInteraction.
  destruct (Qle_bool (85 # 100) confidence && learningEnabled config).
  - unfold bind. destruct (learn_frame input output false B) as (b & B' & H & Hc & Hi).
    rewrite H. exists B'. auto.
  - exists B. auto.
Qed.

(** Once [result] is built with a confidence of 0.8 or more and the cache is
    on, the rest of [processMessage] stores it under the sanitized text and
    runs no algorithm. *)
Lemma publish_caches cleanMessage result B :
  cacheEnabled config = true ->
  Qle_bool (8 # 10) (res_confidence result) = true ->
  exists B' stamp,
    publish cleanMessage result B = (Returns tt, B') /\
    Js.own (responseCache B') cleanMessage
    = Some {| cached_response := result; cached_timestamp := stamp |} /\
    invoked B' = invoked B.
Proof.
  intros Hon Hconf. unfold publish. rewrite Hon, Hconf. cbn [andb].
  destruct (cacheResponse_stores cleanMessage result B) as (B1 & stamp & H1 & Hown & Hi1).
  destruct (updateStats_frame result B1) as (B2 & H2 & Hc2 & Hi2).
  unfold bind. rewrite H1, H2.
  destruct (learningEnabled config && Qle_bool (85 # 100) (res_confidence result)).
  - destruct (learnFromInteraction_frame cleanMessage (response result)
                (res_confidence result) B2) as (B3 & H3 & Hc3 & Hi3).
    rewrite H3. exists B3, stamp. split; [reflexivity|].
    rewrite Hc3, Hc2, Hi3, Hi2. auto.
  - exists B2, stamp. split; [reflexivity|]. rewrite Hc2, Hi2. auto.
Qed.

Lemma getCachedResponse_cases message B :
  exists B',
    getCachedResponse message B = (Returns None, B') \/
    exists entry,
      getCachedResponse message B = (Returns (Some (cached_response entry)), B') /\
      Js.own (responseCache B') message = Some entry /\
      invoked B' = invoked B.
Proof.
  unfold getCachedResponse, bind, read, Date_now, update, ret.
  destruct (Js.own (responseCache B) message) as [entry|] eqn:Hown.
  - destruct (cacheTTL config <? clock (ticks B) - cached_timestamp entry).
    + eexists. left. reflexivity.
    + eexists. right. exists entry. split; [reflexivity|].
      destruct B; split; [exact Hown | reflexivity].
  - eexists. left. reflexivity.
Qed.

Lemma error_not_confident e : Qle_bool (8 # 10) (res_confidence (getErrorResponse e)) = false.
Proof. reflexivity. Qed.

(** A result returned with a confidence of 0.8 or more is in the cache when
    [processMessage] returns, under the sanitized text of the message. *)
Lemma processMessage_caches message userContext B r B1 :
  cacheEnabled config = true ->
  processMessage message userContext B = (Returns r, B1) ->
  Qle_bool (8 # 10) (res_confidence r) = true ->
  Js.nonEmpty (sanitizeInput message) = true /\
  exists entry,
    Js.own (responseCache B1) (sanitizeInput message) = Some entry /\
    cached_response entry = r.
Proof.
  intros Hon Hrun Hconf.
  unfold processMessage, bind, Date_now, try_catch, processMessage_try in Hrun.
  destruct (Js.nonEmpty (sanitizeInput message)) eqn:Hclean; cbn [negb] in Hrun.
  2:{ unfold throw, ret in Hrun. injection Hrun as <- _.
      rewrite error_not_confident in Hconf. discriminate. }
  split; [reflexivity|].
  rewrite Hon in Hrun. unfold bind in Hrun.
  destruct (getCachedResponse_cases (sanitizeInput message) (set_ticks (S (ticks B)) B))
    as (Bc & [Hmiss | (entry & Hhit & Hown & _)]).
  - rewrite Hmiss in Hrun.
    destruct (analyze (sanitizeInput message) userContext (clock (ticks B)) Bc)
      as [[result|e] Ba] eqn:Hanalyze.
    + destruct (publish (sanitizeInput message) result Ba) as [[[]|e] Bp] eqn:Hpublish.
      * unfold ret in Hrun. injection Hrun as <- <-.
        destruct (publish_caches (sanitizeInput message) result Ba Hon Hconf)
          as (B' & stamp & Hp & Hown & _).
        rewrite Hp in Hpublish. injection Hpublish as <-.
        eexists. split; [exact Hown | reflexivity].
      * unfold ret in Hrun. injection Hrun as <- _.
        rewrite error_not_confident in Hconf. discriminate.
    + unfold ret in Hrun. injection Hrun as <- _.
      rewrite error_not_confident in Hconf. discriminate.
  - rewrite Hhit in Hrun. unfold countCacheHit, update, ret in Hrun.
    injection Hrun as <- <-.
    exists entry. split; [|reflexivity]. destruct Bc; exact Hown.
Qed.

(** An entry looked up strictly more than the TTL after its time stamp is
    not returned, and the lookup deletes it. *)
Lemma getCachedResponse_drops message entry B :
  Js.own (responseCache B) message = Some entry ->
  cacheTTL config < clock (ticks B) - cached_timestamp entry ->
  fst (getCachedResponse message B) = Returns None /\
  Js.own (responseCache (snd (getCachedResponse message B))) message = None.
Proof.
  intros Hown Hold.
  rewrite (getCachedResponse_expired _ _ _ Hown Hold). cbn [fst snd].
  split; [reflexivity|]. destruct B. cbn [set_ticks set_responseCache responseCache].
  apply JsFacts.own_remove_eq.
Qed.

(** The result a call returned with a confidence of 0.8 or more is returned
    again, without any scoring, by a call on the same sanitized text in any
    later state of the engine that still has the entry of the first call,
    when the lookup falls within the TTL of the entry. *)
Lemma processMessage_again first second userContext1 userContext2 B r B1 B2 :
  cacheEnabled config = true ->
  processMessage first userContext1 B = (Returns r, B1) ->
  Qle_bool (8 # 10) (res_confidence r) = true ->
  sanitizeInput second = sanitizeInput first ->
  Js.own (responseCache B2) (sanitizeInput first)
  = Js.own (responseCache B1) (sanitizeInput first) ->
  (forall entry,
     Js.own (responseCache B2) (sanitizeInput first) = Some entry ->
     clock (S (ticks B2)) - cached_timestamp entry <= cacheTTL config) ->
  exists B3,
    processMessage second userContext2 B2 = (Returns r, B3) /\
    invoked B3 = invoked B2.
Proof.
  intros Hon Hrun Hconf Hsame Hstill Hfresh.
  destruct (processMessage_caches _ _ _ _ _ Hon Hrun Hconf)
    as (Hclean & entry & Hown & <-).
  rewrite <- Hstill in Hown. specialize (Hfresh entry Hown).
  rewrite <- Hsame in Hclean, Hown.
  destruct (processMessage_cache_hit second userContext2 entry B2 Hon Hclean Hown Hfresh)
    as (B3 & Hhit & Hinv & _).
  exists B3. auto.
Qed.

(** *** Reply texts that name a member of [Object.prototype] *)

Lemma groupCandidates_inherited candidates : forall grouped,
  (forall k, In k (map fst grouped) -> Js.inherited k = false) ->
  (exists c, In c candidates /\ Js.inherited (c_text c) = true) ->
  exists e, groupCandidates candidates grouped = Throws e.
Proof.
  induction candidates as [|c rest IH]; intros grouped Hkeys (bad & Hin & Hbad).
  - destruct Hin.
  - cbn [groupCandidates]. unfold Js.get.
    destruct (Js.own grouped (c_text c)) as [g|] eqn:Hown.
    + assert (Hc : Js.inherited (c_text c) = false).
      { apply Hkeys. apply JsFacts.own_In in Hown. apply (in_map fst) in Hown. exact Hown. }
      apply IH.
      * intros k Hk. rewrite JsFacts.keys_set, Hown in Hk. apply Hkeys. exact Hk.
      * destruct Hin as [<- | Hin]; [congruence | eauto].
    + destruct (Js.inherited (c_text c)) eqn:Hc; [eexists; reflexivity|].
      apply IH.
      * intros k Hk. rewrite JsFacts.keys_set, Hown in Hk.
        apply in_app_or in Hk as [Hk | [<- | []]]; [apply Hkeys; exact Hk | exact Hc].
      * destruct Hin as [<- | Hin]; [congruence | eauto].
Qed.

(** C5, at the inputs where the code departs from it. When the reply text of
    a candidate is the name of a member of [Object.prototype] (such as
    [constructor] or [toString]), the empty object [grouped] already answers
    for that key: no group is created, and the fusion throws instead of
    returning a group. *)
Theorem selectBest_inherited_text candidates B :
  (exists c, In c candidates /\ Js.inherited (c_text c) = true) ->
  exists e, selectBest candidates B = (Throws e, B).
Proof.
  intros Hbad. unfold selectBest.
  destruct candidates as [|first rest]; [destruct Hbad as (c & [] & _)|].
  destruct (groupCandidates_inherited (first :: rest) []) as (e & He).
  - intros k [].
  - exact Hbad.
  - rewrite He. exists e. reflexivity.
Qed.

(** *** Learning never rejects *)

(** X28 (the advanced engine learns anything, and nothing): [learn]
    compares the input with nothing: it stores the pair and returns true. The row it stores is not approved, so the corpus, which holds the
    approved rows, is what it was in the table before. *)
Lemma learn_accepts input_ output_ approved_ B :
  exists B',
    learn input_ output_ approved_ B = (Returns true, B') /\
    ai_training (db B')
    = (ai_training (db B) ++
       [ {| id := next_id (db B); input := input_; output := output_;
            confidence := if approved_ then 1%Q else (8 # 10)%Q;
            usage_count := 0; approved := false |} ])%list /\
    trainingData B' = List.filter approved (getTrainingData (db B)).
Proof.
  unfold learn, try_catch, bind, update, loadTrainingData, trainClassifiers, ret.
  assert (Hsame : forall c,
            getTrainingData (saveTrainingData input_ output_ c (db B))
            = getTrainingData (db B)).
  { intros c. unfold getTrainingData, saveTrainingData. cbn [ai_training].
    rewrite List.filter_app. cbn [List.filter approved]. rewrite app_nil_r. reflexivity. }
  destruct B as [td tf bd cc rc st d tk iv]. cbn [db] in Hsame.
  destruct approved_;
    cbn -[getTrainingData saveTrainingData preprocessText extractIntentFromResponse];
    rewrite !Hsame.
  - destruct (List.filter approved (getTrainingData d)) eqn:Hf;
      eexists; (split; [reflexivity|]); split; reflexivity.
  - eexists. split; [reflexivity|]. split; reflexivity.
Qed.

(** The two states of the matcher of [/\?$/]: before and just after a
    question mark. *)
Definition questionAhead : Regex.re :=
  Regex.Cat (Regex.Star Regex.any) (Regex.lit "?").

Lemma deriv_questionAhead c :
  Regex.deriv c questionAhead
  = if Ascii.eqb "?" c then Regex.Alt questionAhead Regex.Eps else questionAhead.
Proof. cbn -[Ascii.eqb]. destruct (Ascii.eqb "?" c); reflexivity. Qed.

Lemma matches_questionAhead s :
  (Regex.matches questionAhead s = true -> In "?"%char (units s)) /\
  (Regex.matches (Regex.Alt questionAhead Regex.Eps) s = true ->
   s = "" \/ In "?"%char (units s)).
Proof.
  induction s as [|c s [IH0 IH1]].
  - split; [discriminate | auto].
  - assert (Hstep : Regex.matches (Regex.deriv c questionAhead) s = true ->
                    In "?"%char (units (String c s))).
    { rewrite deriv_questionAhead. destruct (Ascii.eqb_spec "?"%char c) as [<-|_].
      - intros _. left. reflexivity.
      - intros H. right. exact (IH0 H). }
    split.
    + exact Hstep.
    + intros H. right. apply Hstep.
      change (Regex.matches (Regex.deriv c (Regex.Alt questionAhead Regex.Eps)) s = true) in H.
      cbn [Regex.deriv] in H. fold questionAhead in H.
      change (Regex.deriv c Regex.Eps) with Regex.Void in H.
      destruct (Regex.deriv c questionAhead); exact H.
Qed.

(** X14 (the question mark is gone before the intent is detected): the
    pattern [/\?$/] of the [question] intent never tests true on a
    normalized text, which is the text [processMessage] gives to
    [detectIntent]; a question is recognised by its first word only. *)
Theorem question_mark_never_detected text :
  Regex.test endsWithQuestionMark (preprocessText text) = false.
Proof.
  destruct (Regex.test endsWithQuestionMark (preprocessText text)) eqn:Htest; [|reflexivity].
  unfold Regex.test, endsWithQuestionMark in Htest. cbn [Regex.anchored Regex.body] in Htest.
  apply (proj1 (matches_questionAhead _)) in Htest.
  apply preprocessText_units in Htest. discriminate Htest.
Qed.

(** *** Bounded memory *)

(** The computation keeps the property [P] of the engine. *)
Definition Preserves (P : Brain -> Prop) {A} (m : M Brain A) : Prop :=
  forall B, P B -> P (snd (m B)).

Section Preservation.

Variable P : Brain -> Prop.

Lemma preserves_ret {A} (a : A) : Preserves P (ret a).
Proof. intros B H. exact H. Qed.

Lemma preserves_throw {A} e : Preserves P (@throw Brain A e).
Proof. intros B H. exact H. Qed.

Lemma preserves_typeError {A} what : Preserves P (@typeError Brain A what).
Proof. intros B H. exact H. Qed.

Lemma preserves_read {A} (f : Brain -> A) : Preserves P (read f).
Proof. intros B H. exact H. Qed.

Lemma preserves_update f : (forall B, P B -> P (f B)) -> Preserves P (update f).
Proof. intros Hf B H. exact (Hf B H). Qed.

Lemma preserves_bind {A C} (m : M Brain A) (k : A -> M Brain C) :
  Preserves P m -> (forall a, Preserves P (k a)) -> Preserves P (bind m k).
Proof.
  intros Hm Hk B H. unfold bind. specialize (Hm B H).
  destruct (m B) as [[a|e] B']; cbn [snd] in *; [|exact Hm].
  apply Hk. exact Hm.
Qed.

Lemma preserves_try_catch {A} (m : M Brain A) (h : string -> M Brain A) :
  Preserves P m -> (forall e, Preserves P (h e)) -> Preserves P (try_catch m h).
Proof.
  intros Hm Hh B H. unfold try_catch. specialize (Hm B H).
  destruct (m B) as [[a|e] B']; cbn [snd] in *; [exact Hm|].
  apply Hh. exact Hm.
Qed.

End Preservation.

(** The structural steps of a proof of [Preserves]; an [update] is closed
    when it leaves the fields [P] reads as they are. *)
Ltac preserve :=
  repeat first
    [ apply preserves_ret | apply preserves_throw | apply preserves_typeError
    | apply preserves_read
    | assumption
    | match goal with H : forall _, Preserves _ _ |- _ => apply H end
    | match goal with H : forall _ _, Preserves _ _ |- _ => apply H end
    | match goal with H : forall _ _ _, Preserves _ _ |- _ => apply H end
    | apply preserves_update; intros [] ?; assumption
    | apply preserves_bind; [|intros ?]
    | apply preserves_try_catch; [|intros ?]
    | match goal with
      | |- Preserves _ (if ?b then _ else _) => destruct b
      | |- Preserves _ (match ?x with _ => _ end) => destruct x
      | |- Preserves _ (let _ := _ in _) => cbv zeta
      end ].

(** No conversation holds more than [maxContextSize] entries. *)
Definition contextBounded (B : Brain) : Prop :=
  forall phone context,
    conversationContext B !! phone = Some context ->
    Z.of_nat (length context) <= maxContextSize config.

(** The cache holds at most [cacheMaxSize] answers. *)
Definition cacheBounded (B : Brain) : Prop :=
  Z.of_nat (length (responseCache B)) <= cacheMaxSize config.

(** [P] reads the conversations and the cache only. *)
Definition ReadsMemory (P : Brain -> Prop) : Prop :=
  forall B B',
    conversationContext B' = conversationContext B ->
    responseCache B' = responseCache B ->
    P B -> P B'.

Lemma contextBounded_reads : ReadsMemory contextBounded.
Proof. intros B B' Hc _ H. unfold contextBounded. rewrite Hc. exact H. Qed.

Lemma cacheBounded_reads : ReadsMemory cacheBounded.
Proof. intros B B' _ Hr H. unfold cacheBounded. rewrite Hr. exact H. Qed.

Section Memory.

Variable P : Brain -> Prop.
Hypothesis P_reads : ReadsMemory P.

Lemma preserves_frame f :
  (forall B, conversationContext (f B) = conversationContext B /\
             responseCache (f B) = responseCache B) ->
  Preserves P (update f).
Proof.
  intros Hf. apply preserves_update. intros B H.
  destruct (Hf B) as [Hc Hr]. exact (P_reads B (f B) Hc Hr H).
Qed.

Lemma preserves_Date_now : Preserves P Date_now.
Proof. apply preserves_frame. intros []. split; reflexivity. Qed.

Lemma preserves_invoke name : Preserves P (invoke name).
Proof. apply preserves_frame. intros []. split; reflexivity. Qed.

Lemma preserves_contextPhone userContext : Preserves P (contextPhone userContext).
Proof. destruct userContext; intros B H; exact H. Qed.

Lemma preserves_detectIntent text : Preserves P (detectIntent text).
Proof.
  pose proof preserves_invoke as Hi.
  unfold detectIntent. destruct (scanPatterns _ _); [apply preserves_ret|].
  apply preserves_bind; [apply Hi|]. intros _.
  apply preserves_bind; [apply preserves_read|]. intros documents.
  destruct (bayesClassify documents text) as [classification|e];
    [destruct (Js.nonEmpty classification)|]; apply preserves_ret.
Qed.

Lemma preserves_selectBest candidates : Preserves P (selectBest candidates).
Proof.
  unfold selectBest. destruct candidates as [|first rest]; [apply preserves_ret|].
  destruct (groupCandidates _ _) as [grouped|e]; [|apply preserves_throw].
  destruct (sortDesc _ _) as [|best others]; [apply preserves_typeError|].
  cbv zeta. apply preserves_bind; [|intros _; apply preserves_ret].
  destruct (Qle_bool _ _); [|apply preserves_ret].
  apply preserves_frame. intros []. split; reflexivity.
Qed.

Lemma preserves_findBestResponse processedMessage userContext intent :
  Preserves P (findBestResponse processedMessage userContext intent).
Proof.
  pose proof preserves_invoke as Hi.
  pose proof preserves_contextPhone as Hc.
  pose proof preserves_selectBest as Hs.
  unfold findBestResponse. apply preserves_bind; [apply preserves_read|].
  intros [|row rows]; [apply preserves_ret|].
  repeat first [ apply Hi | apply Hc | apply Hs | apply preserves_read
               | apply preserves_bind; [|intros ?] ].
Qed.

Lemma preserves_loadTrainingData : Preserves P loadTrainingData.
Proof. apply preserves_frame. intros []. split; reflexivity. Qed.

Lemma preserves_trainClassifiers : Preserves P trainClassifiers.
Proof.
  apply preserves_frame. intros [td tf bd cc rc st d tk iv].
  destruct td; split; reflexivity.
Qed.

Lemma preserves_learn input_ output_ approved_ : Preserves P (learn input_ output_ approved_).
Proof.
  pose proof preserves_loadTrainingData as Hl.
  pose proof preserves_trainClassifiers as Ht.
  unfold learn. apply preserves_try_catch; [|intros e; apply preserves_ret].
  cbv zeta.
  apply preserves_bind; [apply preserves_frame; intros []; split; reflexivity|]. intros _.
  apply preserves_bind; [apply preserves_frame; intros []; split; reflexivity|]. intros _.
  apply preserves_bind; [apply Hl|]. intros _.
  apply preserves_bind; [destruct approved_; [apply Ht | apply preserves_ret]|]. intros _.
  apply preserves_ret.
Qed.

Lemma preserves_learnFromInteraction input_ output_ confidence_ :
  Preserves P (learnFromInteraction input_ output_ confidence_).
Proof.
  unfold learnFromInteraction. destruct (_ && _); [|apply preserves_ret].
  apply preserves_bind; [apply preserves_learn | intros _; apply preserves_ret].
Qed.

Lemma preserves_updateStats result : Preserves P (updateStats result).
Proof. apply preserves_frame. intros []. split; reflexivity. Qed.

Lemma preserves_countCacheHit : Preserves P countCacheHit.
Proof. apply preserves_frame. intros []. split; reflexivity. Qed.

(** The whole of [processMessage] keeps [P] as soon as its three
    operations on the conversations and on the cache do. *)
Lemma preserves_processMessage message userContext :
  (forall phone entry, Preserves P (updateConversationContext phone entry)) ->
  (forall key, Preserves P (getCachedResponse key)) ->
  (forall key response_, Preserves P (cacheResponse key response_)) ->
  Preserves P (processMessage message userContext).
Proof.
  intros Hcontext Hlookup Hstore.
  unfold processMessage.
  apply preserves_bind; [apply preserves_Date_now|]. intros startTime.
  apply preserves_try_catch; [|intros e; apply preserves_ret].
  unfold processMessage_try. cbv zeta.
  destruct (negb (Js.nonEmpty (sanitizeInput message))); [apply preserves_throw|].
  apply preserves_bind;
    [destruct (cacheEnabled config); [apply Hlookup | apply preserves_ret]|].
  intros [cached|].
  - apply preserves_bind; [apply preserves_countCacheHit | intros _; apply preserves_ret].
  - apply preserves_bind; [|intros result; apply preserves_bind;
                                            [|intros _; apply preserves_ret]].
    + unfold analyze. cbv zeta.
      apply preserves_bind; [apply preserves_detectIntent|]. intros intent.
      apply preserves_bind; [apply preserves_contextPhone|]. intros phone.
      apply preserves_bind; [apply preserves_Date_now|]. intros now.
      apply preserves_bind; [apply Hcontext|]. intros _.
      apply preserves_bind; [apply preserves_findBestResponse|]. intros response_.
      apply preserves_bind; [apply preserves_Date_now|]. intros finished.
      apply preserves_ret.
    + unfold publish.
      apply preserves_bind; [destruct (_ && _); [apply Hstore | apply preserves_ret]|].
      intros _. apply preserves_bind; [apply preserves_updateStats|]. intros _.
      destruct (_ && _); [apply preserves_learnFromInteraction | apply preserves_ret].
Qed.

End Memory.

Lemma tail_length {A} (l : list A) : length (tail l) = pred (length l).
Proof. destruct l; reflexivity. Qed.

Lemma pushBounded_length context entry :
  0 <= maxContextSize config ->
  Z.of_nat (length context) <= maxContextSize config ->
  Z.of_nat (length (pushBounded context entry)) <= maxContextSize config.
Proof.
  intros Hmax Hlen. unfold pushBounded. cbv zeta.
  destruct (maxContextSize config <? Z.of_nat (length (context ++ [entry])%list)) eqn:Hfull.
  - rewrite tail_length, length_app. cbn [length]. lia.
  - apply Z.ltb_ge in Hfull. exact Hfull.
Qed.

(** X15 (bounded conversations): with a non-negative [maxContextSize],
    when no conversation holds more than [maxContextSize] entries, none does
    after [processMessage] either, whatever the message, the caller and the
    outcome. *)
Theorem processMessage_context_bounded message userContext B :
  0 <= maxContextSize config ->
  contextBounded B ->
  contextBounded (snd (processMessage message userContext B)).
Proof.
  intros Hmax. apply (preserves_processMessage contextBounded contextBounded_reads).
  - intros phone entry. unfold updateConversationContext.
    destruct phone as [phone|]; [|apply preserves_ret].
    destruct (negb (Js.nonEmpty phone)); [apply preserves_ret|].
    apply preserves_update. intros B0 HB0 phone' context.
    destruct B0 as [td tf bd cc rc st d tk iv].
    cbn [set_conversationContext conversationContext].
    destruct (decide (phone' = phone)) as [->|Hne].
    + rewrite lookup_insert_eq. intros [= <-].
      apply pushBounded_length; [exact Hmax|].
      unfold getConversationContext. cbn [conversationContext].
      destruct (cc !! phone) as [old|] eqn:Hold; cbn [default from_option id length].
      * exact (HB0 phone old Hold).
      * exact Hmax.
    + rewrite lookup_insert_ne by congruence. apply HB0.
  - intros key. unfold getCachedResponse.
    apply preserves_bind; [apply preserves_read|]. intros cache.
    destruct (Js.own cache key); [|apply preserves_ret].
    apply preserves_bind; [apply (preserves_Date_now _ contextBounded_reads)|]. intros now.
    destruct (_ <? _); [|apply preserves_ret].
    apply preserves_bind; [|intros _; apply preserves_ret].
    apply preserves_update. intros [] H. exact H.
  - intros key response_. unfold cacheResponse.
    apply preserves_bind; [|intros _; apply preserves_bind].
    + apply preserves_update. intros [td tf bd cc rc st d tk iv] H.
      cbn [responseCache]. destruct (_ <=? _); exact H.
    + apply (preserves_Date_now _ contextBounded_reads).
    + intros now. apply preserves_update. intros [] H. exact H.
Qed.

Lemma remove_length {V} (o : Js.Obj V) key : (length (Js.remove o key) <= length o)%nat.
Proof. unfold Js.remove. apply List.filter_length_le. Qed.

Lemma set_length {V} (o : Js.Obj V) key v : (length (Js.set o key v) <= S (length o))%nat.
Proof.
  induction o as [|[k x] o IH]; cbn [Js.set length]; [lia|].
  destruct (String.eqb key k); cbn [length]; lia.
Qed.

(** X16 (a bounded cache): with room for at least one answer, when the
    cache holds at most [cacheMaxSize] answers, it does after
    [processMessage] too: a full cache loses its oldest entry before a new
    one is stored. *)
Theorem processMessage_cache_bounded message userContext B :
  1 <= cacheMaxSize config ->
  cacheBounded B ->
  cacheBounded (snd (processMessage message userContext B)).
Proof.
  intros Hmax. apply (preserves_processMessage cacheBounded cacheBounded_reads).
  - intros phone entry. unfold updateConversationContext.
    destruct phone as [phone|]; [|apply preserves_ret].
    destruct (negb (Js.nonEmpty phone)); [apply preserves_ret|].
    apply preserves_update. intros [] H. exact H.
  - intros key. unfold getCachedResponse.
    apply preserves_bind; [apply preserves_read|]. intros cache.
    destruct (Js.own cache key); [|apply preserves_ret].
    apply preserves_bind; [apply (preserves_Date_now _ cacheBounded_reads)|]. intros now.
    destruct (_ <? _); [|apply preserves_ret].
    apply preserves_bind; [|intros _; apply preserves_ret].
    apply preserves_update. intros [td tf bd cc rc st d tk iv] H.
    unfold cacheBounded in *. cbn [set_responseCache responseCache] in *.
    pose proof (remove_length rc key). lia.
  - intros key response_. unfold cacheResponse.
    intros B0 HB0. unfold bind, update, Date_now, ret.
    destruct B0 as [td tf bd cc rc st d tk iv].
    unfold cacheBounded in *. cbn [responseCache] in *.
    destruct (cacheMaxSize config <=? Z.of_nat (length rc)) eqn:Hfull;
      cbn [snd set_responseCache set_ticks responseCache ticks].
    + apply Z.leb_le in Hfull.
      pose proof (set_length (tail rc) key
                    {| cached_response := response_; cached_timestamp := clock tk |}).
      rewrite tail_length in H. lia.
    + apply Z.leb_gt in Hfull.
      pose proof (set_length rc key
                    {| cached_response := response_; cached_timestamp := clock tk |}).
      lia.
Qed.

(** *** Statistics and the empty corpus *)

(** The sum of the counters of a distribution. *)
Definition total (o : Js.Obj Z) : Z := fold_right (fun kv acc => snd kv + acc) 0 o.

Lemma total_increment o k : total (increment o k) = total o + 1.
Proof.
  unfold increment. induction o as [|[k' v] o IH]; [reflexivity|].
  cbn [Js.own Js.set]. destruct (String.eqb k k').
  - cbn [total fold_right snd default from_option id]. unfold Datatypes.id. lia.
  - change (v + total (Js.set o k (default 0 (Js.own o k) + 1)) = v + total o + 1).
    rewrite IH. lia.
Qed.

(** X17 (the statistics add up): for a result whose intent names no
    member of [Object.prototype] and whose sentiment label has a counter,
    [updateStats] counts the result once in [totalProcessed], once in the
    distribution of intents and once in the distribution of sentiments, and
    leaves [cacheHits] alone; and, numbers being rationals, the new average
    confidence times the new count is the old average times the old count
    plus the confidence of the result. *)
Theorem updateStats_adds_up result B :
  0 <= totalProcessed (stats B) ->
  Js.inherited (intent result) = false ->
  (exists n, Js.own (sentimentDistribution (stats B)) (label (sentiment result)) = Some n) ->
  let before := stats B in
  let after := stats (snd (updateStats result B)) in
  totalProcessed after = totalProcessed before + 1 /\
  cacheHits after = cacheHits before /\
  total (intentDistribution after) = total (intentDistribution before) + 1 /\
  total (sentimentDistribution after) = total (sentimentDistribution before) + 1 /\
  (averageConfidence after * inject_Z (totalProcessed after)
   == averageConfidence before * inject_Z (totalProcessed before)
      + res_confidence result)%Q.
Proof.
  intros Hcount _ _. destruct B as [td tf bd cc rc st d tk iv]. cbv zeta.
  unfold updateStats, update. cbn [snd stats set_stats] in *.
  cbn [totalProcessed cacheHits intentDistribution sentimentDistribution averageConfidence].
  rewrite !total_increment. repeat split.
  replace (totalProcessed st + 1 - 1) with (totalProcessed st) by lia.
  rewrite Qmult_comm. apply Qmult_div_r.
  intros H. unfold Qeq in H. cbn in H. lia.
Qed.

(** The engine after a message it has no corpus for: the clock has been
    read, the classifier may have run, the conversation of the caller has
    one more entry and the statistics one more result. *)
Definition sameKnowledge (B B' : Brain) : Prop :=
  trainingData B' = trainingData B /\ db B' = db B /\
  tfidfDocuments B' = tfidfDocuments B /\ bayesDocuments B' = bayesDocuments B /\
  responseCache B' = responseCache B.

Lemma detectIntent_returns text B :
  exists intent B',
    detectIntent text B = (Returns intent, B') /\ sameKnowledge B B' /\
    conversationContext B' = conversationContext B /\ stats B' = stats B.
Proof.
  unfold detectIntent, sameKnowledge. destruct (scanPatterns _ _) as [intent|].
  - exists intent, B. repeat split.
  - unfold bind, invoke, update, read, ret.
    destruct B as [td tf bd cc rc st d tk iv]. cbn [bayesDocuments set_invoked].
    destruct (bayesClassify bd text) as [classification|e];
      [destruct (Js.nonEmpty classification)|];
      do 2 eexists; (split; [reflexivity|]); repeat split.
Qed.

Lemma sameKnowledge_refl B : sameKnowledge B B.
Proof. repeat split. Qed.

Lemma sameKnowledge_trans B1 B2 B3 :
  sameKnowledge B1 B2 -> sameKnowledge B2 B3 -> sameKnowledge B1 B3.
Proof.
  unfold sameKnowledge. intros (A1 & A2 & A3 & A4 & A5) (C1 & C2 & C3 & C4 & C5).
  repeat split; congruence.
Qed.

Lemma Date_now_returns B :
  exists B',
    Date_now B = (Returns (clock (ticks B)), B') /\
    sameKnowledge B B' /\ invoked B' = invoked B.
Proof. destruct B. eexists. split; [reflexivity|]. repeat split. Qed.

Lemma updateConversationContext_returns phone entry B :
  exists B',
    updateConversationContext phone entry B = (Returns tt, B') /\
    sameKnowledge B B' /\ invoked B' = invoked B.
Proof.
  unfold updateConversationContext.
  destruct phone as [phone|]; [destruct (negb (Js.nonEmpty phone))|];
    destruct B; eexists; (split; [reflexivity|]); repeat split.
Qed.

Definition fallbackResponse : Response :=
  {| r_text := "Ainda estou aprendendo. Em breve poderei ajudar melhor!";
     r_confidence := 3 # 10; r_algorithm := "fallback" |}.

Lemma findBestResponse_without_corpus processedMessage userContext intent B :
  trainingData B = [] ->
  findBestResponse processedMessage userContext intent B = (Returns fallbackResponse, B).
Proof.
  intros Hcorpus. unfold findBestResponse, bind, read. rewrite Hcorpus. reflexivity.
Qed.

Lemma publish_unsure cleanMessage result B :
  Qle_bool (8 # 10) (res_confidence result) = false ->
  Qle_bool (85 # 100) (res_confidence result) = false ->
  exists B',
    publish cleanMessage result B = (Returns tt, B') /\
    sameKnowledge B B' /\ invoked B' = invoked B.
Proof.
  intros H80 H85. unfold publish. rewrite H80, H85, !andb_false_r.
  unfold bind, ret, updateStats, update. destruct B.
  eexists. split; [reflexivity|]. repeat split.
Qed.

(** X18 (no corpus, no answer): an engine without any approved example
    answers every message it does not find in its cache with the same
    fallback, at confidence 0.3, without running any of the three
    similarity measures; the answer is neither cached nor learned, and the
    corpus stays empty, so the next message gets the same answer. *)
Theorem processMessage_without_corpus message userContext B :
  trainingData B = [] ->
  userContext <> NullContext ->
  Js.nonEmpty (sanitizeInput message) = true ->
  Js.own (responseCache B) (sanitizeInput message) = None ->
  exists result B',
    processMessage message userContext B = (Returns result, B') /\
    response result = "Ainda estou aprendendo. Em breve poderei ajudar melhor!" /\
    res_confidence result = 3 # 10 /\
    algorithm result = Some "fallback" /\
    needsHumanHandoff result = Qltb (3 # 10) (minConfidence config) /\
    sameKnowledge B B' /\
    (forall name, In name (invoked B') -> In name (invoked B) \/ name = "bayes").
Proof.
  intros Hcorpus Hcaller Hclean Hmiss.
  unfold processMessage, try_catch, processMessage_try. cbv zeta.
  rewrite Hclean. cbn [negb].
  destruct (Date_now_returns B) as (B0 & Hnow0 & K0 & I0).
  unfold bind at 1. rewrite Hnow0.
  assert (Hlookup : (if cacheEnabled config then getCachedResponse (sanitizeInput message)
                     else ret None) B0 = (Returns None, B0)).
  { destruct (cacheEnabled config); [|reflexivity].
    unfold getCachedResponse, bind, read.
    destruct K0 as (_ & _ & _ & _ & ->). rewrite Hmiss. reflexivity. }
  unfold bind at 1. rewrite Hlookup.
  unfold analyze. cbv zeta.
  destruct (detectIntent_returns (preprocessText (sanitizeInput message)) B0)
    as (intent & B1 & Hintent & K1 & _ & _).
  assert (I1 : forall name, In name (invoked B1) -> In name (invoked B0) \/ name = "bayes").
  { revert Hintent. unfold detectIntent. destruct (scanPatterns _ _).
    - intros [= _ <-]. auto.
    - unfold bind, invoke, update, read, ret.
      destruct B0 as [td tf bd cc rc st d tk iv]. cbn [set_invoked bayesDocuments].
      destruct (bayesClassify bd _) as [classification|e];
        [destruct (Js.nonEmpty classification)|];
        intros [= _ <-]; cbn [invoked]; intros name Hin;
        apply in_app_or in Hin as [Hin|[<-|[]]]; auto. }
  assert (Hphone : exists phone, contextPhone userContext B1 = (Returns phone, B1)).
  { destruct userContext; [eexists; reflexivity | congruence | eexists; reflexivity]. }
  destruct Hphone as (phone & Hphone).
  destruct (Date_now_returns B1) as (B2 & Hnow2 & K2 & I2).
  set (entry := {| ce_message := sanitizeInput message; ce_intent := intent;
                   ce_sentiment := label (analyzeSentiment (sanitizeInput message));
                   ce_timestamp := clock (ticks B1) |}).
  destruct (updateConversationContext_returns phone entry B2) as (B3 & Hupdate & K3 & I3).
  assert (Hempty : trainingData B3 = []).
  { destruct K0 as (E0 & _), K1 as (E1 & _), K2 as (E2 & _), K3 as (E3 & _). congruence. }
  destruct (Date_now_returns B3) as (B4 & Hnow4 & K4 & I4).
  set (result :=
         {| response := r_text fallbackResponse;
            res_confidence := r_confidence fallbackResponse;
            sentiment := analyzeSentiment (sanitizeInput message);
            intent := intent;
            entities := extractEntities (sanitizeInput message);
            keywords := extractKeywords (preprocessText (sanitizeInput message));
            needsHumanHandoff := Qltb (r_confidence fallbackResponse) (minConfidence config);
            processingTime := Some (clock (ticks B3) - clock (ticks B));
            algorithm := Some (r_algorithm fallbackResponse);
            error := None |}).
  destruct (publish_unsure (sanitizeInput message) result B4 eq_refl eq_refl)
    as (B5 & Hpublish & K5 & I5).
  exists result, B5. split.
  - unfold bind. rewrite Hintent, Hphone, Hnow2. fold entry. rewrite Hupdate.
    rewrite (findBestResponse_without_corpus _ _ _ _ Hempty), Hnow4.
    unfold ret. fold result. rewrite Hpublish. reflexivity.
  - do 4 (split; [reflexivity|]). split.
    + exact (sameKnowledge_trans _ _ _ K0
               (sameKnowledge_trans _ _ _ K1
                  (sameKnowledge_trans _ _ _ K2
                     (sameKnowledge_trans _ _ _ K3
                        (sameKnowledge_trans _ _ _ K4 K5))))).
    + intros name Hin. rewrite I5, I4, I3, I2 in Hin. rewrite <- I0. exact (I1 name Hin).
Qed.

End Engine.

(** *** A sample engine

    Stand-ins for the libraries, and a corpus of one approved example. The
    edit distance is the usual one; the other two similarities are exact
    where the examples below use them: on equal strings and on strings that
    share no word and no character. *)

Fixpoint nextRow (c : ascii) (t : list ascii) (prev : list Z) (left : Z) : list Z :=
  match t, prev with
  | tj :: t', diag :: ((up :: _) as prev') =>
      let cell := Z.min (Z.min (up + 1) (left + 1))
                    (diag + if Ascii.eqb c tj then 0 else 1) in
      cell :: nextRow c t' prev' cell
  | _, _ => []
  end.

Definition sampleLevenshtein (s t : string) : Z :=
  let t' := list_ascii_of_string t in
  let row0 := map Z.of_nat (seq 0 (S (length t'))) in
  let final :=
    fold_left (fun row c => (hd 0 row + 1) :: nextRow c t' row (hd 0 row + 1))
      (list_ascii_of_string s) row0 in
  List.last final 0.

Definition sampleJaroWinkler (s t : string) : Q :=
  if String.eqb s t then 1%Q else 0%Q.

(** One for each word of the query the document has. *)
Definition sampleTfidfs (documents : list string) (query : string) : list Q :=
  map (fun document =>
         inject_Z (Z.of_nat (length
           (List.filter (fun w => existsb (String.eqb w) (FlowEngine.split " " document))
                   (FlowEngine.split " " query)))))
      documents.

Definition sampleSentiment (text : string) : Q * Q * list string * list string :=
  (0%Q, 0%Q, [], []).

Definition sampleBayes (documents : list (string * string)) (text : string)
  : Outcome string :=
  match documents with
  | [] => Throws "Not Trained"
  | (_, label) :: _ => Returns label
  end.

Definition sampleEntities (text : string) : Entities := noEntities.

Definition sampleKeywords (text : string) : list string := FlowEngine.split " " text.

Definition sampleClock (n : nat) : Z := 1700000000000 + 1000 * Z.of_nat n.

(** The seeded example of the specification, approved. *)
Definition seededRow : TrainingRow :=
  {| id := 1; input := "oi"; output := "Olá! Como posso ajudar você hoje?";
     confidence := 1; usage_count := 0; approved := true |}.

Definition seededDb : DB := {| ai_training := [seededRow]; next_id := 2 |}.

(** An engine as [initialize()] leaves it. *)
Definition initialBrain (database : DB) : Brain :=
  let data := List.filter approved (getTrainingData database) in
  {| trainingData := data;
     tfidfDocuments := map (fun item => preprocessText (input item)) data;
     bayesDocuments :=
       map (fun item => (preprocessText (input item),
                         extractIntentFromResponse (output item))) data;
     conversationContext := ∅;
     responseCache := [];
     stats := initialStats;
     db := database;
     ticks := 0%nat;
     invoked := [] |}.

Definition sampleProcess (config : Config) (message : string) (phone : option string)
  : M Brain Result :=
  processMessage sampleClock sampleSentiment sampleBayes sampleTfidfs
    sampleLevenshtein sampleJaroWinkler sampleEntities sampleKeywords config
    (JsString message) (ContextOf phone).

Definition sampleDetectIntent (text : string) : M Brain string :=
  detectIntent sampleBayes text.

(** *** Intent detection on sample texts *)

(** A text that greets, asks and mentions a price is a greeting: the table
    is read from the top. An untrained classifier throws, which gives
    ['unknown']. *)
Lemma detectIntent_witness :
  fst (sampleDetectIntent "bom dia, qual o valor?" (initialBrain seededDb))
  = Returns "greeting" /\
  fst (sampleDetectIntent "qual o valor" (initialBrain seededDb)) = Returns "question" /\
  fst (sampleDetectIntent "xyzzy plugh" (initialBrain Database.empty)) = Returns "unknown".
Proof.
  split; [|split].
  - apply (proj1 (proj2 (detectIntent_priority sampleBayes "bom dia, qual o valor?"
                           (initialBrain seededDb)))
             [] "greeting"
             [atStart ["oi"; "ola"; "olá"; "hey"; "opa"; "eae"; "e ai"; "bom dia";
                       "boa tarde"; "boa noite"]]
             (tl intentPatterns)).
    + reflexivity.
    + intros label patterns [].
    + eexists. split; [left; reflexivity | vm_compute; reflexivity].
  - apply (proj1 (proj2 (detectIntent_priority sampleBayes "qual o valor"
                           (initialBrain seededDb)))
             (firstn 3 intentPatterns) "question"
             [atStart ["qual"; "como"; "quando"; "onde"; "por que"; "porque"; "quem";
                       "quanto"];
              endsWithQuestionMark]
             (skipn 4 intentPatterns)).
    + reflexivity.
    + intros label patterns Hin pattern Hp. cbn [firstn intentPatterns] in Hin.
      repeat (destruct Hin as [Hin | Hin];
              [injection Hin as <- <-;
               repeat (destruct Hp as [<- | Hp]; [vm_compute; reflexivity|]);
               destruct Hp|]).
      destruct Hin.
    + eexists. split; [left; reflexivity | vm_compute; reflexivity].
  - apply (proj2 (proj2 (detectIntent_priority sampleBayes "xyzzy plugh"
                           (initialBrain Database.empty)))).
    + intros label patterns Hin pattern Hp. unfold intentPatterns in Hin.
      repeat (destruct Hin as [Hin | Hin];
              [injection Hin as <- <-;
               repeat (destruct Hp as [<- | Hp]; [vm_compute; reflexivity|]);
               destruct Hp|]).
      destruct Hin.
    + right. eexists. reflexivity.
Defined.

(** On normalized text an accent never reaches the table: the greeting
    [Olá] is matched as [ola]. *)
Example detectIntent_after_preprocess :
  preprocessText "Olá, tudo bem?" = "ola tudo bem" /\
  fst (sampleDetectIntent (preprocessText "Olá, tudo bem?") (initialBrain seededDb))
  = Returns "greeting".
Proof. vm_compute. split; reflexivity. Qed.

(** *** [processMessage] on arguments that are no message *)

Definition sampleProcessValue (message : JsValue) (userContext : Context)
  : M Brain Result :=
  processMessage sampleClock sampleSentiment sampleBayes sampleTfidfs
    sampleLevenshtein sampleJaroWinkler sampleEntities sampleKeywords defaultConfig
    message userContext.

Lemma processMessage_total_witness :
  sampleProcessValue (JsNumber 3) NullContext (initialBrain seededDb)
  = (Returns (getErrorResponse "Empty message after sanitization"),
     set_ticks 1 (initialBrain seededDb)).
Proof.
  apply (proj1 (proj2 (proj2 (proj2
           (processMessage_total sampleClock sampleSentiment sampleBayes sampleTfidfs
              sampleLevenshtein sampleJaroWinkler sampleEntities sampleKeywords
              defaultConfig (JsNumber 3) NullContext (initialBrain seededDb)))))).
  reflexivity.
Defined.

(** A message made of markup only, and a [null] context, end in the error
    response as well. *)
Example processMessage_error_branches :
  let run message userContext :=
    fst (sampleProcessValue message userContext (initialBrain seededDb)) in
  run (JsString " <br> ") (ContextOf None)
  = Returns (getErrorResponse "Empty message after sanitization") /\
  run JsUndefined NoContext
  = Returns (getErrorResponse "Empty message after sanitization") /\
  exists e, run (JsString "oi") NullContext = Returns (getErrorResponse e).
Proof. vm_compute. repeat split; try reflexivity. eexists. reflexivity. Qed.

(** *** The context boost on the sample engine *)

Definition entryOf (intent : string) : ContextEntry :=
  {| ce_message := "oi"; ce_intent := intent; ce_sentiment := "neutral";
     ce_timestamp := sampleClock 0 |}.

(** An engine in which [phone] has the given recorded intents. *)
Definition brainWithIntents (phone : string) (intents : list string) : Brain :=
  set_conversationContext {[ phone := map entryOf intents ]} (initialBrain seededDb).

Definition boletoCandidate : Candidate :=
  {| c_text := "Seu boleto foi gerado."; c_confidence := 25 # 100;
     c_algorithm := "levenshtein"; c_trainingId := 7 |}.

Definition greetingCandidate : Candidate :=
  {| c_text := "Olá! Como posso ajudar você hoje?"; c_confidence := 20 # 100;
     c_algorithm := "jarowinkler"; c_trainingId := 1 |}.

Lemma context_boost_witness :
  contextBoost defaultConfig (Some "5511") "greeting" [boletoCandidate; greetingCandidate]
    (brainWithIntents "5511" ["payment"; "greeting"])
  = [boost defaultConfig boletoCandidate; boost defaultConfig greetingCandidate].
Proof.
  apply (proj1 (context_boost_all_or_nothing defaultConfig (Some "5511") "greeting"
                  [boletoCandidate; greetingCandidate]
                  (brainWithIntents "5511" ["payment"; "greeting"]))).
  split; [reflexivity|]. split.
  - vm_compute. discriminate.
  - vm_compute. right. left. reflexivity.
Defined.

(** C8 as stated fails, with the intent of a candidate read off its reply by
    [extractIntentFromResponse], the way the engine labels its training
    examples. The reply about a boleto is a payment reply. With only a
    greeting recorded and a greeting as message it is boosted; with a
    payment recorded and a question as message it is not. *)
Lemma context_boost_claim_fails :
  extractIntentFromResponse (c_text boletoCandidate) = "payment" /\
  (recentIntents (getConversationContext "5511" (brainWithIntents "5511" ["greeting"]))
   = ["greeting"] /\
   contextBoost defaultConfig (Some "5511") "greeting" [boletoCandidate]
     (brainWithIntents "5511" ["greeting"])
   = [boost defaultConfig boletoCandidate]) /\
  (recentIntents (getConversationContext "5511" (brainWithIntents "5511" ["payment"]))
   = ["payment"] /\
   contextBoost defaultConfig (Some "5511") "question" [boletoCandidate]
     (brainWithIntents "5511" ["payment"])
   = [boletoCandidate]).
Proof. vm_compute. repeat split; reflexivity. Qed.

(** *** The fusion on sample candidates *)

Lemma fusion_inherited_witness :
  exists e,
    selectBest defaultConfig
      [ greetingCandidate;
        {| c_text := "constructor"; c_confidence := 25 # 100;
           c_algorithm := "levenshtein"; c_trainingId := 8 |} ]
      (initialBrain seededDb)
    = (Throws e, initialBrain seededDb).
Proof.
  apply (selectBest_inherited_text defaultConfig).
  eexists. split; [right; left; reflexivity | reflexivity].
Defined.

(** A corpus with the reply [constructor]: the question that matches it gets
    the error response. *)
Definition keywordRow : TrainingRow :=
  {| id := 2; input := "qual a palavra reservada"; output := "constructor";
     confidence := 1; usage_count := 0; approved := true |}.

Example fusion_inherited_in_processMessage :
  let out := sampleProcess defaultConfig "qual a palavra reservada" (Some "5511")
               (initialBrain {| ai_training := [seededRow; keywordRow]; next_id := 3 |}) in
  fst out
  = Returns (getErrorResponse
               "TypeError: Cannot read properties of undefined (reading 'push')").
Proof. vm_compute. reflexivity. Qed.

(** Two algorithms agree on the greeting, one proposes the boleto: the
    greeting wins with the sum of its two contributions. *)
Example fusion_groups_by_text :
  let candidates :=
    [ boletoCandidate; greetingCandidate;
      {| c_text := c_text greetingCandidate; c_confidence := 30 # 100;
         c_algorithm := "tfidf"; c_trainingId := 1 |} ] in
  exists r B',
    selectBest defaultConfig candidates (initialBrain seededDb) = (Returns r, B') /\
    r_text r = c_text greetingCandidate /\
    (r_confidence r == 1 # 2)%Q /\
    r_algorithm r = "jarowinkler+tfidf".
Proof.
  eexists. eexists. split; [vm_compute; reflexivity|].
  split; [reflexivity|]. split; reflexivity.
Qed.

(** *** The further properties on the sample engine *)

(** A unit of a normalized greeting. *)
Lemma preprocessText_alphabet_witness :
  Js.is_lower "a" = true \/ Js.is_digit "a" = true \/ "a"%char = "_"%char \/
  "a"%char = " "%char.
Proof.
  apply (preprocessText_alphabet "OLÁ,  Tudo bem?" "a").
  - reflexivity.
  - vm_compute. right. right. left. reflexivity.
Defined.

Lemma initialBrain_contextBounded database : contextBounded defaultConfig (initialBrain database).
Proof. intros phone context H. cbn in H. rewrite lookup_empty in H. discriminate H. Qed.

Lemma processMessage_context_bounded_witness :
  contextBounded defaultConfig
    (snd (sampleProcess defaultConfig "oi" (Some "5511") (initialBrain seededDb))).
Proof.
  apply (processMessage_context_bounded sampleClock sampleSentiment sampleBayes
           sampleTfidfs sampleLevenshtein sampleJaroWinkler sampleEntities
           sampleKeywords defaultConfig (JsString "oi") (ContextOf (Some "5511"))
           (initialBrain seededDb)).
  - vm_compute. discriminate.
  - apply initialBrain_contextBounded.
Defined.

Lemma processMessage_cache_bounded_witness :
  cacheBounded defaultConfig
    (snd (sampleProcess defaultConfig "oi" (Some "5511") (initialBrain seededDb))).
Proof.
  apply (processMessage_cache_bounded sampleClock sampleSentiment sampleBayes
           sampleTfidfs sampleLevenshtein sampleJaroWinkler sampleEntities
           sampleKeywords defaultConfig (JsString "oi") (ContextOf (Some "5511"))
           (initialBrain seededDb)).
  - vm_compute. discriminate.
  - vm_compute. discriminate.
Defined.

(** The first result an engine counts. *)
Lemma updateStats_adds_up_witness :
  let result := getErrorResponse "x" in
  let before := stats (initialBrain seededDb) in
  let after := stats (snd (updateStats result (initialBrain seededDb))) in
  totalProcessed after = totalProcessed before + 1 /\
  cacheHits after = cacheHits before /\
  total (intentDistribution after) = total (intentDistribution before) + 1 /\
  total (sentimentDistribution after) = total (sentimentDistribution before) + 1 /\
  (averageConfidence after * inject_Z (totalProcessed after)
   == averageConfidence before * inject_Z (totalProcessed before)
      + res_confidence result)%Q.
Proof.
  apply (updateStats_adds_up (getErrorResponse "x") (initialBrain seededDb)).
  - vm_compute. discriminate.
  - reflexivity.
  - exists 0. reflexivity.
Defined.

(** A greeting to an engine whose table is empty. *)
Lemma processMessage_without_corpus_witness :
  exists result B',
    sampleProcess defaultConfig "oi" (Some "5511") (initialBrain Database.empty)
    = (Returns result, B') /\
    response result = "Ainda estou aprendendo. Em breve poderei ajudar melhor!" /\
    res_confidence result = 3 # 10 /\
    algorithm result = Some "fallback" /\
    needsHumanHandoff result = Qltb (3 # 10) (minConfidence defaultConfig) /\
    sameKnowledge (initialBrain Database.empty) B' /\
    (forall name, In name (invoked B') ->
                  In name (invoked (initialBrain Database.empty)) \/ name = "bayes").
Proof.
  apply (processMessage_without_corpus sampleClock sampleSentiment sampleBayes
           sampleTfidfs sampleLevenshtein sampleJaroWinkler sampleEntities
           sampleKeywords defaultConfig (JsString "oi") (ContextOf (Some "5511"))
           (initialBrain Database.empty)).
  - reflexivity.
  - discriminate.
  - reflexivity.
  - reflexivity.
Defined.

(** Two algorithms propose the greeting, one the boleto. *)
Definition sampleCandidates : list Candidate :=
  [ boletoCandidate; greetingCandidate;
    {| c_text := c_text greetingCandidate; c_confidence := 30 # 100;
       c_algorithm := "tfidf"; c_trainingId := 1 |} ].

Lemma selectBest_fuses_witness :
  exists r B',
    selectBest defaultConfig sampleCandidates (initialBrain seededDb) = (Returns r, B') /\
    mentions sampleCandidates (r_text r) = true /\
    r_confidence r = clamp (aggregate sampleCandidates (r_text r)) /\
    (forall c, In c sampleCandidates ->
       (aggregate sampleCandidates (c_text c) <= aggregate sampleCandidates (r_text r))%Q) /\
    ((forall c, In c sampleCandidates -> (0 <= c_confidence c)%Q) ->
     (0 <= r_confidence r)%Q /\ (r_confidence r <= 1)%Q).
Proof.
  apply (selectBest_fuses defaultConfig sampleCandidates (initialBrain seededDb)).
  - discriminate.
  - intros c Hc. cbn [In sampleCandidates] in Hc.
    destruct Hc as [<-|[<-|[<-|[]]]]; reflexivity.
Defined.

(** The entry a greeting leaves in a conversation that had none. *)
Lemma boostApplies_after_update_witness :
  boostApplies (Some "5511") "greeting"
    (snd (updateConversationContext defaultConfig (Some "5511") (entryOf "greeting")
            (initialBrain seededDb))).
Proof.
  apply (boostApplies_after_update defaultConfig "5511" "greeting" (entryOf "greeting")
           (initialBrain seededDb)).
  - reflexivity.
  - vm_compute. discriminate.
  - reflexivity.
Defined.

End AdvancedBrain.

(** ** The basic matching engine ([brain.js]): learning and answering *)

Module BasicBrain.

Import Database.

(** What [findBestResponse] returns: a reply and its confidence, with the
    row it was taken from when it comes from the corpus. *)
Record Response : Type := {
  r_text : string;
  r_confidence : Q;
  r_trainingId : option Z
}.

(** An entry of [contextWindow]. *)
Record ContextItem : Type := {
  ci_message : string;
  ci_timestamp : Z
}.

(** The engine. [ticks] counts the readings of the clock. [scored] is not
    in the source: it counts the runs of [findSimilarResponses], the way a
    test would count calls. *)
Record Brain : Type := {
  learningEnabled : bool;
  trainingData : list TrainingRow;
  tfidfDocuments : list string;
  contextWindow : list ContextItem;
  responseCache : gmap string Response;
  db : DB;
  ticks : nat;
  scored : nat
}.

(** The engine the constructor builds over a database. *)
Definition create (database : DB) : Brain :=
  {| learningEnabled := true;
     trainingData := getTrainingData database;
     tfidfDocuments := map input (getTrainingData database);
     contextWindow := [];
     responseCache := ∅;
     db := database;
     ticks := 0%nat;
     scored := 0%nat |}.

(** [this.minConfidence] and [this.maxContextSize], which the constructor
    sets and nothing changes. *)
Definition minConfidence : Q := 7 # 10.
Definition maxContextSize : Z := 10.

(** [sanitize(text)]: the same chain as [preprocessText] of the advanced
    engine. *)
Definition sanitize (text : string) : string := AdvancedBrain.preprocessText text.

Section Engine.

(** The library: the word tokenizer and the edit distance. *)
Variable tokenize : string -> list string.
Variable LevenshteinDistance : string -> string -> Z.

Definition member (x : string) (l : list string) : bool := existsb (String.eqb x) l.

(** [new Set(l)], in order of first occurrence. *)
Fixpoint distinct (seen l : list string) : list string :=
  match l with
  | [] => []
  | x :: l' => if member x seen then distinct seen l' else x :: distinct (x :: seen) l'
  end.

(** [calculateSimilarity(text1, text2)]; [None] is [NaN], which an empty
    union or a zero length gives. *)
Definition calculateSimilarity (text1 text2 : string) : option Q :=
  let tokens1 := distinct [] (tokenize text1) in
  let tokens2 := distinct [] (tokenize text2) in
  let intersection := List.filter (fun x => member x tokens2) tokens1 in
  let union := distinct [] (tokens1 ++ tokens2) in
  let maxLen := Z.max (Js.len text1) (Js.len text2) in
  if (length union =? 0)%nat || (maxLen =? 0) then None
  else
    let jaccardSim := (inject_Z (Z.of_nat (length intersection))
                       / inject_Z (Z.of_nat (length union)))%Q in
    let levSim := (1 - inject_Z (LevenshteinDistance text1 text2) / inject_Z maxLen)%Q in
    Some (jaccardSim * (6 # 10) + levSim * (4 # 10))%Q.

(** [similarity > 0.9] *)
Definition similar (cleanInput : string) (item : TrainingRow) : bool :=
  match calculateSimilarity cleanInput (input item) with
  | Some similarity => negb (Qle_bool similarity (9 # 10))
  | None => false
  end.

Definition loadTrainingData (B : Brain) : Brain :=
  let data := getTrainingData (db B) in
  {| learningEnabled := learningEnabled B;
     trainingData := data;
     tfidfDocuments := (tfidfDocuments B ++ map input data)%list;
     contextWindow := contextWindow B;
     responseCache := responseCache B;
     db := db B;
     ticks := ticks B;
     scored := scored B |}.

(** [learn(input, output, approved = false)]. The call to
    [saveTrainingData] passes [approved ? 1 : 0] where the confidence goes. *)
Definition learn (input_ output_ : string) (approved_ : bool) : M Brain bool :=
  fun B =>
    if negb (learningEnabled B) then (Returns false, B)
    else
      let cleanInput := sanitize input_ in
      let cleanOutput := Js.trim output_ in
      match find (similar cleanInput) (trainingData B) with
      | Some existing => (Returns false, B)
      | None =>
          let saved :=
            {| learningEnabled := learningEnabled B;
               trainingData := trainingData B;
               tfidfDocuments := tfidfDocuments B;
               contextWindow := contextWindow B;
               responseCache := responseCache B;
               db := saveTrainingData cleanInput cleanOutput
                       (if approved_ then 1%Q else 0%Q) (db B);
               ticks := ticks B;
               scored := scored B |} in
          (Returns true, loadTrainingData saved)
      end.

(** What [learn] does when it is enabled: it rejects exactly when an example
    of the corpus is similar to the input; otherwise it stores an unapproved
    row and reloads the same corpus. *)
Lemma learn_spec input_ output_ approved_ B :
  learningEnabled B = true ->
  (forall item, In item (trainingData B) -> similar (sanitize input_) item = false) ->
  exists B',
    learn input_ output_ approved_ B = (Returns true, B') /\
    length (ai_training (db B')) = S (length (ai_training (db B))) /\
    trainingData B' = getTrainingData (db B) /\
    learningEnabled B' = true.
Proof.
  intros Hon Hnone. unfold learn. rewrite Hon. cbn [negb].
  destruct (find (similar (sanitize input_)) (trainingData B)) as [item|] eqn:Hfind.
  - apply find_some in Hfind as [Hin Hsim]. rewrite (Hnone item Hin) in Hsim. discriminate.
  - eexists. split; [reflexivity|].
    unfold loadTrainingData, getTrainingData, saveTrainingData.
    cbn [db trainingData learningEnabled ai_training].
    rewrite List.filter_app, length_app. cbn [List.filter approved length].
    rewrite app_nil_r. split; [lia|]. split; reflexivity.
Qed.

Lemma learn_rejects input_ output_ approved_ B item :
  In item (trainingData B) ->
  similar (sanitize input_) item = true ->
  learn input_ output_ approved_ B = (Returns false, B).
Proof.
  intros Hin Hsim. unfold learn. destruct (negb (learningEnabled B)); [reflexivity|].
  destruct (find (similar (sanitize input_)) (trainingData B)) eqn:Hfind; [reflexivity|].
  rewrite (find_none _ _ Hfind item Hin) in Hsim. discriminate.
Qed.

(** X22 (what the basic engine refuses to learn): with learning enabled,
    [learn] returns false exactly when an example of the corpus in memory
    is more than 0.9 similar to the normalized input, and then it changes
    nothing; otherwise it returns true and the table has one row more. *)
Theorem learn_rejects_exactly_similar input_ output_ approved_ B :
  learningEnabled B = true ->
  (fst (learn input_ output_ approved_ B) = Returns false <->
   exists item, In item (trainingData B) /\ similar (sanitize input_) item = true) /\
  (fst (learn input_ output_ approved_ B) = Returns false ->
   snd (learn input_ output_ approved_ B) = B) /\
  (fst (learn input_ output_ approved_ B) = Returns true ->
   length (ai_training (db (snd (learn input_ output_ approved_ B))))
   = S (length (ai_training (db B)))).
Proof.
  intros Hon.
  destruct (find (similar (sanitize input_)) (trainingData B)) as [item|] eqn:Hfind.
  - apply find_some in Hfind as [Hin Hsim].
    rewrite (learn_rejects input_ output_ approved_ B item Hin Hsim). cbn [fst snd].
    split; [|split].
    + split; [intros _; exists item; auto | reflexivity].
    + reflexivity.
    + discriminate.
  - assert (Hnone : forall item, In item (trainingData B) ->
                                 similar (sanitize input_) item = false).
    { intros item Hin. exact (find_none _ _ Hfind item Hin). }
    destruct (learn_spec input_ output_ approved_ B Hon Hnone) as (B' & -> & Hlen & _).
    cbn [fst snd]. split; [|split].
    + split; [discriminate|]. intros (item & Hin & Hsim).
      rewrite (Hnone item Hin) in Hsim. discriminate.
    + discriminate.
    + intros _. exact Hlen.
Qed.

(** *** Answering a message *)

(** [Date.now()] at its n-th reading. *)
Variable clock : nat -> Z.

(** The libraries of [processMessage]: the score, the comparative score and
    the tokens of the sentiment analyzer, and the entities of the language
    parser. *)
Variable sentimentAnalyze : string -> Q * Q * list string.

Record Entities : Type := {
  people : list string;
  places : list string;
  organizations : list string;
  dates : list string;
  values : list string
}.

Variable compromise : string -> Entities.

Record Sentiment : Type := {
  score : Q;
  comparative : Q;
  classification : option string;
  tokens : option (list string)
}.

(** The object [processMessage] returns; [entities] is [None] for the empty
    array of the error response. *)
Record Result : Type := {
  response : string;
  res_confidence : Q;
  sentiment : Sentiment;
  intent : string;
  entities : option Entities;
  needsHumanHandoff : bool
}.

(** The [userContext] argument: left out, which gives [{}]; [null]; or an
    object, of which only [name] is read. *)
Inductive Context : Type :=
| NoContext
| NullContext
| ContextOf (name : option string).

(** The intents [detectIntent] tells apart. *)
Inductive Intent : Type :=
| Greeting
| Farewell
| Question
| Complaint
| Praise
| Help
| Purchase
| Support
| Unknown.

Definition intentName (intent : Intent) : string :=
  match intent with
  | Greeting => "greeting"
  | Farewell => "farewell"
  | Question => "question"
  | Complaint => "complaint"
  | Praise => "praise"
  | Help => "help"
  | Purchase => "purchase"
  | Support => "support"
  | Unknown => "unknown"
  end.

Definition nonWord : Regex.re := Regex.Chr (fun c => negb (Js.is_word c)).

(** [/\b(w1|w2|...)\b/i]. Every word of the source starts and ends with a
    word character, so the boundary before a match is the start of the text
    or a character that is not a word character, and the boundary after it
    the end of the text or such a character. *)
Definition wholeWords (ws : list string) : Regex.RegExp :=
  {| Regex.anchored := Regex.Whole;
     Regex.body :=
       Regex.Cat (Regex.opt (Regex.Cat (Regex.Star Regex.any) nonWord))
         (Regex.Cat (Regex.words_ci ws)
            (Regex.opt (Regex.Cat nonWord (Regex.Star Regex.any)))) |}.

(** The table [intents] of [detectIntent], in the order of the object
    literal. *)
Definition intents : list (Intent * Regex.RegExp) :=
  [ (Greeting, wholeWords ["oi"; "ola"; "bom dia"; "boa tarde"; "boa noite"; "hey";
                           "e ai"]);
    (Farewell, wholeWords ["tchau"; "ate logo"; "ate mais"; "falou"; "obrigado";
                           "valeu"; "ate"]);
    (Question, wholeWords ["como"; "quando"; "onde"; "porque"; "qual"; "quanto";
                           "quem"; "o que"]);
    (Complaint, wholeWords ["problema"; "erro"; "nao funciona"; "ruim"; "pessimo";
                            "horrivel"; "reclamar"]);
    (Praise, wholeWords ["otimo"; "excelente"; "perfeito"; "muito bom"; "parabens";
                         "top"; "show"]);
    (Help, wholeWords ["ajuda"; "socorro"; "help"; "auxilio"; "preciso"]);
    (Purchase, wholeWords ["comprar"; "preco"; "valor"; "quanto custa"; "orcamento";
                           "pagar"]);
    (Support, wholeWords ["suporte"; "tecnico"; "assistencia"; "manutencao"]) ].

(** The loop of [detectIntent]: the first entry whose pattern tests true. *)
Fixpoint firstIntent (table : list (Intent * Regex.RegExp)) (message : string) : Intent :=
  match table with
  | [] => Unknown
  | (intent, pattern) :: rest =>
      if Regex.test pattern message then intent else firstIntent rest message
  end.

Definition detectIntent (message : string) : Intent := firstIntent intents message.

Definition analyzeSentiment (text : string) : Sentiment :=
  let '(score, comparative, tokens) := sentimentAnalyze text in
  {| score := score; comparative := comparative;
     classification :=
       Some (if negb (Qle_bool comparative (2 # 10)) then "positive"
             else if negb (Qle_bool (- (2 # 10)) comparative) then "negative"
             else "neutral");
     tokens := Some tokens |}.

Definition extractEntities (text : string) : Entities := compromise text.

(** A training example that [findSimilarResponses] retains. *)
Record Match : Type := {
  m_id : Z;
  m_input : string;
  m_output : string;
  m_confidence : Q;
  m_usageCount : Z
}.

(** The comparator of the [sort] of [findSimilarResponses];
    [Math.abs(d) > 0.1] is written as [d > 0.1 || d < -0.1]. It compares
    the confidences only when they differ by more than 0.1, so it is not a
    consistent order, and what [Array.prototype.sort] makes of it is left
    to the runtime: the sort is a parameter here. *)
Definition compareMatches (a b : Match) : Q :=
  let confidenceDiff := (m_confidence b - m_confidence a)%Q in
  if negb (Qle_bool confidenceDiff (1 # 10)) || negb (Qle_bool (- (1 # 10)) confidenceDiff)
  then confidenceDiff
  else inject_Z (m_usageCount b - m_usageCount a).

Variable sort : (Match -> Match -> Q) -> list Match -> list Match.

(** The examples more than 0.3 similar to the message, in the order of the
    corpus; a similarity that is [NaN] is not more than 0.3. *)
Definition retained (message : string) (data : list TrainingRow) : list Match :=
  flat_map
    (fun item =>
       match calculateSimilarity message (input item) with
       | Some similarity =>
           if negb (Qle_bool similarity (3 # 10))
           then [ {| m_id := id item; m_input := input item; m_output := output item;
                     m_confidence := similarity; m_usageCount := usage_count item |} ]
           else []
       | None => []
       end)
    data.

Definition set_scored (n : nat) (B : Brain) : Brain :=
  {| learningEnabled := learningEnabled B; trainingData := trainingData B;
     tfidfDocuments := tfidfDocuments B; contextWindow := contextWindow B;
     responseCache := responseCache B; db := db B; ticks := ticks B; scored := n |}.

Definition set_responseCache (cache : gmap string Response) (B : Brain) : Brain :=
  {| learningEnabled := learningEnabled B; trainingData := trainingData B;
     tfidfDocuments := tfidfDocuments B; contextWindow := contextWindow B;
     responseCache := cache; db := db B; ticks := ticks B; scored := scored B |}.

Definition set_db (database : DB) (B : Brain) : Brain :=
  {| learningEnabled := learningEnabled B; trainingData := trainingData B;
     tfidfDocuments := tfidfDocuments B; contextWindow := contextWindow B;
     responseCache := responseCache B; db := database; ticks := ticks B;
     scored := scored B |}.

Definition set_ticks (n : nat) (B : Brain) : Brain :=
  {| learningEnabled := learningEnabled B; trainingData := trainingData B;
     tfidfDocuments := tfidfDocuments B; contextWindow := contextWindow B;
     responseCache := responseCache B; db := db B; ticks := n; scored := scored B |}.

(** [findSimilarResponses(message)] *)
Definition findSimilarResponses (message : string) : M Brain (list Match) :=
  fun B =>
    (Returns (sort compareMatches (retained message (trainingData B))),
     set_scored (S (scored B)) B).

Definition reply (text : string) (confidence : Q) : Response :=
  {| r_text := text; r_confidence := confidence; r_trainingId := None |}.

(** [getDefaultResponseByIntent(intent, userContext)]. The table is built
    at every call, and its first entry reads [userContext.name], which
    throws when the context is [null]. *)
Definition getDefaultResponseByIntent (intent : Intent) (userContext : Context)
  : M Brain Response :=
  match userContext with
  | NullContext => typeError "name"
  | NoContext | ContextOf _ =>
      let name := match userContext with
                  | ContextOf (Some name) => if Js.nonEmpty name then " " ++ name else ""
                  | _ => ""
                  end in
      ret (match intent with
           | Greeting => reply ("Olá" ++ name ++ "! Como posso ajudar você hoje?") (9 # 10)
           | Farewell => reply "Até logo! Se precisar de algo, estou por aqui! 😊" (9 # 10)
           | Question =>
               reply "Essa é uma ótima pergunta! Vou verificar isso para você." (5 # 10)
           | Complaint =>
               reply "Sinto muito pelo problema! Vou encaminhar para nossa equipe resolver isso urgentemente."
                 (6 # 10)
           | Praise =>
               reply "Muito obrigado pelo feedback! Ficamos felizes em ajudar! 🙏" (9 # 10)
           | Help => reply "Claro! Estou aqui para ajudar. O que você precisa?" (8 # 10)
           | Purchase =>
               reply "Vou te conectar com nosso time de vendas para te passar as melhores condições!"
                 (7 # 10)
           | Support =>
               reply "Vou te transferir para nosso suporte técnico. Eles vão resolver isso rapidinho!"
                 (7 # 10)
           | Unknown =>
               reply "Desculpe, não entendi muito bem. Pode reformular sua pergunta?" (3 # 10)
           end)
  end.

(** The key of the cache: the template [`${message}_${intent}`]. *)
Definition cacheKey (message : string) (intent : Intent) : string :=
  message ++ "_" ++ intentName intent.

(** [findBestResponse(message, userContext, intent)]. The cache is a [Map]
    from keys to the responses themselves: an entry has no time stamp, and
    nothing in the engine removes one. *)
Definition findBestResponse (message : string) (userContext : Context) (intent : Intent)
  : M Brain Response :=
  fun B =>
    match responseCache B !! cacheKey message intent with
    | Some cached => (Returns cached, B)
    | None =>
        (do matches <- findSimilarResponses message;
         match matches with
         | bestMatch :: _ =>
             if Qle_bool minConfidence (m_confidence bestMatch) then
               let response :=
                 {| r_text := m_output bestMatch; r_confidence := m_confidence bestMatch;
                    r_trainingId := Some (m_id bestMatch) |} in
               fun B' =>
                 (Returns response,
                  set_responseCache
                    (<[cacheKey message intent := response]> (responseCache B'))
                    (set_db (updateTrainingUsage (m_id bestMatch) (db B')) B'))
             else getDefaultResponseByIntent intent userContext
         | [] => getDefaultResponseByIntent intent userContext
         end) B
    end.

(** [addToContext(message)] *)
Definition addToContext (message : string) : M Brain unit :=
  fun B =>
    let window :=
      (contextWindow B
       ++ [ {| ci_message := message; ci_timestamp := clock (ticks B) |} ])%list in
    (Returns tt,
     {| learningEnabled := learningEnabled B; trainingData := trainingData B;
        tfidfDocuments := tfidfDocuments B;
        contextWindow := if maxContextSize <? Z.of_nat (length window)
                         then tail window else window;
        responseCache := responseCache B; db := db B; ticks := S (ticks B);
        scored := scored B |}).

(** The object of the [catch] of [processMessage]. *)
Definition errorResult : Result :=
  {| response :=
       "Desculpe, tive um problema ao processar sua mensagem. Pode tentar novamente?";
     res_confidence := 0;
     sentiment := {| score := 0; comparative := 0; classification := None;
                     tokens := None |};
     intent := "unknown";
     entities := None;
     needsHumanHandoff := true |}.

(** [processMessage(message, userContext = {})]; [None] is a message that
    is not a string, on which [sanitize] throws. *)
Definition processMessage (message : option string) (userContext : Context)
  : M Brain Result :=
  try_catch
    (do cleanMessage <- match message with
                        | Some text => ret (sanitize text)
                        | None => typeError "toLowerCase"
                        end;
     do_ addToContext cleanMessage;
     let sentimentResult := analyzeSentiment cleanMessage in
     let entities := extractEntities cleanMessage in
     let intent := detectIntent cleanMessage in
     do response <- findBestResponse cleanMessage userContext intent;
     ret {| response := r_text response;
            res_confidence := r_confidence response;
            sentiment := sentimentResult;
            intent := intentName intent;
            entities := Some entities;
            needsHumanHandoff :=
              negb (Qle_bool minConfidence (r_confidence response)) |})
    (fun _ => ret errorResult).

(** *** The cache of the basic engine *)

(** A key the cache has is answered from it: the state is untouched, so no
    similarity is computed and no clock is read. *)
Lemma findBestResponse_hit message userContext intent cached B :
  responseCache B !! cacheKey message intent = Some cached ->
  findBestResponse message userContext intent B = (Returns cached, B).
Proof. intros Hown. unfold findBestResponse. rewrite Hown. reflexivity. Qed.

(** A key the cache lacks is scored. A reply taken from the corpus, which has
    reached the minimum confidence, is stored under the key; a default reply
    is not stored. *)
Lemma findBestResponse_miss message userContext intent B r B1 :
  responseCache B !! cacheKey message intent = None ->
  findBestResponse message userContext intent B = (Returns r, B1) ->
  scored B1 = S (scored B) /\
  match r_trainingId r with
  | Some _ =>
      responseCache B1 = <[cacheKey message intent := r]> (responseCache B) /\
      Qle_bool minConfidence (r_confidence r) = true
  | None => responseCache B1 = responseCache B
  end.
Proof.
  intros Hmiss. unfold findBestResponse. rewrite Hmiss.
  unfold bind, findSimilarResponses.
  assert (Hdefault : forall B',
            getDefaultResponseByIntent intent userContext B' = (Returns r, B1) ->
            B1 = B' /\ r_trainingId r = None).
  { intros B' H. unfold getDefaultResponseByIntent, typeError, throw, ret in H.
    destruct userContext as [| |name]; [|discriminate|];
      injection H as <- <-; split; try reflexivity; destruct intent; reflexivity. }
  destruct (sort compareMatches (retained message (trainingData B))) as [|bestMatch rest].
  - intros H. apply Hdefault in H as [-> ->]. split; reflexivity.
  - destruct (Qle_bool minConfidence (m_confidence bestMatch)) eqn:Hconf.
    + intros H. injection H as <- <-. cbn. split; [reflexivity|]. split; [reflexivity|].
      exact Hconf.
    + intros H. apply Hdefault in H as [-> ->]. split; reflexivity.
Qed.

(** [findBestResponse] removes no entry, whether it returns or throws. *)
Lemma findBestResponse_keeps message userContext intent B key cached :
  responseCache B !! key = Some cached ->
  responseCache (snd (findBestResponse message userContext intent B)) !! key
  = Some cached.
Proof.
  intros Hown. unfold findBestResponse.
  destruct (responseCache B !! cacheKey message intent) eqn:Hkey; [exact Hown|].
  unfold bind, findSimilarResponses.
  assert (Hdefault : forall B',
            responseCache B' = responseCache B ->
            responseCache (snd (getDefaultResponseByIntent intent userContext B')) !! key
            = Some cached).
  { intros B' HB'. unfold getDefaultResponseByIntent, typeError, throw, ret.
    destruct userContext; cbn [snd]; rewrite HB'; exact Hown. }
  destruct (sort compareMatches (retained message (trainingData B))) as [|bestMatch rest].
  - apply Hdefault. reflexivity.
  - destruct (Qle_bool minConfidence (m_confidence bestMatch)).
    + cbn. rewrite lookup_insert_ne; [exact Hown|]. congruence.
    + apply Hdefault. reflexivity.
Qed.

(** The reply a call took from the corpus is in the cache when the call
    returns. *)
Lemma findBestResponse_caches message userContext intent B r B1 :
  findBestResponse message userContext intent B = (Returns r, B1) ->
  r_trainingId r <> None ->
  responseCache B1 !! cacheKey message intent = Some r.
Proof.
  intros Hrun Hid.
  destruct (responseCache B !! cacheKey message intent) as [cached|] eqn:Hkey.
  - rewrite (findBestResponse_hit _ _ _ _ _ Hkey) in Hrun. injection Hrun as <- <-.
    exact Hkey.
  - destruct (findBestResponse_miss _ _ _ _ _ _ Hkey Hrun) as [_ H].
    destruct (r_trainingId r); [|congruence].
    destruct H as [-> _]. apply lookup_insert_eq.
Qed.

End Engine.

End BasicBrain.

(** A greeting the corpus already has, for the tokenizer that splits at
    spaces and the usual edit distance. *)
Lemma learn_rejects_exactly_similar_witness :
  let tokenize := FlowEngine.split " " in
  let learn := BasicBrain.learn tokenize AdvancedBrain.sampleLevenshtein in
  let B := BasicBrain.create AdvancedBrain.seededDb in
  (fst (learn "Oi!" "Y" true B) = Returns false <->
   exists item,
     In item (BasicBrain.trainingData B) /\
     BasicBrain.similar tokenize AdvancedBrain.sampleLevenshtein
       (BasicBrain.sanitize "Oi!") item = true) /\
  (fst (learn "Oi!" "Y" true B) = Returns false -> snd (learn "Oi!" "Y" true B) = B) /\
  (fst (learn "Oi!" "Y" true B) = Returns true ->
   length (Database.ai_training (BasicBrain.db (snd (learn "Oi!" "Y" true B))))
   = S (length (Database.ai_training (BasicBrain.db B)))).
Proof.
  apply (BasicBrain.learn_rejects_exactly_similar (FlowEngine.split " ")
           AdvancedBrain.sampleLevenshtein "Oi!" "Y" true
           (BasicBrain.create AdvancedBrain.seededDb)).
  reflexivity.
Defined.

(** ** Learning the same input twice *)

(** C3, at the input of the specification. On a fresh table, [learn] of
    [oi] with one reply and then of [oi] with another returns true both
    times in both engines, and the table ends with two rows. The basic
    engine does look for a similar example, but in the corpus, which holds
    approved rows only, while [learn] stores its rows unapproved; the
    advanced engine does not look at all. This holds whatever the tokenizer
    and the edit distance compute, so also when they make [oi] fully similar
    to [oi]. *)
Theorem learn_twice_accepts_both :
  (forall tokenize LevenshteinDistance,
     let learn := BasicBrain.learn tokenize LevenshteinDistance in
     let B0 := BasicBrain.create Database.empty in
     exists B1 B2,
       learn "oi" "X" true B0 = (Returns true, B1) /\
       learn "oi" "Y" true B1 = (Returns true, B2) /\
       BasicBrain.trainingData B1 = [] /\
       BasicBrain.trainingData B2 = [] /\
       map Database.output (Database.ai_training (BasicBrain.db B2)) = ["X"; "Y"]) /\
  (let B0 := AdvancedBrain.initialBrain Database.empty in
   exists B1 B2,
     AdvancedBrain.learn "oi" "X" true B0 = (Returns true, B1) /\
     AdvancedBrain.learn "oi" "Y" true B1 = (Returns true, B2) /\
     AdvancedBrain.trainingData B1 = [] /\
     AdvancedBrain.trainingData B2 = [] /\
     map Database.output (Database.ai_training (AdvancedBrain.db B2)) = ["X"; "Y"]).
Proof.
  split.
  - intros tokenize LevenshteinDistance. cbv zeta.
    eexists. eexists. split; [reflexivity|]. split; [reflexivity|].
    repeat split; reflexivity.
  - cbv zeta. eexists. eexists. split; [reflexivity|]. split; [reflexivity|].
    repeat split; reflexivity.
Qed.

(** When the first example is in the corpus, approved, the basic engine does
    reject an input it finds similar: the check itself works. *)
Example learn_rejects_known_input :
  let tokenize := FlowEngine.split " " in
  let B0 := BasicBrain.create AdvancedBrain.seededDb in
  BasicBrain.calculateSimilarity tokenize AdvancedBrain.sampleLevenshtein "oi" "oi"
  = Some (1 * (6 # 10) + (1 - 0 / 2) * (4 # 10))%Q /\
  BasicBrain.learn tokenize AdvancedBrain.sampleLevenshtein "Oi!" "Y" true B0
  = (Returns false, B0).
Proof. vm_compute. split; reflexivity. Qed.

(** ** The response caches of the two engines *)

Section Caches.

(** The clock, the libraries and the configuration of the advanced engine. *)
Variable clock : nat -> Z.
Variable sentimentAnalyze : string -> Q * Q * list string * list string.
Variable bayesClassify : list (string * string) -> string -> Outcome string.
Variable tfidfs : list string -> string -> list Q.
Variable levenshtein : string -> string -> Z.
Variable jaroWinkler : string -> string -> Q.
Variable extractEntities : string -> AdvancedBrain.Entities.
Variable extractKeywords : string -> list string.
Variable config : AdvancedBrain.Config.

(** The libraries of the basic engine. *)
Variable tokenize : string -> list string.
Variable LevenshteinDistance : string -> string -> Z.
Variable sort : (BasicBrain.Match -> BasicBrain.Match -> Q)
                -> list BasicBrain.Match -> list BasicBrain.Match.

Local Abbreviation getCachedResponse := (AdvancedBrain.getCachedResponse clock config).
Local Abbreviation processMessage :=
  (AdvancedBrain.processMessage clock sentimentAnalyze bayesClassify tfidfs levenshtein
     jaroWinkler extractEntities extractKeywords config).
Local Abbreviation findBestResponse :=
  (BasicBrain.findBestResponse tokenize LevenshteinDistance sort).

(** C4 (as amended). The advanced engine: an entry looked up strictly more
    than the TTL after its time stamp is never returned, and the lookup
    deletes it; and of two calls of [processMessage] whose messages have the
    same sanitized text, made with the cache on, when the first returns a
    confidence of 0.8 or more, the second is made in any later state of the
    engine that still has the entry of the first (nothing has evicted,
    cleared or replaced it) and looks it up within the TTL, the second
    returns the very result of the first and runs no scoring algorithm.
    The basic engine, whose cache has neither TTL nor time stamps: of two
    calls of [findBestResponse] with the same message and intent, when the
    first returns a reply taken from the corpus and the second is made in
    any later state that still has the entry, however late, the second
    returns the very reply of the first and leaves the engine as it is, so
    it scores nothing; and no call removes an entry. *)
Theorem cache_ttl_and_hits :
  (forall message entry B,
     Js.own (AdvancedBrain.responseCache B) message = Some entry ->
     AdvancedBrain.cacheTTL config
     < clock (AdvancedBrain.ticks B) - AdvancedBrain.cached_timestamp entry ->
     fst (getCachedResponse message B) = Returns None /\
     Js.own (AdvancedBrain.responseCache (snd (getCachedResponse message B))) message
     = None) /\
  (forall first second userContext1 userContext2 B r B1 B2,
     AdvancedBrain.cacheEnabled config = true ->
     processMessage first userContext1 B = (Returns r, B1) ->
     Qle_bool (8 # 10) (AdvancedBrain.res_confidence r) = true ->
     AdvancedBrain.sanitizeInput second = AdvancedBrain.sanitizeInput first ->
     Js.own (AdvancedBrain.responseCache B2) (AdvancedBrain.sanitizeInput first)
     = Js.own (AdvancedBrain.responseCache B1) (AdvancedBrain.sanitizeInput first) ->
     (forall entry,
        Js.own (AdvancedBrain.responseCache B2) (AdvancedBrain.sanitizeInput first)
        = Some entry ->
        clock (S (AdvancedBrain.ticks B2)) - AdvancedBrain.cached_timestamp entry
        <= AdvancedBrain.cacheTTL config) ->
     exists B3,
       processMessage second userContext2 B2 = (Returns r, B3) /\
       AdvancedBrain.invoked B3 = AdvancedBrain.invoked B2) /\
  (forall message intent userContext1 userContext2 B r B1 B2,
     findBestResponse message userContext1 intent B = (Returns r, B1) ->
     BasicBrain.r_trainingId r <> None ->
     BasicBrain.responseCache B2 !! BasicBrain.cacheKey message intent
     = BasicBrain.responseCache B1 !! BasicBrain.cacheKey message intent ->
     findBestResponse message userContext2 intent B2 = (Returns r, B2)) /\
  (forall message intent userContext B key cached,
     BasicBrain.responseCache B !! key = Some cached ->
     BasicBrain.responseCache (snd (findBestResponse message userContext intent B)) !! key
     = Some cached).
Proof.
  split; [|split; [|split]].
  - intros message entry B. apply AdvancedBrain.getCachedResponse_drops.
  - intros first second userContext1 userContext2 B r B1 B2.
    apply AdvancedBrain.processMessage_again.
  - intros message intent userContext1 userContext2 B r B1 B2 Hrun Hid Hstill.
    apply BasicBrain.findBestResponse_hit. rewrite Hstill.
    exact (BasicBrain.findBestResponse_caches _ _ _ _ _ _ _ _ _ Hrun Hid).
  - intros message intent userContext B key cached.
    apply BasicBrain.findBestResponse_keeps.
Qed.

End Caches.

(** *** The caches on the sample engines *)

(** The basic engine over the seeded corpus: the tokenizer splits at spaces,
    the sort is a stable insertion, the clock advances by two hours a
    reading, twice the TTL the advanced engine is configured with. *)
Definition slowClock (n : nat) : Z := 1700000000000 + 7200000 * Z.of_nat n.

Fixpoint insertSorted (compare : BasicBrain.Match -> BasicBrain.Match -> Q)
  (x : BasicBrain.Match) (l : list BasicBrain.Match) : list BasicBrain.Match :=
  match l with
  | [] => [x]
  | y :: l' =>
      if Qle_bool (compare x y) 0 then x :: l else y :: insertSorted compare x l'
  end.

Definition sampleSort (compare : BasicBrain.Match -> BasicBrain.Match -> Q)
  (l : list BasicBrain.Match) : list BasicBrain.Match :=
  fold_right (insertSorted compare) [] l.

Definition basicProcess (message : string) : M BasicBrain.Brain BasicBrain.Result :=
  BasicBrain.processMessage (FlowEngine.split " ") AdvancedBrain.sampleLevenshtein
    slowClock (fun _ => (0%Q, 0%Q, []))
    (fun _ => {| BasicBrain.people := []; BasicBrain.places := [];
                 BasicBrain.organizations := []; BasicBrain.dates := [];
                 BasicBrain.values := [] |})
    sampleSort (Some message) BasicBrain.NoContext.

(** [oi], an unrelated message, then [oi] again, from the same phone: the
    first answer has confidence 1 and is cached; the unrelated one leaves
    the entry alone; the third call returns the first answer and runs
    nothing. And in the basic engine the reply to [oi], taken from the
    corpus, is given again to the same question at any later time. *)
Lemma cache_witness :
  (let first := AdvancedBrain.sampleProcess AdvancedBrain.defaultConfig "oi" (Some "5511")
                  (AdvancedBrain.initialBrain AdvancedBrain.seededDb) in
   let other := AdvancedBrain.sampleProcess AdvancedBrain.defaultConfig "xyzzy plugh"
                  (Some "5511") (snd first) in
   exists r B3,
     fst first = Returns r /\
     AdvancedBrain.sampleProcess AdvancedBrain.defaultConfig "oi" (Some "5511") (snd other)
     = (Returns r, B3) /\
     AdvancedBrain.invoked B3 = AdvancedBrain.invoked (snd other)) /\
  (let find := BasicBrain.findBestResponse (FlowEngine.split " ")
                 AdvancedBrain.sampleLevenshtein sampleSort "oi" BasicBrain.NoContext
                 BasicBrain.Greeting in
   let first := find (BasicBrain.create AdvancedBrain.seededDb) in
   exists r,
     fst first = Returns r /\
     forall n, find (BasicBrain.set_ticks n (snd first))
               = (Returns r, BasicBrain.set_ticks n (snd first))).
Proof.
  split.
  - cbv zeta.
    destruct (AdvancedBrain.sampleProcess AdvancedBrain.defaultConfig "oi" (Some "5511")
                (AdvancedBrain.initialBrain AdvancedBrain.seededDb)) as [o B1] eqn:Hfirst.
    cbn [fst snd].
    destruct (AdvancedBrain.sampleProcess AdvancedBrain.defaultConfig "xyzzy plugh"
                (Some "5511") B1) as [o2 B2] eqn:Hother.
    cbn [fst snd].
    assert (Ho : exists r,
               o = Returns r /\
               Qle_bool (8 # 10) (AdvancedBrain.res_confidence r) = true /\
               Js.own (AdvancedBrain.responseCache B2) "oi"
               = Js.own (AdvancedBrain.responseCache B1) "oi" /\
               forall entry,
                 Js.own (AdvancedBrain.responseCache B2) "oi" = Some entry ->
                 AdvancedBrain.sampleClock (S (AdvancedBrain.ticks B2))
                 - AdvancedBrain.cached_timestamp entry
                 <= AdvancedBrain.cacheTTL AdvancedBrain.defaultConfig).
    { vm_compute in Hfirst. injection Hfirst as <- <-.
      vm_compute in Hother. injection Hother as <- <-.
      eexists. split; [reflexivity|]. split; [reflexivity|]. split; [reflexivity|].
      intros entry Hown. vm_compute in Hown. injection Hown as <-.
      vm_compute. discriminate. }
    destruct Ho as (r & -> & Hconf & Hstill & Hfresh).
    destruct (proj1 (proj2 (cache_ttl_and_hits AdvancedBrain.sampleClock
                              AdvancedBrain.sampleSentiment AdvancedBrain.sampleBayes
                              AdvancedBrain.sampleTfidfs AdvancedBrain.sampleLevenshtein
                              AdvancedBrain.sampleJaroWinkler AdvancedBrain.sampleEntities
                              AdvancedBrain.sampleKeywords AdvancedBrain.defaultConfig
                              (FlowEngine.split " ") AdvancedBrain.sampleLevenshtein
                              sampleSort))
                (AdvancedBrain.JsString "oi") (AdvancedBrain.JsString "oi")
                (AdvancedBrain.ContextOf (Some "5511"))
                (AdvancedBrain.ContextOf (Some "5511"))
                (AdvancedBrain.initialBrain AdvancedBrain.seededDb) r B1 B2)
      as (B3 & Hthird & Hinv).
    + reflexivity.
    + exact Hfirst.
    + exact Hconf.
    + reflexivity.
    + exact Hstill.
    + exact Hfresh.
    + exists r, B3. auto.
  - cbv zeta.
    destruct (BasicBrain.findBestResponse (FlowEngine.split " ")
                AdvancedBrain.sampleLevenshtein sampleSort "oi" BasicBrain.NoContext
                BasicBrain.Greeting (BasicBrain.create AdvancedBrain.seededDb))
      as [o B1] eqn:Hfirst.
    cbn [fst snd].
    assert (Ho : exists r, o = Returns r /\ BasicBrain.r_trainingId r <> None).
    { vm_compute in Hfirst. injection Hfirst as <- _.
      eexists. split; [reflexivity | discriminate]. }
    destruct Ho as (r & -> & Hid). exists r. split; [reflexivity|]. intros n.
    apply (proj1 (proj2 (proj2 (cache_ttl_and_hits AdvancedBrain.sampleClock
                                  AdvancedBrain.sampleSentiment AdvancedBrain.sampleBayes
                                  AdvancedBrain.sampleTfidfs
                                  AdvancedBrain.sampleLevenshtein
                                  AdvancedBrain.sampleJaroWinkler
                                  AdvancedBrain.sampleEntities
                                  AdvancedBrain.sampleKeywords
                                  AdvancedBrain.defaultConfig
                                  (FlowEngine.split " ") AdvancedBrain.sampleLevenshtein
                                  sampleSort)))
             "oi" BasicBrain.Greeting BasicBrain.NoContext BasicBrain.NoContext
             (BasicBrain.create AdvancedBrain.seededDb) r B1
             (BasicBrain.set_ticks n B1) Hfirst Hid).
    reflexivity.
Defined.

(** C4 as stated fails. In the advanced engine, on a clock that advances by
    one second a reading, far inside the TTL of an hour: the same unrelated
    message twice has confidence 0.1, nothing is cached, and the second call
    runs every algorithm again; [Oi] then [oi] are one normalized text but
    two cache keys, so the second call scores again although the first
    answer was cached; and [oi] twice with [clearCache] in between is scored
    twice. In the basic engine, on a clock that advances by two hours a
    reading: the reply to [oi] is returned from the cache two hours after
    it was stored, twice the TTL of the advanced engine, and nothing is
    scored again; while the same unrelated message twice, which gets a
    default reply, is scored twice. *)
Lemma cache_claim_fails :
  let scoring := ["tfidf"; "levenshtein"; "jarowinkler"] in
  let brain := AdvancedBrain.initialBrain AdvancedBrain.seededDb in
  let process := AdvancedBrain.sampleProcess AdvancedBrain.defaultConfig in
  let first := process "xyzzy plugh" (Some "5511") brain in
  let second := process "xyzzy plugh" (Some "5511") (snd first) in
  let upper := process "Oi" (Some "5511") brain in
  let lower := process "oi" (Some "5511") (snd upper) in
  let stored := process "oi" (Some "5511") brain in
  let cleared := AdvancedBrain.clearCache (snd stored) in
  let again := process "oi" (Some "5511") (snd cleared) in
  let basic := BasicBrain.create AdvancedBrain.seededDb in
  let asked := basicProcess "Oi!" basic in
  let later := basicProcess "oi" (snd asked) in
  let unmatched := basicProcess "xyzzy plugh" basic in
  let unmatched2 := basicProcess "xyzzy plugh" (snd unmatched) in
  (AdvancedBrain.sampleClock (AdvancedBrain.ticks (snd second)) - AdvancedBrain.sampleClock 0
   <= AdvancedBrain.cacheTTL AdvancedBrain.defaultConfig /\
   AdvancedBrain.invoked (snd first) = ("bayes" :: scoring) /\
   AdvancedBrain.invoked (snd second) = ("bayes" :: scoring ++ "bayes" :: scoring)%list /\
   AdvancedBrain.responseCache (snd first) = []) /\
  (AdvancedBrain.preprocessText "Oi" = AdvancedBrain.preprocessText "oi" /\
   map fst (AdvancedBrain.responseCache (snd upper)) = ["Oi"] /\
   AdvancedBrain.invoked (snd upper) = scoring /\
   AdvancedBrain.invoked (snd lower) = (scoring ++ scoring)%list) /\
  (map fst (AdvancedBrain.responseCache (snd stored)) = ["oi"] /\
   AdvancedBrain.sampleClock (AdvancedBrain.ticks (snd again)) - AdvancedBrain.sampleClock 0
   <= AdvancedBrain.cacheTTL AdvancedBrain.defaultConfig /\
   AdvancedBrain.invoked (snd stored) = scoring /\
   AdvancedBrain.invoked (snd again) = (scoring ++ scoring)%list) /\
  (map BasicBrain.ci_timestamp (BasicBrain.contextWindow (snd later))
   = [slowClock 0; slowClock 1] /\
   AdvancedBrain.cacheTTL AdvancedBrain.defaultConfig < slowClock 1 - slowClock 0 /\
   fst later = fst asked /\
   BasicBrain.scored (snd asked) = 1%nat /\
   BasicBrain.scored (snd later) = 1%nat) /\
  (fst unmatched2 = fst unmatched /\
   BasicBrain.responseCache (snd unmatched2) = ∅ /\
   BasicBrain.scored (snd unmatched) = 1%nat /\
   BasicBrain.scored (snd unmatched2) = 2%nat).
Proof. vm_compute. repeat split; try reflexivity; discriminate. Qed.

(** ** The gate in front of the engines ([security/encryption.js])

    What the transport does with a message before the flow engine sees it:
    the rate limit, the list of blocked numbers and the sanitizer. *)

Module Security.

(** [this.rateLimits], [this.blockedNumbers], and the number of readings of
    the clock so far. *)
Record Manager : Type := {
  rateLimits : gmap string (list Z);
  blockedNumbers : gset string;
  ticks : nat
}.

Definition initial : Manager :=
  {| rateLimits := ∅; blockedNumbers := ∅; ticks := 0%nat |}.

(** What [handleIncomingMessage] does with a message at the gate. *)
Inductive Verdict : Type :=
| Passed      (* the message goes on to the engine *)
| Slowed        (* the sender is told to wait; the message is dropped *)
| Ignored.      (* the message of a blocked number is dropped silently *)

Section Gate.

(** [Date.now()] at its n-th reading. *)
Variable clock : nat -> Z.

(** [userLimits.filter(timestamp => now - timestamp < 60000)] *)
Definition recent (now : Z) (timestamps : list Z) : list Z :=
  List.filter (fun timestamp => now - timestamp <? 60000) timestamps.

(** [checkRateLimit(phone, maxMessages = 30)]; [None] is an argument that
    is [undefined]. *)
Definition checkRateLimit (phone : string) (maxMessages : option Z) (S : Manager)
  : bool * Manager :=
  let maxMessages := default 30 maxMessages in
  let now := clock (ticks S) in
  let userLimits := default [] (rateLimits S !! phone) in
  let recentMessages := recent now userLimits in
  if maxMessages <=? Z.of_nat (length recentMessages) then
    (false,
     {| rateLimits := rateLimits S;
        blockedNumbers := {[ phone ]} ∪ blockedNumbers S;
        ticks := Datatypes.S (ticks S) |})
  else
    (true,
     {| rateLimits := <[phone := (recentMessages ++ [now])%list]> (rateLimits S);
        blockedNumbers := blockedNumbers S;
        ticks := Datatypes.S (ticks S) |}).

Definition isBlocked (phone : string) (S : Manager) : bool :=
  bool_decide (phone ∈ blockedNumbers S).

Definition unblock (phone : string) (S : Manager) : Manager :=
  {| rateLimits := delete phone (rateLimits S);
     blockedNumbers := blockedNumbers S ∖ {[ phone ]};
     ticks := ticks S |}.

(** The two tests of [handleIncomingMessage], in its order: the rate limit
    first, then the list of blocked numbers. *)
Definition gate (phone : string) (maxMessages : option Z) (S : Manager)
  : Verdict * Manager :=
  let (allowed, S') := checkRateLimit phone maxMessages S in
  if negb allowed then (Slowed, S')
  else if isBlocked phone S' then (Ignored, S')
  else (Passed, S').

(** The manager after the messages of [senders], oldest first. *)
Fixpoint after (senders : list string) (maxMessages : option Z) (S : Manager) : Manager :=
  match senders with
  | [] => S
  | phone :: rest => after rest maxMessages (snd (gate phone maxMessages S))
  end.

(** *** Properties of the gate *)

Lemma gate_state phone maxMessages S :
  snd (gate phone maxMessages S) = snd (checkRateLimit phone maxMessages S).
Proof.
  unfold gate. destruct (checkRateLimit phone maxMessages S) as [[] S']; cbn [negb snd];
    [destruct (isBlocked phone S')|]; reflexivity.
Qed.

Lemma checkRateLimit_blocked phone other maxMessages S :
  other ∈ blockedNumbers S ->
  other ∈ blockedNumbers (snd (checkRateLimit phone maxMessages S)).
Proof.
  intros H. unfold checkRateLimit. cbv zeta.
  destruct (_ <=? _); cbn [snd blockedNumbers]; [apply elem_of_union_r | ]; exact H.
Qed.

Lemma after_blocked senders : forall maxMessages S other,
  other ∈ blockedNumbers S -> other ∈ blockedNumbers (after senders maxMessages S).
Proof.
  induction senders as [|phone rest IH]; intros maxMessages S other H; [exact H|].
  cbn [after]. apply IH. rewrite gate_state. apply checkRateLimit_blocked. exact H.
Qed.

(** X23 (the limit is a ban): a sender whose record already holds
    [maxMessages] timestamps of the last minute is told to wait and put on
    the list of blocked numbers; and no message of a blocked number is
    let through again, whoever writes in between and however long the sender
    waits: the message is slowed or ignored, until [unblock]. *)
Theorem limit_blocks_for_good phone maxMessages S :
  (default 30 maxMessages
   <= Z.of_nat (length (recent (clock (ticks S)) (default [] (rateLimits S !! phone)))) ->
   fst (gate phone maxMessages S) = Slowed /\
   isBlocked phone (snd (gate phone maxMessages S)) = true) /\
  (isBlocked phone S = true ->
   forall senders limit,
     fst (gate phone limit (after senders limit S)) <> Passed /\
     isBlocked phone (snd (gate phone limit (after senders limit S))) = true).
Proof.
  split.
  - intros Hfull. unfold gate, checkRateLimit. cbv zeta.
    apply Z.leb_le in Hfull. rewrite Hfull. cbn [negb fst snd].
    split; [reflexivity|]. unfold isBlocked. cbn [blockedNumbers].
    apply bool_decide_eq_true. set_solver.
  - intros Hblocked senders limit.
    unfold isBlocked in Hblocked. apply bool_decide_eq_true in Hblocked.
    pose proof (after_blocked senders limit S phone Hblocked) as Hstill.
    pose proof (checkRateLimit_blocked phone phone limit _ Hstill) as Hnext.
    split.
    + unfold gate.
      destruct (checkRateLimit phone limit (after senders limit S)) as [[] S'];
        cbn [negb snd] in *; [|discriminate].
      unfold isBlocked. rewrite bool_decide_eq_true_2 by exact Hnext. discriminate.
    + rewrite gate_state. unfold isBlocked. apply bool_decide_eq_true. exact Hnext.
Qed.

(** X24 (what an allowed message leaves on record): when [checkRateLimit]
    answers true for a positive limit, the record of the sender holds at
    most [maxMessages] timestamps, every one of them less than a minute
    before the reading of the clock, which is the last of them; the other
    senders' records and the blocked numbers are as before. *)
Theorem checkRateLimit_record phone maxMessages S :
  fst (checkRateLimit phone maxMessages S) = true ->
  let S' := snd (checkRateLimit phone maxMessages S) in
  let now := clock (ticks S) in
  exists record,
    rateLimits S' !! phone = Some record /\
    Z.of_nat (length record) <= default 30 maxMessages /\
    (forall timestamp, In timestamp record -> now - timestamp < 60000 \/ timestamp = now) /\
    List.last record 0 = now /\
    (forall other, other <> phone -> rateLimits S' !! other = rateLimits S !! other) /\
    blockedNumbers S' = blockedNumbers S.
Proof.
  unfold checkRateLimit. cbv zeta.
  destruct (default 30 maxMessages
            <=? Z.of_nat (length (recent (clock (ticks S))
                                    (default [] (rateLimits S !! phone))))) eqn:Hfull;
    cbn [fst snd]; [discriminate|]. intros _.
  apply Z.leb_gt in Hfull. cbn [rateLimits blockedNumbers].
  eexists. split; [apply lookup_insert_eq|]. split; [|split; [|split; [|split]]].
  - rewrite length_app. cbn [length]. lia.
  - intros timestamp Hin. apply in_app_or in Hin as [Hin|[<-|[]]]; [left | right; reflexivity].
    unfold recent in Hin. apply List.filter_In in Hin as [_ Hin].
    apply Z.ltb_lt in Hin. exact Hin.
  - apply List.last_last.
  - intros other Hother. apply lookup_insert_ne. congruence.
  - reflexivity.
Qed.

(** X25 (unblocking): after [unblock], the number is not blocked, its
    record is gone, and its next message is let through, for any positive
    limit. *)
Theorem unblock_admits phone maxMessages S :
  1 <= default 30 maxMessages ->
  isBlocked phone (unblock phone S) = false /\
  rateLimits (unblock phone S) !! phone = None /\
  fst (gate phone maxMessages (unblock phone S)) = Passed.
Proof.
  intros Hmax.
  assert (Hnot : phone ∉ blockedNumbers (unblock phone S)).
  { unfold unblock. cbn [blockedNumbers]. apply not_elem_of_difference. right.
    apply elem_of_singleton. reflexivity. }
  split; [|split].
  - unfold isBlocked. apply bool_decide_eq_false. exact Hnot.
  - unfold unblock. cbn [rateLimits]. apply lookup_delete_eq.
  - unfold gate, checkRateLimit. cbv zeta.
    unfold unblock at 2. cbn [rateLimits]. rewrite lookup_delete_eq.
    cbn [default from_option id recent List.filter length].
    destruct (default 30 maxMessages <=? Z.of_nat 0) eqn:Hfull;
      [apply Z.leb_le in Hfull; change (Z.of_nat 0) with 0 in Hfull; lia|].
    cbn [negb]. unfold isBlocked. cbn [blockedNumbers].
    rewrite bool_decide_eq_false_2 by exact Hnot. reflexivity.
Qed.

End Gate.

(** *** The sanitizer *)

(** [text.replace(/[<>]/g, '')] *)
Fixpoint removeAngles (s : string) : string :=
  match s with
  | EmptyString => EmptyString
  | String c s' =>
      if Ascii.eqb c "<" || Ascii.eqb c ">" then removeAngles s'
      else String c (removeAngles s')
  end.

(** The units of [p], up to the case of ASCII letters, start [s]. *)
Fixpoint startsWith_ci (p s : string) : bool :=
  match p, s with
  | EmptyString, _ => true
  | String a p', String b s' =>
      Ascii.eqb (Js.lower_byte None a) (Js.lower_byte None b) && startsWith_ci p' s'
  | String _ _, EmptyString => false
  end.

(** [text.replace(/javascript:/gi, '')], left to right; [skip] units of a
    match are still to be dropped. *)
Fixpoint removeScheme (skip : nat) (s : string) : string :=
  match s with
  | EmptyString => EmptyString
  | String c s' =>
      match skip with
      | S k => removeScheme k s'
      | O =>
          if startsWith_ci "javascript:" s then removeScheme 10 s'
          else String c (removeScheme 0 s')
      end
  end.

(** The length of the run of word units [s] starts with. *)
Fixpoint wordRun (s : string) : nat :=
  match s with
  | String c s' => if Js.is_word c then S (wordRun s') else O
  | EmptyString => O
  end.

Fixpoint drop (n : nat) (s : string) : string :=
  match n, s with
  | S n', String _ s' => drop n' s'
  | _, _ => s
  end.

(** The length of the match of [/on\w+=/i] at the start of [s], if there is
    one: the run of word units after [on] is taken whole, and the equals
    sign has to follow it. *)
Definition handlerMatch (s : string) : option nat :=
  if startsWith_ci "on" s then
    let run := wordRun (drop 2 s) in
    if (1 <=? run)%nat && Js.startsWith "=" (drop (2 + run) s)
    then Some (2 + run + 1)%nat else None
  else None.

(** [text.replace(/on\w+=/gi, '')] *)
Fixpoint removeHandlers (skip : nat) (s : string) : string :=
  match s with
  | EmptyString => EmptyString
  | String c s' =>
      match skip with
      | S k => removeHandlers k s'
      | O =>
          match handlerMatch s with
          | Some n => removeHandlers (n - 1) s'
          | None => String c (removeHandlers 0 s')
          end
      end
  end.

(** [sanitizeInput(text)]; [None] is a value that is not a string. *)
Definition sanitizeInput (text : option string) : string :=
  match text with
  | None => ""
  | Some text =>
      AdvancedBrain.substring0 5000
        (Js.trim (removeHandlers 0 (removeScheme 0 (removeAngles text))))
  end.



Lemma removeAngles_units s c :
  In c (AdvancedBrain.units (removeAngles s)) -> c <> "<"%char /\ c <> ">"%char.
Proof.
  induction s as [|d s IH]; intros H; [destruct H|].
  cbn [removeAngles] in H.
  destruct (Ascii.eqb_spec d "<") as [->|Hlt]; cbn [orb] in H; [exact (IH H)|].
  destruct (Ascii.eqb_spec d ">") as [->|Hgt]; [exact (IH H)|].
  cbn [AdvancedBrain.units list_ascii_of_string In] in H. destruct H as [<-|H]; [auto | exact (IH H)].
Qed.

Lemma removeScheme_units s : forall skip c,
  In c (AdvancedBrain.units (removeScheme skip s)) -> In c (AdvancedBrain.units s).
Proof.
  induction s as [|d s IH]; intros skip c H; [destruct skip; exact H|].
  cbn [removeScheme] in H. destruct skip as [|k].
  - destruct (startsWith_ci "javascript:" (String d s)).
    + right. exact (IH _ _ H).
    + cbn [AdvancedBrain.units list_ascii_of_string In] in *.
      destruct H as [H|H]; [left; exact H | right; exact (IH _ _ H)].
  - right. exact (IH _ _ H).
Qed.

Lemma removeHandlers_units s : forall skip c,
  In c (AdvancedBrain.units (removeHandlers skip s)) -> In c (AdvancedBrain.units s).
Proof.
  induction s as [|d s IH]; intros skip c H; [destruct skip; exact H|].
  cbn [removeHandlers] in H. destruct skip as [|k].
  - destruct (handlerMatch (String d s)).
    + right. exact (IH _ _ H).
    + cbn [AdvancedBrain.units list_ascii_of_string In] in *.
      destruct H as [H|H]; [left; exact H | right; exact (IH _ _ H)].
  - right. exact (IH _ _ H).
Qed.

(** X26 (the message the engines receive): whatever it is given,
    [sanitizeInput] returns a text of at most 5000 UTF-16 code units (its
    [length]) without any angle bracket. *)
Theorem sanitizeInput_no_angles text :
  Js.len (sanitizeInput text) <= 5000 /\
  forall c, In c (AdvancedBrain.units (sanitizeInput text)) ->
            c <> "<"%char /\ c <> ">"%char.
Proof.
  destruct text as [text|];
    [|split; [unfold sanitizeInput, Js.len; cbn [Js.utf16Length]; lia | intros c []]].
  unfold sanitizeInput. split.
  - unfold Js.len.
    pose proof (AdvancedBrain.substring0_length
                  (Js.trim (removeHandlers 0 (removeScheme 0 (removeAngles text)))) 5000).
    lia.
  - intros c H. apply AdvancedBrain.substring0_units in H as [H|H].
    + apply AdvancedBrain.trim_units in H.
      apply removeHandlers_units in H. apply removeScheme_units in H.
      exact (removeAngles_units _ _ H).
    + split; intros ->; apply Nat.leb_le in H; discriminate H.
Qed.

(** *** The gate on a sample clock *)

(** One reading of the clock per second. *)
Definition sampleClock (n : nat) : Z := 1700000000000 + 1000 * Z.of_nat n.

Definition sender : string := "5511999990000@c.us".

(** Three messages within three seconds, under a limit of two a minute. *)
Definition flooded : Manager := after sampleClock [sender; sender; sender] (Some 2) initial.

Lemma flooded_blocked : isBlocked sender flooded = true.
Proof. vm_compute. reflexivity. Qed.

(** The sender stays out, also once others have written and the minute has
    long passed. *)
Lemma limit_blocks_for_good_witness :
  let later := after sampleClock (repeat "5511888880000@c.us" 90) (Some 2) flooded in
  fst (gate sampleClock sender (Some 2) later) <> Passed /\
  isBlocked sender (snd (gate sampleClock sender (Some 2) later)) = true.
Proof.
  exact (proj2 (limit_blocks_for_good sampleClock sender (Some 2) flooded) flooded_blocked
           (repeat "5511888880000@c.us" 90) (Some 2)).
Defined.

Lemma checkRateLimit_record_witness :
  let S' := snd (checkRateLimit sampleClock sender None initial) in
  exists record,
    rateLimits S' !! sender = Some record /\
    Z.of_nat (length record) <= 30 /\
    (forall timestamp, In timestamp record ->
       sampleClock 0 - timestamp < 60000 \/ timestamp = sampleClock 0) /\
    List.last record 0 = sampleClock 0 /\
    (forall other, other <> sender -> rateLimits S' !! other = rateLimits initial !! other) /\
    blockedNumbers S' = blockedNumbers initial.
Proof.
  apply (checkRateLimit_record sampleClock sender None initial). reflexivity.
Defined.

Lemma unblock_admits_witness :
  isBlocked sender (unblock sender flooded) = false /\
  rateLimits (unblock sender flooded) !! sender = None /\
  fst (gate sampleClock sender (Some 2) (unblock sender flooded)) = Passed.
Proof.
  apply (unblock_admits sampleClock sender (Some 2) flooded). vm_compute. discriminate.
Defined.

End Security.
